(** * LiteFinPad: the analytics calculations and the description history

    A shallow embedding of [analytics.py], of the part of [date_utils.py] it
    calls, and of [DescriptionHistory.add_or_update] from
    [description_autocomplete.py], with the properties of the specification
    proved about it.

    Conventions of the embedding.
    - Python [int] is [Z]; the amounts of the expenses in memory and every
      value computed from them are exact rationals ([Q]), so rounding of
      binary floating point is not part of that model and results are
      compared with [==].
    - The numbers of [calculate_monthly_trend] (the amounts read from the
      file of the previous month, the current total, the percentage) are
      binary64 numbers, Rocq's primitive [float], with their rounding,
      infinities and NaN: the thresholds of the indicator are tested on
      them.
    - Python [str] is [string]; a character is one 8-bit code.
    - A Python [datetime] is a calendar date with a time of day.  The
      [datetime] library is modelled with its range (years 1 to 9999) and
      the exceptions it raises when a computed date leaves that range.
    - A function that can raise returns a [result].
    - What a function reads from outside its arguments (the clock, the
      file system) is a component of an explicit [world]. *)

From Stdlib Require Import ZArith QArith Qabs Qround List String Ascii Bool.
From Stdlib Require Import Lia Lqa Permutation Sorted.
From Stdlib Require Import Floats.
Import ListNotations.

Open Scope Z_scope.

(* ===================================================================== *)
(** * Python runtime: exceptions                                          *)
(* ===================================================================== *)

Module Py.

Inductive exn : Type :=
| ValueError
| OverflowError.

Inductive result (A : Type) : Type :=
| Ok (a : A)
| Raise (e : exn).

Arguments Ok {A} a.
Arguments Raise {A} e.

Definition bind {A B : Type} (r : result A) (k : A -> result B) : result B :=
  match r with
  | Ok a => k a
  | Raise e => Raise e
  end.

(** Python's [l[:n]]: a negative bound counts from the end. *)
Definition slice_to {A : Type} (n : Z) (l : list A) : list A :=
  if n <? 0
  then firstn (Z.to_nat (Z.max 0 (Z.of_nat (List.length l) + n))) l
  else firstn (Z.to_nat n) l.

(** Python's [l[i:j]] for [0 <= i <= j]. *)
Definition slice {A : Type} (i j : nat) (l : list A) : list A :=
  firstn (j - i) (skipn i l).

(** Python's [l[i:j] = r] for [0 <= i <= j]. *)
Definition set_slice {A : Type} (i j : nat) (r l : list A) : list A :=
  firstn i l ++ r ++ skipn j l.

(** A stable sort, by insertion from the right.  An element goes before
    the first element it is not greater than, hence before the equal
    elements that followed it in the input.  Python's [sort] and [sorted]
    are stable, and the stable ordering of a list is unique, so this
    computes the list they produce. *)
Section StableSort.
Context {A : Type} (leb : A -> A -> bool).

Fixpoint insert (x : A) (l : list A) : list A :=
  match l with
  | [] => [x]
  | y :: l' => if leb x y then x :: y :: l' else y :: insert x l'
  end.

Definition sorted (l : list A) : list A := fold_right insert [] l.
End StableSort.

End Py.

Import Py.

Notation "x <- r ;; k" := (Py.bind r (fun x => k))
  (at level 61, r at next level, right associativity).

(* ===================================================================== *)
(** * The [datetime] and [calendar] libraries                              *)
(* ===================================================================== *)

Module Datetime.

Record date : Type := mkdate { year : Z; month : Z; day : Z }.

(** A [datetime]: the date and the time of day in microseconds. *)
Record datetime : Type := mkdatetime { dt_date : date; dt_micro : Z }.

Definition MINYEAR : Z := 1.
Definition MAXYEAR : Z := 9999.
Definition MAXORDINAL : Z := 3652059.
Definition DAY_MICROS : Z := 86400000000.

Definition is_leap (y : Z) : bool :=
  (y mod 4 =? 0) && (negb (y mod 100 =? 0) || (y mod 400 =? 0)).

Definition days_before_year (y : Z) : Z :=
  let y1 := y - 1 in y1 * 365 + y1 / 4 - y1 / 100 + y1 / 400.

Definition days_in_month (y m : Z) : Z :=
  if (m =? 2) && is_leap y then 29 else
  match m with
  | 1 => 31 | 2 => 28 | 3 => 31 | 4 => 30 | 5 => 31 | 6 => 30
  | 7 => 31 | 8 => 31 | 9 => 30 | 10 => 31 | 11 => 30 | 12 => 31
  | _ => 0
  end.

Definition days_before_month (y m : Z) : Z :=
  match m with
  | 1 => 0 | 2 => 31 | 3 => 59 | 4 => 90 | 5 => 120 | 6 => 151
  | 7 => 181 | 8 => 212 | 9 => 243 | 10 => 273 | 11 => 304 | 12 => 334
  | _ => 0
  end + (if (2 <? m) && is_leap y then 1 else 0).

(** The check of the [date] constructor. *)
Definition valid_dateb (d : date) : bool :=
  (MINYEAR <=? year d) && (year d <=? MAXYEAR) &&
  (1 <=? month d) && (month d <=? 12) &&
  (1 <=? day d) && (day d <=? days_in_month (year d) (month d)).

Definition valid_date (d : date) : Prop := valid_dateb d = true.

Definition valid_datetime (t : datetime) : Prop :=
  valid_date (dt_date t) /\ 0 <= dt_micro t < DAY_MICROS.

(** [date.toordinal()]: 0001-01-01 is day 1. *)
Definition toordinal (d : date) : Z :=
  days_before_year (year d) + days_before_month (year d) (month d) + day d.

(** [date.weekday()]: Monday is 0, Sunday is 6. *)
Definition weekday (d : date) : Z := (toordinal d + 6) mod 7.

(** Comparison of dates: by year, then month, then day. *)
Definition date_ltb (a b : date) : bool :=
  (year a <? year b) ||
  ((year a =? year b) &&
   ((month a <? month b) || ((month a =? month b) && (day a <? day b)))).

Definition date_gtb (a b : date) : bool := date_ltb b a.

(** The day before and the day after a date. *)
Definition prev_day (d : date) : date :=
  if 1 <? day d then mkdate (year d) (month d) (day d - 1)
  else if 1 <? month d
       then mkdate (year d) (month d - 1) (days_in_month (year d) (month d - 1))
       else mkdate (year d - 1) 12 31.

Definition next_day (d : date) : date :=
  if day d <? days_in_month (year d) (month d)
  then mkdate (year d) (month d) (day d + 1)
  else if month d <? 12
       then mkdate (year d) (month d + 1) 1
       else mkdate (year d + 1) 1 1.

Fixpoint days_back (n : nat) (d : date) : date :=
  match n with
  | O => d
  | S k => days_back k (prev_day d)
  end.

Fixpoint days_on (n : nat) (d : date) : date :=
  match n with
  | O => d
  | S k => days_on k (next_day d)
  end.

(** [t - timedelta(days=n)] and [t + timedelta(days=n)] for [n >= 0]: the
    time of day is kept; a result outside the range of ordinals raises
    [OverflowError]. *)
Definition sub_days (t : datetime) (n : Z) : result datetime :=
  let o := toordinal (dt_date t) - n in
  if (0 <? o) && (o <=? MAXORDINAL)
  then Ok (mkdatetime (days_back (Z.to_nat n) (dt_date t)) (dt_micro t))
  else Raise OverflowError.

Definition add_days (t : datetime) (n : Z) : result datetime :=
  let o := toordinal (dt_date t) + n in
  if (0 <? o) && (o <=? MAXORDINAL)
  then Ok (mkdatetime (days_on (Z.to_nat n) (dt_date t)) (dt_micro t))
  else Raise OverflowError.

(** [(a - b).days]: a [timedelta] is normalised so that its seconds and
    microseconds are not negative. *)
Definition diff_days (a b : datetime) : Z :=
  ((toordinal (dt_date a) - toordinal (dt_date b)) * DAY_MICROS
   + (dt_micro a - dt_micro b)) / DAY_MICROS.

(** [t.replace(year=..., month=..., day=...)]: builds a new [datetime], the
    constructor checks the fields and raises [ValueError]. *)
Definition replace (t : datetime) (y m d : option Z) : result datetime :=
  let nd := mkdate (match y with Some v => v | None => year (dt_date t) end)
                   (match m with Some v => v | None => month (dt_date t) end)
                   (match d with Some v => v | None => day (dt_date t) end) in
  if valid_dateb nd then Ok (mkdatetime nd (dt_micro t)) else Raise ValueError.

(** [calendar.monthrange(year, month)[1]]. *)
Definition monthrange_days (y m : Z) : Z := days_in_month y m.

(** ** [strptime]

    The format is turned into a regular expression that is matched at the
    start of the string, leftmost alternative first; the whole string must
    be consumed.  [%Y] is [\d\d\d\d], [%m] is [1[0-2]|0[1-9]|[1-9]] and
    [%d] is [3[01]|[12]\d|0[1-9]|[1-9]| [1-9]]. *)

Definition rx (A : Type) : Type := list ascii -> option A.

Definition digit_in (lo hi : Z) (c : ascii) : option Z :=
  let v := Z.of_N (N_of_ascii c) - 48 in
  if (lo <=? v) && (v <=? hi) then Some v else None.

Definition rx_digit {A : Type} (lo hi : Z) (k : Z -> rx A) : rx A :=
  fun s =>
    match s with
    | c :: r => match digit_in lo hi c with
                | Some v => k v r
                | None => None
                end
    | [] => None
    end.

Definition rx_char {A : Type} (c : ascii) (k : rx A) : rx A :=
  fun s =>
    match s with
    | x :: r => if Ascii.eqb x c then k r else None
    | [] => None
    end.

Definition rx_alt {A : Type} (p q : rx A) : rx A :=
  fun s => match p s with
           | Some v => Some v
           | None => q s
           end.

Definition rx_Y {A : Type} (k : Z -> rx A) : rx A :=
  rx_digit 0 9 (fun a => rx_digit 0 9 (fun b => rx_digit 0 9 (fun c =>
  rx_digit 0 9 (fun d => k (1000 * a + 100 * b + 10 * c + d))))).

Definition rx_m {A : Type} (k : Z -> rx A) : rx A :=
  rx_alt (rx_char "1" (rx_digit 0 2 (fun v => k (10 + v))))
 (rx_alt (rx_char "0" (rx_digit 1 9 k))
         (rx_digit 1 9 k)).

Definition rx_d {A : Type} (k : Z -> rx A) : rx A :=
  rx_alt (rx_char "3" (rx_digit 0 1 (fun v => k (30 + v))))
 (rx_alt (rx_digit 1 2 (fun a => rx_digit 0 9 (fun b => k (10 * a + b))))
 (rx_alt (rx_char "0" (rx_digit 1 9 k))
 (rx_alt (rx_digit 1 9 k)
         (rx_char " " (rx_digit 1 9 k))))).

Definition rx_end {A : Type} (v : A) : rx (A * list ascii) :=
  fun s => Some (v, s).

(** After the match: unconverted data and a date that does not exist both
    raise [ValueError]. *)
Definition strptime_build (m : option (date * list ascii)) : result datetime :=
  match m with
  | Some (d, []) => if valid_dateb d then Ok (mkdatetime d 0) else Raise ValueError
  | _ => Raise ValueError
  end.

(** [datetime.strptime(s, '%Y-%m-%d')] *)
Definition strptime_Ymd (s : string) : result datetime :=
  strptime_build
    (rx_Y (fun y => rx_char "-" (rx_m (fun m => rx_char "-" (rx_d (fun d =>
       rx_end (mkdate y m d))))))
       (list_ascii_of_string s)).

(** [datetime.strptime(s, '%Y-%m')]: the day defaults to 1. *)
Definition strptime_Ym (s : string) : result datetime :=
  strptime_build
    (rx_Y (fun y => rx_char "-" (rx_m (fun m => rx_end (mkdate y m 1))))
       (list_ascii_of_string s)).

(** ** [strftime] *)

Definition digit_char (v : Z) : ascii := ascii_of_N (Z.to_N (48 + v mod 10)).

Definition two_digits (v : Z) : string :=
  String (digit_char (v / 10)) (String (digit_char v) EmptyString).

(** [%Y]: the year in four digits.  From the year 1000 on every C library
    writes it so; below, the C libraries of Windows and macOS pad with
    zeros, as here, and glibc does not. *)
Definition four_digits (v : Z) : string :=
  String (digit_char (v / 1000)) (String (digit_char (v / 100))
    (String (digit_char (v / 10)) (String (digit_char v) EmptyString))).

Definition month_name (m : Z) : string :=
  match m with
  | 1 => "January" | 2 => "February" | 3 => "March" | 4 => "April"
  | 5 => "May" | 6 => "June" | 7 => "July" | 8 => "August"
  | 9 => "September" | 10 => "October" | 11 => "November" | _ => "December"
  end%string.

(** [t.strftime('%Y-%m')] *)
Definition strftime_Ym (t : datetime) : string :=
  (four_digits (year (dt_date t)) ++ "-" ++ two_digits (month (dt_date t)))%string.

(** [t.strftime('%Y-%m-%d')] *)
Definition strftime_Ymd (t : datetime) : string :=
  (strftime_Ym t ++ "-" ++ two_digits (day (dt_date t)))%string.

(** [t.strftime('%B %Y')], in the C locale. *)
Definition strftime_BY (t : datetime) : string :=
  (month_name (month (dt_date t)) ++ " " ++ four_digits (year (dt_date t)))%string.

(** Comparison of dates with [<=]. *)
Definition date_leb (a b : date) : bool :=
  (year a <? year b) ||
  ((year a =? year b) &&
   ((month a <? month b) || ((month a =? month b) && (day a <=? day b)))).

(** The arguments of the constructor are read as C integers: a number
    that does not fit raises [OverflowError]. *)
Definition C_INT_MIN : Z := - 2147483648.
Definition C_INT_MAX : Z := 2147483647.

Definition c_int (v : Z) : bool := (C_INT_MIN <=? v) && (v <=? C_INT_MAX).

(** [datetime(y, m, d)]: midnight of the day; the constructor raises
    [ValueError] when there is no such day. *)
Definition datetime_new (y m d : Z) : result datetime :=
  if c_int y && c_int m && c_int d
  then if valid_dateb (mkdate y m d) then Ok (mkdatetime (mkdate y m d) 0)
       else Raise ValueError
  else Raise OverflowError.

(** [calendar.monthrange(year, month)[1]]: the month is checked
    ([IllegalMonthError], a [ValueError]), the year is not. *)
Definition monthrange_last (y m : Z) : result Z :=
  if (1 <=? m) && (m <=? 12) then Ok (days_in_month y m) else Raise ValueError.

(** [t.strftime('%B')], in the C locale. *)
Definition strftime_B (t : datetime) : string := month_name (month (dt_date t)).

End Datetime.

Import Datetime.

(* ===================================================================== *)
(** * Python runtime: strings and [int]                                   *)
(* ===================================================================== *)

Module PyStr.

(** The characters [int] skips around a number, among the 8-bit codes: the
    white space of ASCII, and NEL and the no-break space, which [int] turns
    into spaces first.  The separators 28 to 31 are white space for
    [str.strip], not for [int]. *)
Definition is_whitespace (c : ascii) : bool :=
  let n := N_of_ascii c in
  ((9 <=? n) && (n <=? 13))%N || (n =? 32)%N
  || (n =? 133)%N || (n =? 160)%N.

Fixpoint skip_whitespace (l : list ascii) : list ascii :=
  match l with
  | [] => []
  | c :: r => if is_whitespace c then skip_whitespace r else l
  end.

Definition strip_whitespace (l : list ascii) : list ascii :=
  rev (skip_whitespace (rev (skip_whitespace l))).

(** The digits of an integer literal, with single underscores between
    digits: the value read so far and the number of digits. *)
Fixpoint int_digits (l : list ascii) (acc count : Z) : option (Z * Z) :=
  match l with
  | [] => Some (acc, count)
  | c :: r =>
      match digit_in 0 9 c with
      | Some v => int_digits r (10 * acc + v) (count + 1)
      | None =>
          if Ascii.eqb c "_"
          then match r with
               | d :: _ => match digit_in 0 9 d with
                           | Some _ => int_digits r acc count
                           | None => None
                           end
               | [] => None
               end
          else None
      end
  end.

(** [sys.get_int_max_str_digits()], by default. *)
Definition MAX_STR_DIGITS : Z := 4300.

(** [int(s)] for a string: surrounding whitespace, an optional sign,
    decimal digits; anything else raises [ValueError]. *)
Definition py_int (s : string) : result Z :=
  let body := strip_whitespace (list_ascii_of_string s) in
  let signed := match body with
                | "-"%char :: r => (true, r)
                | "+"%char :: r => (false, r)
                | _ => (false, body)
                end in
  match snd signed with
  | [] => Raise ValueError
  | c :: _ =>
      match digit_in 0 9 c, int_digits (snd signed) 0 0 with
      | Some _, Some (v, n) =>
          if MAX_STR_DIGITS <? n then Raise ValueError
          else Ok (if fst signed then - v else v)
      | _, _ => Raise ValueError
      end
  end.

(** [s.split(sep)] for a separator of one character. *)
Fixpoint split_chars (sep : ascii) (l cur : list ascii) : list (list ascii) :=
  match l with
  | [] => [rev cur]
  | c :: r =>
      if Ascii.eqb c sep then rev cur :: split_chars sep r []
      else split_chars sep r (c :: cur)
  end.

Definition split (sep : ascii) (s : string) : list string :=
  map string_of_list_ascii (split_chars sep (list_ascii_of_string s) []).

(** [s.startswith(p)] *)
Definition startswith (s p : string) : bool := String.prefix p s.

(** [s[n:]] for [n >= 0] *)
Definition drop (n : nat) (s : string) : string :=
  String.substring n (String.length s - n) s.

End PyStr.

Import PyStr.

(* ===================================================================== *)
(** * date_utils.py                                                       *)
(* ===================================================================== *)

Module DateUtils.

(** [parse_date]: the [ValueError] of [strptime] becomes [None]. *)
Definition parse_date (date_str : string) : option datetime :=
  match strptime_Ymd date_str with
  | Ok dt => Some dt
  | Raise _ => None
  end.

Definition is_valid_date (date_str : string) : bool :=
  match parse_date date_str with
  | Some _ => true
  | None => false
  end.

Definition format_date (dt : datetime) : string := strftime_Ymd dt.

Definition get_month_folder_name (dt : datetime) : string :=
  ("data_" ++ strftime_Ym dt)%string.

Definition get_month_folder_from_string (date_str : string) : option string :=
  match parse_date date_str with
  | Some dt => Some (get_month_folder_name dt)
  | None => None
  end.

(** [parse_month_folder_name]: the [ValueError] of [int] and of the
    unpacking into [year, month] is caught. *)
Definition parse_month_folder_name (folder_name : string) : option (Z * Z) :=
  if startswith folder_name "data_" then
    let month_str := drop 5 folder_name in
    match map py_int (split "-" month_str) with
    | [Ok year; Ok month] =>
        if (1 <=? month) && (month <=? 12) then Some (year, month) else None
    | _ => None
    end
  else None.

Definition get_previous_month (dt : datetime) : result datetime :=
  first_of_month <- replace dt None None (Some 1) ;;
  last_of_prev_month <- sub_days first_of_month 1 ;;
  replace last_of_prev_month None None (Some 1).

Definition get_next_month (dt : datetime) : result datetime :=
  last_day <- monthrange_last (year (dt_date dt)) (month (dt_date dt)) ;;
  last_of_month <- replace dt None None (Some last_day) ;;
  add_days last_of_month 1.

Definition format_month_display (dt : datetime) : string := strftime_BY dt.

(** [get_month_name]: only the [ValueError] of the constructor is
    caught. *)
Definition get_month_name (month : Z) : result string :=
  match datetime_new 2000 month 1 with
  | Ok dt => Ok (strftime_B dt)
  | Raise ValueError => Ok EmptyString
  | Raise e => Raise e
  end.

Definition get_first_day_of_month (year month : Z) : result string :=
  dt <- datetime_new year month 1 ;;
  Ok (format_date dt).

Definition get_last_day_of_month (year month : Z) : result string :=
  last_day <- monthrange_last year month ;;
  dt <- datetime_new year month last_day ;;
  Ok (format_date dt).

Definition extract_year_month (date_str : string) : option (Z * Z) :=
  match parse_date date_str with
  | Some dt => Some (year (dt_date dt), month (dt_date dt))
  | None => None
  end.

End DateUtils.

(* ===================================================================== *)
(** * What the program reads from outside its arguments                   *)
(* ===================================================================== *)

Module World.

(** A value as [json.load] returns it.  A number is the binary64 number
    the text of the file stands for: the nearest one, an infinity beyond
    the range ([1e400], [Infinity]) and NaN for [NaN].  An integer of the
    file is taken as the binary64 number it equals, as the sums and
    comparisons of the program take it; integers that are no binary64
    number are outside the embedding. *)
#[warnings="-register-all"]
Inductive json : Type :=
| JNull
| JBool (b : bool)
| JNum (x : float)
| JStr (s : string)
| JList (l : list json)
| JDict (kv : list (string * json)).

(** What a path leads to: nothing ([os.path.exists] is false), a file that
    cannot be opened or read, a file whose text is not JSON, or a file
    holding a JSON value. *)
Inductive file_state : Type :=
| NoFile
| Unreadable
| NotJson
| Json (j : json).

Record world : Type := mkworld {
  now : datetime;                 (* datetime.now() *)
  os_sep : string;                (* os.sep *)
  fs : string -> file_state
}.

(** [os.path.join(a, b)] for a relative [b] and a non-empty [a] that does
    not end with a separator. *)
Definition path_join (w : world) (a b : string) : string :=
  (a ++ os_sep w ++ b)%string.

(** [d.get(key, default)] on a parsed object. *)
Fixpoint dict_get (key : string) (kv : list (string * json)) (default : json) : json :=
  match kv with
  | [] => default
  | (k, v) :: r => if String.eqb k key then v else dict_get key r default
  end.

Fixpoint dict_find (key : string) (kv : list (string * json)) : option json :=
  match kv with
  | [] => None
  | (k, v) :: r => if String.eqb k key then Some v else dict_find key r
  end.

(** The items a [for] loop over a value goes through; [None] when the value
    is not iterable ([TypeError]). *)
Definition json_iter (j : json) : option (list json) :=
  match j with
  | JList l => Some l
  | JDict kv => Some (map (fun p => JStr (fst p)) kv)
  | JStr s => Some (map (fun c => JStr (String c EmptyString)) (list_ascii_of_string s))
  | _ => None
  end.

(** [e['amount']] as a summand; [None] when the subscript raises
    ([TypeError], [KeyError]) or the value cannot be added to a number. *)
Definition item_amount (e : json) : option float :=
  match e with
  | JDict kv =>
      match dict_find "amount" kv with
      | Some (JNum x) => Some x
      | Some (JBool b) => Some (if b then 1%float else 0%float)
      | _ => None
      end
  | _ => None
  end.

(** [sum(e['amount'] for e in items)], from the accumulator [acc]: one
    binary64 addition for each item, in the order of the list. *)
Fixpoint sum_item_amounts (acc : float) (items : list json) : option float :=
  match items with
  | [] => Some acc
  | e :: r =>
      match item_amount e with
      | Some x => sum_item_amounts (acc + x)%float r
      | None => None
      end
  end.

End World.

Import World.

(* ===================================================================== *)
(** * Numbers and their formatting                                        *)
(* ===================================================================== *)

Module Num.

Definition Qltb (a b : Q) : bool := negb (Qle_bool b a).

(** [sum(l)]: from 0, left to right.  Over [Q] the additions are exact:
    the rounding of each binary64 addition, and with it the dependence of
    a total on the order of the summands, is not modelled here. *)
Definition py_sum (l : list Q) : Q := fold_left Qplus l 0%Q.

(** [sum(l)] for binary64 numbers: from 0, left to right, each addition
    rounded, as CPython computes it up to version 3.11 (from 3.12 on [sum]
    carries a compensation term and can return a neighbouring number). *)
Definition float_sum (l : list float) : float := fold_left PrimFloat.add l 0%float.

(** Round to the nearest integer, a tie to the even one. *)
Definition round_half_even (q : Q) : Z :=
  let f := Qfloor q in
  let r := (q - inject_Z f)%Q in
  if Qltb r (1 # 2) then f
  else if Qltb (1 # 2) r then f + 1
  else if Z.even f then f else f + 1.

Fixpoint digits_of (fuel : nat) (n : Z) (acc : string) : string :=
  match fuel with
  | O => acc
  | S k =>
      let acc' := String (digit_char n) acc in
      if n <? 10 then acc' else digits_of k (n / 10) acc'
  end.

(** The decimal digits of [n >= 0]. *)
Definition Z_to_string (n : Z) : string := digits_of (S (Z.to_nat n)) n EmptyString.

(** [f"{q:.2f}"] *)
Definition format_2f (q : Q) : string :=
  let n := round_half_even (Qabs q * 100)%Q in
  ((if Qltb q 0 then "-" else "") ++
   Z_to_string (n / 100) ++ "." ++ two_digits (n mod 100))%string.

(** The value of a finite binary64 number. *)
Definition SF2Q (x : spec_float) : Q :=
  match x with
  | S754_finite s m e => (inject_Z (cond_Zopp s (Zpos m)) * Qpower 2 e)%Q
  | _ => 0%Q
  end.

(** [f"{x:.2f}"] for a binary64 number: the decimal expansion of its exact
    value rounded to two places, a tie to the even digit; the sign of a
    negative zero is kept. *)
Definition format_float_2f (x : float) : string :=
  match Prim2SF x with
  | S754_nan => "nan"
  | S754_infinity s => if s then "-inf" else "inf"
  | S754_zero s => if s then "-0.00" else "0.00"
  | S754_finite s m e => format_2f (SF2Q (S754_finite s m e))
  end.


Definition SFis_nan (x : spec_float) : bool :=
  match x with
  | S754_nan => true
  | _ => false
  end.

End Num.

Import Num.

(* ===================================================================== *)
(** * analytics.py                                                        *)
(* ===================================================================== *)

Module ExpenseAnalytics.

(** An expense: the dictionary with the keys ['date'], ['amount'] and
    ['description'], the date a string and the amount a number. *)
Record expense : Type := mkexpense {
  e_date : string;
  e_amount : Q;
  e_description : string
}.

(** The comparison indicator.  The symbols are written in UTF-8. *)
Record indicator : Type := mkindicator {
  symbol : string;
  percentage : float;
  direction : string;
  color : string
}.

(** One turn of the loop of [_filter_expenses_by_date_range]: the new value
    of [filtered]. *)
Definition range_step (start_date end_date : option datetime) (current_date : datetime)
    (filtered : list expense) (expense : expense) :=
  match DateUtils.parse_date (e_date expense) with
  | None => filtered                                   (* skip invalid dates *)
  | Some dt =>
      let expense_date := dt_date dt in
      if match start_date with
         | Some s => date_ltb expense_date (dt_date s)
         | None => false
         end
      then filtered
      else if match end_date with
              | Some e => date_gtb expense_date (dt_date e)
              | None => date_gtb expense_date (dt_date current_date)
              end
      then filtered
      else filtered ++ [expense]
  end.

Definition _filter_expenses_by_date_range (w : world) (expenses : list expense)
    (start_date end_date current_date : option datetime) : list expense :=
  let current_date := match current_date with
                      | None => now w
                      | Some c => c
                      end in
  fold_left (range_step start_date end_date current_date) expenses [].

Definition _filter_expenses_by_month (w : world) (expenses : list expense)
    (month_date : datetime) (exclude_future : bool) : result (list expense) :=
  month_start <- replace month_date None None (Some 1) ;;
  month_end <-
    (if month (dt_date month_date) =? 12
     then first <- replace month_date (Some (year (dt_date month_date) + 1)) (Some 1) (Some 1) ;;
          sub_days first 1
     else first <- replace month_date None (Some (month (dt_date month_date) + 1)) (Some 1) ;;
          sub_days first 1) ;;
  let end_date := if exclude_future then month_date else month_end in
  Ok (_filter_expenses_by_date_range w expenses
        (Some month_start) (Some end_date) (Some month_date)).

Definition _filter_expenses_by_week (w : world) (expenses : list expense)
    (week_date : datetime) (exclude_future : bool) : result (list expense) :=
  week_start <- sub_days week_date (weekday (dt_date week_date)) ;;   (* Monday *)
  week_end <- add_days week_start 6 ;;                                 (* Sunday *)
  let end_date := if exclude_future then week_date else week_end in
  Ok (_filter_expenses_by_date_range w expenses
        (Some week_start) (Some end_date) (Some week_date)).

Definition _filter_past_expenses (w : world) (expenses : list expense)
    (current_date : option datetime) : list expense :=
  let current_date := match current_date with
                      | None => now w
                      | Some c => c
                      end in
  _filter_expenses_by_date_range w expenses None (Some current_date) (Some current_date).

Definition calculate_day_progress (w : world) (current_date : option datetime) : Z * Z :=
  let current_date := match current_date with
                      | None => now w
                      | Some c => c
                      end in
  let current_day := day (dt_date current_date) in
  let total_days := monthrange_days (year (dt_date current_date)) (month (dt_date current_date)) in
  (current_day, total_days).

Definition calculate_week_progress (w : world) (current_date : option datetime) : Q * Z :=
  let current_date := match current_date with
                      | None => now w
                      | Some c => c
                      end in
  let current_day := day (dt_date current_date) in
  let base_week := (current_day - 1) / 7 + 1 in
  let day_in_week := (current_day - 1) mod 7 in
  let week_decimal := (inject_Z day_in_week / 10)%Q in
  let precise_week := (inject_Z base_week + week_decimal)%Q in
  let total_days := monthrange_days (year (dt_date current_date)) (month (dt_date current_date)) in
  let total_weeks := total_days / 7 + (if 0 <? total_days mod 7 then 1 else 0) in
  (precise_week, total_weeks).

Definition calculate_daily_average (w : world) (expenses : list expense)
    (current_date : option datetime) : result (Q * Z) :=
  match expenses with
  | [] => Ok (0%Q, 0)
  | _ =>
      let current_date := match current_date with
                          | None => now w
                          | Some c => c
                          end in
      month_expenses <- _filter_expenses_by_month w expenses current_date true ;;
      let monthly_total := py_sum (map e_amount month_expenses) in
      let days_elapsed := day (dt_date current_date) in
      let avg_per_day := if 0 <? days_elapsed
                         then (monthly_total / inject_Z days_elapsed)%Q
                         else 0%Q in
      Ok (avg_per_day, days_elapsed)
  end.

Definition calculate_weekly_average (w : world) (expenses : list expense)
    (current_date : option datetime) : result (Q * Z) :=
  match expenses with
  | [] => Ok (0%Q, 0)
  | _ =>
      let current_date := match current_date with
                          | None => now w
                          | Some c => c
                          end in
      month_expenses <- _filter_expenses_by_month w expenses current_date true ;;
      let monthly_total := py_sum (map e_amount month_expenses) in
      let current_day := day (dt_date current_date) in
      let weeks_elapsed := (current_day - 1) / 7 + 1 in
      let avg_per_week := if 0 <? weeks_elapsed
                          then (monthly_total / inject_Z weeks_elapsed)%Q
                          else 0%Q in
      Ok (avg_per_week, weeks_elapsed)
  end.

Definition calculate_weekly_pace (w : world) (expenses : list expense)
    (current_date : option datetime) : result (Q * Z) :=
  match expenses with
  | [] => Ok (0%Q, 0)
  | _ =>
      let current_date := match current_date with
                          | None => now w
                          | Some c => c
                          end in
      week_expenses <- _filter_expenses_by_week w expenses current_date true ;;
      let weekly_total := py_sum (map e_amount week_expenses) in
      week_start <- sub_days current_date (weekday (dt_date current_date)) ;;
      let days_elapsed := diff_days current_date week_start + 1 in
      let pace_per_day := if 0 <? days_elapsed
                          then (weekly_total / inject_Z days_elapsed)%Q
                          else 0%Q in
      Ok (pace_per_day, days_elapsed)
  end.

(** [calculate_monthly_trend], first step: the last day of the month before
    the viewed month, or before the month of the clock when no month key is
    given (an empty key counts as none). *)
Definition trend_prev_month_date (w : world) (viewed_month_key : option string)
    : result datetime :=
  match viewed_month_key with
  | Some (String c k) =>
      viewed_date <- strptime_Ym (String c k) ;;
      first <- replace viewed_date None None (Some 1) ;;
      sub_days first 1
  | _ =>
      first <- replace (now w) None None (Some 1) ;;
      sub_days first 1
  end.

(** Second step: the total of the expenses file of that month; 0.0 when
    the file does not exist and when reading it raises. *)
Definition trend_prev_total (w : world) (prev_month_date : datetime) : float :=
  let prev_month_key := strftime_Ym prev_month_date in
  let prev_data_folder := ("data_" ++ prev_month_key)%string in
  let prev_expenses_file := path_join w prev_data_folder "expenses.json" in
  match fs w prev_expenses_file with
  | NoFile => 0%float
  | Unreadable => 0%float
  | NotJson => 0%float
  | Json data =>
      let prev_expenses :=
        match data with
        | JList _ => data
        | JDict kv => dict_get "expenses" kv (JList [])
        | _ => JList []
        end in
      match json_iter prev_expenses with
      | Some items =>
          match sum_item_amounts 0%float items with
          | Some total => total
          | None => 0%float
          end
      | None => 0%float
      end
  end.

(** Third step: the comparison indicator.  [prev_total > 0], [percentage
    < 5.0] and [difference > 0] are comparisons of binary64 numbers, false
    when one of them is NaN. *)
Definition trend_indicator (current_month_total : option float) (prev_total : float)
    : option indicator :=
  match current_month_total with
  | Some current_month_total =>
      if (0 <? prev_total)%float then
        let difference := (current_month_total - prev_total)%float in
        let percentage := abs ((difference / prev_total) * 100)%float in
        if (percentage <? 5)%float then
          Some (mkindicator "≈" percentage "similar" "#999999")
        else if (0 <? difference)%float then
          Some (mkindicator "▲" percentage "increase" "#C00000")
        else
          Some (mkindicator "▼" percentage "decrease" "#666666")
      else None
  | None => None
  end.

Definition calculate_monthly_trend (w : world) (prev_month_data_folder : string)
    (current_month_total : option float) (viewed_month_key : option string)
    : result (string * string * option indicator) :=
  prev_month_date <- trend_prev_month_date w viewed_month_key ;;
  let prev_month_name := strftime_BY prev_month_date in
  let prev_total := trend_prev_total w prev_month_date in
  let comparison_indicator := trend_indicator current_month_total prev_total in
  Ok (("$" ++ format_float_2f prev_total)%string, prev_month_name, comparison_indicator).

Definition calculate_median_expense (w : world) (expenses : list expense)
    (current_date : option datetime) : Q * Z :=
  let current_date := match current_date with
                      | None => now w
                      | Some c => c
                      end in
  let past_expenses := _filter_past_expenses w expenses (Some current_date) in
  match past_expenses with
  | [] => (0%Q, 0)
  | _ =>
      let amounts := sorted Qle_bool (map e_amount past_expenses) in
      let count := Z.of_nat (List.length amounts) in
      let median :=
        if count mod 2 =? 0
        then ((nth (Z.to_nat (count / 2 - 1)) amounts 0%Q
               + nth (Z.to_nat (count / 2)) amounts 0%Q) / 2)%Q
        else nth (Z.to_nat (count / 2)) amounts 0%Q in
      (median, count)
  end.

(** [max(l, key=...)] from the first element [best]: a later element
    replaces it only when its key is greater. *)
Fixpoint max_by_amount (best : expense) (l : list expense) : expense :=
  match l with
  | [] => best
  | e :: r => max_by_amount (if Qltb (e_amount best) (e_amount e) then e else best) r
  end.

Definition calculate_largest_expense (w : world) (expenses : list expense)
    (current_date : option datetime) : Q * string :=
  let current_date := match current_date with
                      | None => now w
                      | Some c => c
                      end in
  let past_expenses := _filter_past_expenses w expenses (Some current_date) in
  match past_expenses with
  | [] => (0%Q, "No expenses"%string)
  | first :: rest =>
      let largest := max_by_amount first rest in
      (e_amount largest, e_description largest)
  end.

End ExpenseAnalytics.

(* ===================================================================== *)
(** * description_autocomplete.py                                         *)
(* ===================================================================== *)

Module DescriptionHistory.

(** An entry of the history: the dictionary with the keys ['text'],
    ['count'], ['last_used'] and ['last_amount']. *)
Record entry : Type := mkentry {
  text : string;
  count : Z;
  last_used : string;
  last_amount : Q
}.

(** The object: [settings] gives the integer configured for a section and
    a key, [None] when [SettingsManager.get] falls back on its default (the
    section or the key is missing, or the value is not an integer). *)
Record history : Type := mkhistory {
  file_path : string;
  descriptions : list entry;
  settings : string -> string -> option Z
}.

Definition settings_get_int (h : history) (section key : string) (default : Z) : Z :=
  match settings h section key with
  | Some v => v
  | None => default
  end.

(** The first entry that satisfies [p] is changed where it stands;
    [None] when there is none ([next(..., None)]). *)
Fixpoint update_existing (p : entry -> bool) (f : entry -> entry) (l : list entry)
    : option (list entry) :=
  match l with
  | [] => None
  | d :: r =>
      if p d then Some (f d :: r)
      else match update_existing p f r with
           | Some r' => Some (d :: r')
           | None => None
           end
  end.

(** The order of the keys [(-x['count'], x['last_used'])]. *)
Definition key_leb (a b : entry) : bool :=
  (- count a <? - count b) ||
  ((- count a =? - count b) && String.leb (last_used a) (last_used b)).

(** The order of [sorted(..., key=lambda x: x['last_used'], reverse=True)]. *)
Definition recent_leb (a b : entry) : bool := String.leb (last_used b) (last_used a).

(** The state of the loop that sorts each group of equal counts again. *)
Record regroup_state : Type := mkregroup {
  rg_descriptions : list entry;
  rg_current_count : option Z;
  rg_group_start : nat
}.

Definition regroup_step (st : regroup_state) (i : nat) : regroup_state :=
  match nth_error (rg_descriptions st) i with
  | None => st
  | Some desc =>
      match rg_current_count st with
      | None => mkregroup (rg_descriptions st) (Some (count desc)) (rg_group_start st)
      | Some c =>
          if negb (count desc =? c)
          then mkregroup
                 (set_slice (rg_group_start st) i
                    (sorted recent_leb (slice (rg_group_start st) i (rg_descriptions st)))
                    (rg_descriptions st))
                 (Some (count desc)) i
          else st
      end
  end.

Definition regroup (l : list entry) : list entry :=
  let st := fold_left regroup_step (seq 0 (List.length l)) (mkregroup l None 0%nat) in
  firstn (rg_group_start st) (rg_descriptions st)
  ++ sorted recent_leb (skipn (rg_group_start st) (rg_descriptions st)).

Section Methods.
(** [str.lower] and [str.strip]. *)
Variables lower strip : string -> string.

(** [add_or_update]: the object after the call.  [save] writes the list
    to the history file and leaves the object as it is. *)
Definition add_or_update (w : world) (self : history)
    (description : string) (amount : Q) : history :=
  let normalized := strip description in
  if String.eqb normalized "" then self
  else
    let today := strftime_Ymd (now w) in
    let descs :=
      match update_existing
              (fun d => String.eqb (lower (text d)) (lower normalized))
              (fun existing => mkentry (text existing) (count existing + 1) today amount)
              (descriptions self) with
      | Some updated => updated
      | None => descriptions self ++ [mkentry normalized 1 today amount]
      end in
    let descs := sorted key_leb descs in
    let descs := regroup descs in
    let max_descriptions := settings_get_int self "AutoComplete" "max_descriptions" 50 in
    mkhistory (file_path self) (slice_to max_descriptions descs) (settings self).
(** [get_suggestions]: [limit] is [None] when the caller gives none. *)
Definition get_suggestions (self : history) (partial_text : string)
    (limit : option Z) : list entry :=
  let limit := match limit with
               | None => settings_get_int self "AutoComplete" "max_suggestions" 5
               | Some n => n
               end in
  if String.eqb partial_text "" then slice_to limit (descriptions self)
  else
    let partial_lower := strip (lower partial_text) in
    let matches := filter (fun d => startswith (lower (text d)) partial_lower)
                          (descriptions self) in
    slice_to limit matches.

(** [clear_history]: the object after the call. *)
Definition clear_history (self : history) : history :=
  mkhistory (file_path self) [] (settings self).

End Methods.

(** [str.lower] and [str.strip] on strings of ASCII characters. *)
Definition lower_char (c : ascii) : ascii :=
  let n := N_of_ascii c in
  if (65 <=? n)%N && (n <=? 90)%N then ascii_of_N (n + 32) else c.

Fixpoint ascii_lower (s : string) : string :=
  match s with
  | EmptyString => EmptyString
  | String c r => String (lower_char c) (ascii_lower r)
  end.

Definition is_space (c : ascii) : bool :=
  let n := N_of_ascii c in
  ((9 <=? n)%N && (n <=? 13)%N) || (n =? 32)%N || ((28 <=? n)%N && (n <=? 31)%N).

Fixpoint lstrip (s : string) : string :=
  match s with
  | EmptyString => EmptyString
  | String c r => if is_space c then lstrip r else s
  end.

Fixpoint rstrip (s : string) : string :=
  match s with
  | EmptyString => EmptyString
  | String c r =>
      match rstrip r with
      | EmptyString => if is_space c then EmptyString else String c EmptyString
      | r' => String c r'
      end
  end.

Definition ascii_strip (s : string) : string := rstrip (lstrip s).

End DescriptionHistory.

(* ===================================================================== *)
(** * archive_mode_manager.py and dashboard_page_builder.py                *)
(* ===================================================================== *)

Module ArchiveModeManager.

(** [is_archive_mode]: [viewed_month] is the attribute of the tracker,
    [None] when it is missing or [None]. *)
Definition is_archive_mode (w : world) (viewed_month : option string) : bool :=
  match viewed_month with
  | None => false
  | Some v =>
      let current_month_key := strftime_Ym (now w) in
      negb (String.eqb v current_month_key)
  end.

(** [get_context_date]: nothing is caught, the [ValueError] of [int], of
    the unpacking, of [monthrange] and of the constructor goes to the
    caller. *)
Definition get_context_date (w : world) (viewed_month : option string)
    : result datetime :=
  if is_archive_mode w viewed_month then
    match viewed_month with
    | Some v =>
        match map py_int (split "-" v) with
        | [Ok year; Ok month] =>
            last_day <- monthrange_last year month ;;
            datetime_new year month last_day
        | _ => Raise ValueError
        end
    | None => Ok (now w)
    end
  else Ok (now w).

End ArchiveModeManager.

Module DashboardPageBuilder.

Import ExpenseAnalytics.

(** [create_total_section]: the number shown as "N expenses this month",
    the length of the list the comprehension builds. *)
Definition expense_count (w : world) (expenses : list expense) : Z :=
  let today := dt_date (now w) in
  let past_expenses :=
    filter (fun e => match DateUtils.parse_date (e_date e) with
                     | Some dt => date_leb (dt_date dt) today
                     | None => false
                     end) expenses in
  Z.of_nat (List.length past_expenses).

End DashboardPageBuilder.

(* ===================================================================== *)
(** * The notions the specification speaks of                             *)
(* ===================================================================== *)

Module Spec.

Import ExpenseAnalytics.

(** An order-preserving subsequence: [l1] is [l2] with some of its
    elements left out. *)
Inductive Subseq {A : Type} : list A -> list A -> Prop :=
| Subseq_nil : Subseq [] []
| Subseq_skip (x : A) (l1 l2 : list A) : Subseq l1 l2 -> Subseq l1 (x :: l2)
| Subseq_keep (x : A) (l1 l2 : list A) : Subseq l1 l2 -> Subseq (x :: l1) (x :: l2).

(** A date [d] lies in the window from [lo] (when there is one) to [hi],
    both included, in the order of the calendar. *)
Definition in_window (lo : option date) (hi : date) (d : date) : bool :=
  match lo with
  | Some l => toordinal l <=? toordinal d
  | None => true
  end && (toordinal d <=? toordinal hi).

(** The expense has a date string that parses, to a date in the window. *)
Definition dated_in (lo : option date) (hi : date) (x : expense) : bool :=
  match DateUtils.parse_date (e_date x) with
  | Some dt => in_window lo hi (dt_date dt)
  | None => false
  end.

(** The date [d] is a day of the month of [c], not after [c]. *)
Definition month_to_date (c d : date) : bool :=
  (year d =? year c) && (month d =? month c) && (day d <=? day c).

(** The date [d] is a day of the month of [c]. *)
Definition same_month (c d : date) : bool :=
  (year d =? year c) && (month d =? month c).

(** The expense has a date string that parses, to a date that satisfies
    [p]. *)
Definition dated_by (p : date -> bool) (x : expense) : bool :=
  match DateUtils.parse_date (e_date x) with
  | Some dt => p (dt_date dt)
  | None => false
  end.

(** The expenses whose date string parses. *)
Definition valid_only (expenses : list expense) : list expense :=
  filter (fun x => DateUtils.is_valid_date (e_date x)) expenses.

(** The sum of the amounts of a list of expenses. *)
Definition total (expenses : list expense) : Q := py_sum (map e_amount expenses).

(** The date used when [current_date] is [None]. *)
Definition date_or_now (w : world) (current_date : option datetime) : datetime :=
  match current_date with
  | None => now w
  | Some c => c
  end.

(** The week of [t] ends within the range of the library.  It does not
    from Monday 9999-12-27 on: the Sunday of that week would be in the year
    10000. *)
Definition week_in_range (t : datetime) : Prop :=
  toordinal (dt_date t) - weekday (dt_date t) + 6 <= MAXORDINAL.

(** The month after the month of [t] is within the range of the library:
    [t] is not in December 9999. *)
Definition month_in_range (t : datetime) : Prop :=
  year (dt_date t) < MAXYEAR \/ month (dt_date t) < 12.

(** The world of the examples: the clock at 2025-10-15, no file. *)
Definition sample_world : world :=
  mkworld (mkdatetime (mkdate 2025 10 15) 0) "/" (fun _ => NoFile).

(** A world in which September 2025 has a file with two expenses. *)
Definition september_world : world :=
  mkworld (mkdatetime (mkdate 2025 10 15) 0) "/"
    (fun p => if String.eqb p "data_2025-09/expenses.json"
              then Json (JDict [("expenses"%string,
                                 JList [JDict [("amount"%string, JNum 600%float)];
                                        JDict [("amount"%string, JNum 400%float)]])])
              else NoFile).

(** The same files at another moment of the clock. *)
Definition september_world_later : world :=
  mkworld (mkdatetime (mkdate 2025 10 19) 0) (os_sep september_world) (fs september_world).

(** Midnight of a day. *)
Definition at_date (y m d : Z) : datetime := mkdatetime (mkdate y m d) 0.

(** The condition under which a turn of the loop of
    [_filter_expenses_by_date_range] appends the expense. *)
Definition kept (start_date end_date : option datetime) (current_date : datetime)
    (x : expense) : bool :=
  match DateUtils.parse_date (e_date x) with
  | None => false
  | Some dt =>
      negb (match start_date with
            | Some s => date_ltb (dt_date dt) (dt_date s)
            | None => false
            end)
      && negb (match end_date with
               | Some e => date_gtb (dt_date dt) (dt_date e)
               | None => date_gtb (dt_date dt) (dt_date current_date)
               end)
  end.

(** The upper end of the window: [end_date], or the current date. *)
Definition upper (e : option datetime) (c : datetime) : datetime :=
  match e with
  | Some e => e
  | None => c
  end.

(** The first day of the month of [t], at the time of [t]. *)
Definition first_of_month (t : datetime) : datetime :=
  mkdatetime (mkdate (year (dt_date t)) (month (dt_date t)) 1) (dt_micro t).

(** The Monday of the week of [d]: [d] moved back by its weekday. *)
Definition monday_of (d : date) : date := days_back (Z.to_nat (weekday d)) d.

(** Two results of an average have the same amount; nothing is asked when
    the first raises. *)
Definition same_amount (r1 r2 : result (Q * Z)) : Prop :=
  match r1, r2 with
  | Ok (a1, _), Ok (a2, _) => (a1 == a2)%Q
  | Raise _, _ => True
  | Ok _, Raise _ => False
  end.

(** The file [calculate_monthly_trend] reads for the previous month. *)
Definition previous_expenses_file (w : world) (prev_month_date : datetime) : string :=
  path_join w ("data_" ++ strftime_Ym prev_month_date) "expenses.json".



Import DescriptionHistory.

(** [a] may stand before [b] in the history: a greater count, or the same
    count and a last use that is not older. *)
Definition ranks_before (a b : entry) : Prop :=
  count b < count a \/
  (count a = count b /\ String.leb (last_used b) (last_used a) = true).

(** At most one entry for a description text, whatever its case. *)
Definition one_per_text (lower : string -> string) (l : list entry) : Prop :=
  NoDup (map (fun d => lower (text d)) l).

(** The state of the regrouping loop over [l] before the turn [i]. *)
Definition regroup_state_at (l : list entry) (i : nat) : regroup_state :=
  fold_left regroup_step (seq 0 i) (mkregroup l None 0%nat).

(** What holds of that state: the closed groups [p], in their final order
    and of greater counts; the open group [g], of the count [c]; the part
    of the list not yet seen. *)
Definition regroup_inv (l : list entry) (i : nat) (st : regroup_state) : Prop :=
  exists (p g : list entry) (c : Z),
    rg_descriptions st = p ++ g ++ skipn i l
    /\ List.length p = rg_group_start st
    /\ (List.length p + List.length g = i)%nat
    /\ rg_current_count st = Some c
    /\ Forall (fun a => count a = c) g
    /\ Forall (fun a => count a <= c) (skipn i l)
    /\ Permutation (p ++ g) (firstn i l)
    /\ StronglySorted ranks_before p
    /\ Forall (fun a => c < count a) p.

(** The object after a series of calls of [add_or_update], each at its own
    moment. *)
Definition replay (lower strip : string -> string)
    (calls : list (world * string * Q)) (h : history) : history :=
  fold_left (fun h c => add_or_update lower strip (fst (fst c)) h (snd (fst c)) (snd c))
            calls h.

(** A history of three entries with a configured limit. *)
Definition tea_history (limit : option Z) : history :=
  mkhistory "description_history.json"
    [mkentry "Tea" 2 "2025-10-01" 3; mkentry "ink" 2 "2025-10-05" 4;
     mkentry "pen" 1 "2025-09-01" 5]
    (fun _ _ => limit).

(** The first day of the month before the month of [d], and of the month
    after it. *)
Definition month_before (d : date) : date :=
  if 1 <? month d then mkdate (year d) (month d - 1) 1 else mkdate (year d - 1) 12 1.

Definition month_after (d : date) : date :=
  if month d <? 12 then mkdate (year d) (month d + 1) 1 else mkdate (year d + 1) 1 1.

(** The last day of the month of [d]. *)
Definition last_of_month (d : date) : date :=
  mkdate (year d) (month d) (days_in_month (year d) (month d)).

(** The Sunday of the week of [d]. *)
Definition sunday_of (d : date) : date := days_on 6 (monday_of d).

(** The month viewed begins at [v]: the month of the key
    (the first of the month at midnight), or without a key (none, or the
    empty string) the moment of the clock. *)
Definition viewed_month (w : world) (viewed_month_key : option string) (v : datetime)
    : Prop :=
  match viewed_month_key with
  | Some (String c k) => strptime_Ym (String c k) = Ok v
  | _ => v = now w
  end.

(** The last day of the month before the month of [v], at the time of
    day of [v]. *)
Definition end_of_previous_month (v : datetime) : datetime :=
  mkdatetime (last_of_month (month_before (dt_date v))) (dt_micro v).


End Spec.

Import Spec DescriptionHistory ExpenseAnalytics DateUtils.

(* ===================================================================== *)
(** * The calendar                                                      *)
(* ===================================================================== *)

Section CalendarFacts.

Lemma valid_date_fields (d : date) :
  valid_date d ->
  1 <= year d <= 9999 /\ 1 <= month d <= 12 /\
  1 <= day d <= days_in_month (year d) (month d).
Proof.
  unfold valid_date, valid_dateb, MINYEAR, MAXYEAR. intros H.
  repeat (apply andb_prop in H; destruct H as [H ?]). lia.
Qed.

Lemma valid_date_intro (d : date) :
  1 <= year d <= 9999 -> 1 <= month d <= 12 ->
  1 <= day d <= days_in_month (year d) (month d) ->
  valid_date d.
Proof.
  unfold valid_date, valid_dateb, MINYEAR, MAXYEAR. intros.
  repeat (apply andb_true_intro; split); lia.
Qed.

Lemma month_cases (m : Z) :
  1 <= m <= 12 ->
  m = 1 \/ m = 2 \/ m = 3 \/ m = 4 \/ m = 5 \/ m = 6 \/
  m = 7 \/ m = 8 \/ m = 9 \/ m = 10 \/ m = 11 \/ m = 12.
Proof. lia. Qed.

Lemma days_in_month_bounds (y m : Z) :
  1 <= m <= 12 -> 28 <= days_in_month y m <= 31.
Proof.
  intros H. unfold days_in_month.
  destruct (month_cases m H) as [E|[E|[E|[E|[E|[E|[E|[E|[E|[E|[E|E]]]]]]]]]]];
    subst m; simpl; destruct (is_leap y); simpl; lia.
Qed.

(** Within a year the months follow one another. *)
Lemma days_before_month_succ (y m : Z) :
  1 <= m < 12 ->
  days_before_month y (m + 1) = days_before_month y m + days_in_month y m.
Proof.
  intros H. unfold days_before_month, days_in_month.
  assert (C : m = 1 \/ m = 2 \/ m = 3 \/ m = 4 \/ m = 5 \/ m = 6 \/
              m = 7 \/ m = 8 \/ m = 9 \/ m = 10 \/ m = 11) by lia.
  destruct C as [E|[E|[E|[E|[E|[E|[E|[E|[E|[E|E]]]]]]]]]];
    subst m; simpl; destruct (is_leap y); simpl; lia.
Qed.

Lemma days_before_month_last (y : Z) :
  days_before_month y 12 + 31 = 365 + (if is_leap y then 1 else 0).
Proof. unfold days_before_month; simpl. destruct (is_leap y); lia. Qed.

(** The years follow one another. *)
Lemma days_before_year_succ (y : Z) :
  days_before_year (y + 1) =
  days_before_year y + 365 + (if is_leap y then 1 else 0).
Proof.
  unfold days_before_year, is_leap.
  replace (y + 1 - 1) with y by lia.
  destruct (y mod 4 =? 0) eqn:E4; destruct (y mod 100 =? 0) eqn:E100;
    destruct (y mod 400 =? 0) eqn:E400; simpl;
    rewrite ?Z.eqb_eq, ?Z.eqb_neq in *;
    Z.div_mod_to_equations; lia.
Qed.

Lemma days_before_year_grows (y : Z) (n : nat) :
  days_before_year y + 365 * Z.of_nat n <= days_before_year (y + Z.of_nat n)
  <= days_before_year y + 366 * Z.of_nat n.
Proof.
  induction n as [|n IH].
  - replace (y + Z.of_nat 0) with y by lia. lia.
  - replace (y + Z.of_nat (S n)) with (y + Z.of_nat n + 1) by lia.
    rewrite days_before_year_succ. destruct (is_leap (y + Z.of_nat n)); lia.
Qed.

Lemma days_before_year_mono (y1 y2 : Z) :
  y1 <= y2 -> days_before_year y1 <= days_before_year y2.
Proof.
  intros H. pose proof (days_before_year_grows y1 (Z.to_nat (y2 - y1))) as G.
  rewrite Z2Nat.id in G by lia.
  replace (y1 + (y2 - y1)) with y2 in G by lia. lia.
Qed.

Lemma month_end_before_next (y m1 m2 : Z) :
  1 <= m1 -> m1 < m2 -> m2 <= 12 ->
  days_before_month y m1 + days_in_month y m1 <= days_before_month y m2.
Proof.
  intros H1 H12 H2.
  assert (C1 : 1 <= m1 <= 12) by lia. assert (C2 : 1 <= m2 <= 12) by lia.
  unfold days_before_month, days_in_month.
  destruct (month_cases m1 C1) as [E|[E|[E|[E|[E|[E|[E|[E|[E|[E|[E|E]]]]]]]]]]];
  destruct (month_cases m2 C2) as [F|[F|[F|[F|[F|[F|[F|[F|[F|[F|[F|F]]]]]]]]]]];
    subst m1 m2; try lia; simpl; destruct (is_leap y); simpl; lia.
Qed.

Lemma month_end_in_year (y m : Z) :
  1 <= m <= 12 ->
  0 <= days_before_month y m /\
  days_before_month y m + days_in_month y m <= 365 + (if is_leap y then 1 else 0).
Proof.
  intros H. unfold days_before_month, days_in_month.
  destruct (month_cases m H) as [E|[E|[E|[E|[E|[E|[E|[E|[E|[E|[E|E]]]]]]]]]]];
    subst m; simpl; destruct (is_leap y); simpl; lia.
Qed.

(** A date lies in its year. *)
Lemma toordinal_in_year (d : date) :
  valid_date d ->
  days_before_year (year d) < toordinal d <= days_before_year (year d + 1).
Proof.
  intros V. destruct (valid_date_fields d V) as (Hy & Hm & Hd).
  unfold toordinal. rewrite days_before_year_succ.
  pose proof (month_end_in_year (year d) (month d) Hm). lia.
Qed.

Lemma toordinal_range (d : date) :
  valid_date d -> 1 <= toordinal d <= MAXORDINAL.
Proof.
  intros V. destruct (valid_date_fields d V) as (Hy & Hm & Hd).
  pose proof (toordinal_in_year d V) as I.
  pose proof (days_before_year_mono 1 (year d)) as L.
  pose proof (days_before_year_mono (year d + 1) 10000) as U.
  change (days_before_year 1) with 0 in L.
  change (days_before_year 10000) with 3652059 in U.
  unfold MAXORDINAL. lia.
Qed.

(** The comparison of dates is the comparison of their ordinals. *)
Lemma date_ltb_lt (a b : date) :
  valid_date a -> valid_date b ->
  date_ltb a b = true -> toordinal a < toordinal b.
Proof.
  intros Va Vb H.
  destruct (valid_date_fields a Va) as (Hya & Hma & Hda).
  destruct (valid_date_fields b Vb) as (Hyb & Hmb & Hdb).
  unfold date_ltb in H.
  apply orb_prop in H. destruct H as [H|H].
  - apply Z.ltb_lt in H.
    pose proof (toordinal_in_year a Va). pose proof (toordinal_in_year b Vb).
    pose proof (days_before_year_mono (year a + 1) (year b)). lia.
  - apply andb_prop in H. destruct H as [Hy H]. apply Z.eqb_eq in Hy.
    apply orb_prop in H. destruct H as [H|H].
    + apply Z.ltb_lt in H. unfold toordinal. rewrite Hy.
      pose proof (month_end_before_next (year b) (month a) (month b)).
      rewrite Hy in Hda. lia.
    + apply andb_prop in H. destruct H as [Hm H].
      apply Z.eqb_eq in Hm. apply Z.ltb_lt in H.
      unfold toordinal. rewrite Hy, Hm. lia.
Qed.

Lemma date_ltb_total (a b : date) :
  date_ltb a b = false -> date_ltb b a = true \/ a = b.
Proof.
  unfold date_ltb. destruct a as [ya ma da], b as [yb mb db]; simpl.
  intros H.
  destruct (Z.ltb_spec ya yb), (Z.eqb_spec ya yb), (Z.ltb_spec ma mb),
    (Z.eqb_spec ma mb), (Z.ltb_spec da db); simpl in H; try discriminate; try lia.
  all: destruct (Z.ltb_spec yb ya), (Z.eqb_spec yb ya), (Z.ltb_spec mb ma),
    (Z.eqb_spec mb ma), (Z.ltb_spec db da); simpl; try lia; auto.
  all: try (right; f_equal; lia).
Qed.

Lemma date_ltb_iff (a b : date) :
  valid_date a -> valid_date b ->
  date_ltb a b = true <-> toordinal a < toordinal b.
Proof.
  intros Va Vb. split; [apply date_ltb_lt; assumption|].
  intros H. destruct (date_ltb a b) eqn:E; [reflexivity|].
  destruct (date_ltb_total a b E) as [G| ->]; [|lia].
  apply date_ltb_lt in G; [lia|assumption|assumption].
Qed.

Lemma date_ltb_false_iff (a b : date) :
  valid_date a -> valid_date b ->
  date_ltb a b = false <-> toordinal b <= toordinal a.
Proof.
  intros Va Vb. split.
  - intros E. destruct (date_ltb_total a b E) as [G| ->]; [|lia].
    apply date_ltb_lt in G; [lia|assumption|assumption].
  - intros L. destruct (date_ltb a b) eqn:E; [|reflexivity].
    apply date_ltb_lt in E; [lia|assumption|assumption].
Qed.

(** The day before. *)
Lemma prev_day_spec (d : date) :
  valid_date d -> 1 < toordinal d ->
  valid_date (prev_day d) /\ toordinal (prev_day d) = toordinal d - 1.
Proof.
  intros V H. destruct (valid_date_fields d V) as (Hy & Hm & Hd).
  unfold prev_day.
  destruct (Z.ltb_spec 1 (day d)) as [D|D].
  - split; [apply valid_date_intro; simpl; lia | unfold toordinal; simpl; lia].
  - destruct (Z.ltb_spec 1 (month d)) as [M|M].
    + pose proof (days_in_month_bounds (year d) (month d - 1)).
      split; [apply valid_date_intro; simpl; lia|].
      unfold toordinal; simpl.
      pose proof (days_before_month_succ (year d) (month d - 1)) as S.
      replace (month d - 1 + 1) with (month d) in S by lia. lia.
    + assert (Em : month d = 1) by lia. assert (Ed : day d = 1) by lia.
      assert (Y : 1 < year d).
      { destruct (Z.eq_dec (year d) 1) as [E|E]; [|lia].
        unfold toordinal in H. rewrite E, Em, Ed in H. simpl in H. lia. }
      split; [apply valid_date_intro; simpl; try lia; unfold days_in_month; simpl; lia|].
      unfold toordinal; simpl. rewrite Em, Ed.
      pose proof (days_before_year_succ (year d - 1)) as S.
      replace (year d - 1 + 1) with (year d) in S by lia.
      pose proof (days_before_month_last (year d - 1)).
      change (days_before_month (year d) 1) with (0 + (if (2 <? 1) && is_leap (year d) then 1 else 0)).
      simpl. lia.
Qed.

Lemma days_back_spec (n : nat) (d : date) :
  valid_date d -> 1 <= toordinal d - Z.of_nat n ->
  valid_date (days_back n d) /\
  toordinal (days_back n d) = toordinal d - Z.of_nat n.
Proof.
  revert d. induction n as [|n IH]; intros d V H.
  - simpl. split; [assumption|lia].
  - simpl days_back.
    destruct (prev_day_spec d V) as [V' E]; [lia|].
    destruct (IH (prev_day d) V') as [V'' E']; [lia|].
    split; [assumption|lia].
Qed.

Lemma sub_days_spec (t : datetime) (n : Z) :
  valid_datetime t -> 0 <= n -> 1 <= toordinal (dt_date t) - n ->
  exists t', sub_days t n = Ok t' /\ valid_datetime t' /\
             dt_micro t' = dt_micro t /\
             toordinal (dt_date t') = toordinal (dt_date t) - n.
Proof.
  intros [V M] Hn H. unfold sub_days.
  pose proof (toordinal_range _ V) as R.
  assert (C : (0 <? toordinal (dt_date t) - n) && (toordinal (dt_date t) - n <=? MAXORDINAL) = true).
  { apply andb_true_intro; split; [apply Z.ltb_lt|apply Z.leb_le]; lia. }
  rewrite C. eexists; split; [reflexivity|].
  destruct (days_back_spec (Z.to_nat n) (dt_date t) V) as [V' E]; [lia|].
  simpl. repeat split; try assumption; try apply M. lia.
Qed.

Lemma weekday_range (d : date) : 0 <= weekday d <= 6.
Proof. unfold weekday. pose proof (Z.mod_pos_bound (toordinal d + 6) 7). lia. Qed.

(** 0001-01-01 is a Monday: the Monday of a week is never out of range. *)
Lemma weekday_le_ordinal (d : date) :
  valid_date d -> 1 <= toordinal d - weekday d.
Proof.
  intros V. pose proof (toordinal_range d V). unfold weekday.
  Z.div_mod_to_equations. lia.
Qed.

Lemma weekday_of_ordinal (a b : date) :
  toordinal a = toordinal b - weekday b -> weekday a = 0.
Proof. unfold weekday. intros ->. Z.div_mod_to_equations. lia. Qed.

Lemma diff_days_same_time (a b : datetime) :
  dt_micro a = dt_micro b ->
  diff_days a b = toordinal (dt_date a) - toordinal (dt_date b).
Proof.
  intros E. unfold diff_days, DAY_MICROS. rewrite E, Z.sub_diag, Z.add_0_r.
  apply Z.div_mul. lia.
Qed.

Lemma replace_day_1 (t : datetime) :
  valid_datetime t ->
  replace t None None (Some 1) =
  Ok (mkdatetime (mkdate (year (dt_date t)) (month (dt_date t)) 1) (dt_micro t)).
Proof.
  intros [V M]. destruct (valid_date_fields _ V) as (Hy & Hm & Hd).
  unfold replace.
  assert (E : valid_dateb (mkdate (year (dt_date t)) (month (dt_date t)) 1) = true).
  { apply valid_date_intro; simpl; lia. }
  rewrite E. reflexivity.
Qed.

End CalendarFacts.

(* ===================================================================== *)
(** * The filters                                                       *)
(* ===================================================================== *)

Section FilterFacts.

Lemma parse_date_valid (s : string) (dt : datetime) :
  parse_date s = Some dt -> valid_datetime dt.
Proof.
  unfold parse_date, strptime_Ymd, strptime_build.
  destruct (rx_Y _ _) as [[d [|c r]]|]; try discriminate.
  destruct (valid_dateb d) eqn:V; try discriminate.
  intros E. injection E as <-. split; [exact V|]. simpl. unfold DAY_MICROS. lia.
Qed.

Lemma range_step_kept s e c (filtered : list expense) (x : expense) :
  range_step s e c filtered x = if kept s e c x then filtered ++ [x] else filtered.
Proof.
  unfold range_step, kept. destruct (parse_date (e_date x)); [|reflexivity].
  destruct (match s with Some _ => _ | None => _ end); simpl; [reflexivity|].
  destruct (match e with Some _ => _ | None => _ end); reflexivity.
Qed.

Lemma range_loop_filter s e c (l acc : list expense) :
  fold_left (range_step s e c) l acc = acc ++ filter (kept s e c) l.
Proof.
  revert acc. induction l as [|x l IH]; intros acc; simpl.
  - now rewrite app_nil_r.
  - rewrite IH, range_step_kept. destruct (kept s e c x); [|reflexivity].
    now rewrite <- app_assoc.
Qed.

Lemma range_is_filter w l s e c :
  _filter_expenses_by_date_range w l s e c = filter (kept s e (date_or_now w c)) l.
Proof.
  unfold _filter_expenses_by_date_range. rewrite range_loop_filter. reflexivity.
Qed.

Lemma kept_valid s e c x : kept s e c x = true -> is_valid_date (e_date x) = true.
Proof.
  unfold kept, is_valid_date. destruct (parse_date (e_date x)); [reflexivity|discriminate].
Qed.

Lemma kept_dated_in s e c x :
  (forall t, s = Some t -> valid_datetime t) ->
  valid_datetime (upper e c) ->
  kept s e c x = dated_in (option_map dt_date s) (dt_date (upper e c)) x.
Proof.
  intros Vs Vu. unfold kept, dated_in, in_window.
  destruct (parse_date (e_date x)) as [dt|] eqn:P; [|reflexivity].
  destruct (parse_date_valid _ _ P) as [Vd _].
  f_equal.
  - destruct s as [t|]; [|reflexivity]. simpl.
    destruct (Vs t eq_refl) as [Vt _].
    destruct (date_ltb (dt_date dt) (dt_date t)) eqn:E; simpl; symmetry.
    + apply date_ltb_iff in E; [|assumption|assumption]. apply Z.leb_gt. exact E.
    + apply date_ltb_false_iff in E; [|assumption|assumption]. apply Z.leb_le. exact E.
  - destruct Vu as [Vu _]. unfold date_gtb.
    assert (G : negb (date_ltb (dt_date (upper e c)) (dt_date dt))
                = (toordinal (dt_date dt) <=? toordinal (dt_date (upper e c)))).
    { destruct (date_ltb (dt_date (upper e c)) (dt_date dt)) eqn:E; simpl; symmetry.
      + apply date_ltb_iff in E; [|assumption|assumption]. apply Z.leb_gt. exact E.
      + apply date_ltb_false_iff in E; [|assumption|assumption]. apply Z.leb_le. exact E. }
    destruct e; exact G.
Qed.

Lemma filter_Subseq {A : Type} (f : A -> bool) (l : list A) : Subseq (filter f l) l.
Proof.
  induction l as [|x l IH]; simpl; [constructor|].
  destruct (f x); constructor; exact IH.
Qed.

Lemma filter_filter_implied {A : Type} (f g : A -> bool) (l : list A) :
  (forall x, f x = true -> g x = true) ->
  filter f (filter g l) = filter f l.
Proof.
  intros H. induction l as [|x l IH]; simpl; [reflexivity|].
  destruct (g x) eqn:G; simpl.
  - now rewrite IH.
  - destruct (f x) eqn:F; [|exact IH]. apply H in F. congruence.
Qed.

End FilterFacts.

Section WindowFacts.

Lemma first_of_month_valid (t : datetime) :
  valid_datetime t -> valid_datetime (first_of_month t).
Proof.
  intros [V M]. destruct (valid_date_fields _ V) as (Hy & Hm & Hd).
  split; [|exact M]. apply valid_date_intro; simpl; lia.
Qed.

(** The month filter returns, except in December 9999. *)
Lemma month_filter_returns w l (t : datetime) (exclude_future : bool) :
  valid_datetime t -> month_in_range t ->
  exists month_end,
    _filter_expenses_by_month w l t exclude_future =
    Ok (_filter_expenses_by_date_range w l (Some (first_of_month t))
          (Some (if exclude_future then t else month_end)) (Some t)).
Proof.
  intros V R. pose proof V as [Vd M].
  destruct (valid_date_fields _ Vd) as (Hy & Hm & Hd).
  unfold _filter_expenses_by_month. rewrite (replace_day_1 t V). simpl bind.
  fold (first_of_month t).
  destruct (Z.eqb_spec (month (dt_date t)) 12) as [E|E].
  - assert (Y : year (dt_date t) < 9999) by (destruct R as [R|R]; unfold MAXYEAR in *; lia).
    unfold replace.
    assert (V1 : valid_date (mkdate (year (dt_date t) + 1) 1 1)).
    { apply valid_date_intro; simpl; try lia. unfold days_in_month; simpl; lia. }
    unfold valid_date in V1. rewrite V1. simpl bind.
    destruct (sub_days_spec (mkdatetime (mkdate (year (dt_date t) + 1) 1 1) (dt_micro t)) 1)
      as (me & Eme & _); [split; assumption|lia| |].
    + cbn [dt_date].
      pose proof (toordinal_in_year (mkdate (year (dt_date t) + 1) 1 1) V1) as I.
      cbn [year] in I. pose proof (days_before_year_mono 1 (year (dt_date t))).
      pose proof (days_before_year_succ (year (dt_date t))).
      change (days_before_year 1) with 0 in *.
      destruct (is_leap (year (dt_date t))); lia.
    + rewrite Eme. simpl bind. exists me. reflexivity.
  - unfold replace.
    assert (V1 : valid_date (mkdate (year (dt_date t)) (month (dt_date t) + 1) 1)).
    { apply valid_date_intro; simpl; try lia.
      pose proof (days_in_month_bounds (year (dt_date t)) (month (dt_date t) + 1)). lia. }
    unfold valid_date in V1. rewrite V1. simpl bind.
    destruct (sub_days_spec (mkdatetime (mkdate (year (dt_date t)) (month (dt_date t) + 1) 1) (dt_micro t)) 1)
      as (me & Eme & _); [split; assumption|lia| |].
    + cbn [dt_date]. unfold toordinal. cbn [year month day].
      pose proof (days_before_year_mono 1 (year (dt_date t))).
      change (days_before_year 1) with 0 in *.
      pose proof (month_end_before_next (year (dt_date t)) (month (dt_date t)) (month (dt_date t) + 1)).
      pose proof (month_end_in_year (year (dt_date t)) (month (dt_date t))).
      pose proof (days_in_month_bounds (year (dt_date t)) (month (dt_date t))). lia.
    + rewrite Eme. simpl bind. exists me. reflexivity.
Qed.

(** The Monday of the week of [t]. *)
Lemma monday_exists (t : datetime) :
  valid_datetime t ->
  exists week_start,
    sub_days t (weekday (dt_date t)) = Ok week_start /\
    valid_datetime week_start /\
    dt_micro week_start = dt_micro t /\
    toordinal (dt_date week_start) = toordinal (dt_date t) - weekday (dt_date t) /\
    weekday (dt_date week_start) = 0.
Proof.
  intros V. pose proof V as [Vd _].
  pose proof (weekday_range (dt_date t)).
  destruct (sub_days_spec t (weekday (dt_date t)) V) as (ws & E & Vw & Mw & Ow);
    [lia|apply weekday_le_ordinal; exact Vd|].
  exists ws. repeat split; try assumption; try apply Vw.
  eapply weekday_of_ordinal. exact Ow.
Qed.

(** The week filter returns, except in the last week of 9999. *)
Lemma week_filter_returns w l (t : datetime) (exclude_future : bool) :
  valid_datetime t -> week_in_range t ->
  exists week_start week_end,
    sub_days t (weekday (dt_date t)) = Ok week_start /\
    _filter_expenses_by_week w l t exclude_future =
    Ok (_filter_expenses_by_date_range w l (Some week_start)
          (Some (if exclude_future then t else week_end)) (Some t)).
Proof.
  intros V R. destruct (monday_exists t V) as (ws & E & Vw & Mw & Ow & _).
  unfold _filter_expenses_by_week. rewrite E. simpl bind.
  unfold add_days. unfold week_in_range in R.
  pose proof (toordinal_range _ (proj1 Vw)).
  assert (C : (0 <? toordinal (dt_date ws) + 6) && (toordinal (dt_date ws) + 6 <=? MAXORDINAL) = true).
  { apply andb_true_intro; split; [apply Z.ltb_lt|apply Z.leb_le]; lia. }
  rewrite C. simpl bind. eexists ws, _. split; reflexivity.
Qed.

(** From the first of the month to the date: the days of the month that
    are not after the date. *)
Lemma kept_month_to_date (t : datetime) (x : expense) :
  kept (Some (first_of_month t)) (Some t) t x = dated_by (month_to_date (dt_date t)) x.
Proof.
  unfold kept, dated_by. destruct (parse_date (e_date x)) as [dt|] eqn:P; [|reflexivity].
  destruct (parse_date_valid _ _ P) as [Vd _].
  destruct (valid_date_fields _ Vd) as (_ & _ & Hd).
  unfold date_gtb, date_ltb, month_to_date, first_of_month. simpl.
  destruct (dt_date dt) as [y m d], (dt_date t) as [cy cm cd]. simpl in *.
  destruct (Z.ltb_spec y cy), (Z.eqb_spec y cy), (Z.ltb_spec m cm), (Z.eqb_spec m cm),
    (Z.ltb_spec d 1), (Z.ltb_spec cy y), (Z.eqb_spec cy y), (Z.ltb_spec cm m),
    (Z.eqb_spec cm m), (Z.ltb_spec cd d), (Z.leb_spec d cd); simpl; try reflexivity; lia.
Qed.

End WindowFacts.

Lemma dated_in_spec lo hi x :
  dated_in lo hi x = true <->
  exists dt, parse_date (e_date x) = Some dt /\
             match lo with
             | Some l => toordinal l <= toordinal (dt_date dt)
             | None => True
             end /\
             toordinal (dt_date dt) <= toordinal hi.
Proof.
  unfold dated_in, in_window. destruct (parse_date (e_date x)) as [dt|].
  - rewrite andb_true_iff, Z.leb_le. split.
    + intros [A B]. exists dt. repeat split; [|exact B].
      destruct lo; [apply Z.leb_le; exact A|exact I].
    + intros (dt' & E & A & B). injection E as <-. split; [|exact B].
      destruct lo; [apply Z.leb_le; exact A|reflexivity].
  - split; [discriminate|]. intros (dt & E & _). discriminate.
Qed.

(** C2. [_filter_expenses_by_date_range] with both bounds given keeps
    exactly the expenses whose date string parses to a date [d] with
    [start_date <= d <= end_date]; with no [end_date] the upper bound is
    [current_date] (the clock's date when that is absent too). *)
Theorem C2_date_range_keeps_window (w : world) (expenses : list expense)
    (start_date end_date : datetime) (current_date : option datetime) :
  valid_datetime start_date -> valid_datetime end_date ->
  valid_datetime (date_or_now w current_date) ->
  let lo := Some (dt_date start_date) in
  let hi := dt_date end_date in
  let today := dt_date (date_or_now w current_date) in
  _filter_expenses_by_date_range w expenses (Some start_date) (Some end_date) current_date
    = filter (dated_in lo hi) expenses
  /\ (forall x,
        In x (_filter_expenses_by_date_range w expenses
                (Some start_date) (Some end_date) current_date) <->
        In x expenses /\
        exists dt, parse_date (e_date x) = Some dt /\
                   toordinal (dt_date start_date) <= toordinal (dt_date dt)
                   /\ toordinal (dt_date dt) <= toordinal (dt_date end_date))
  /\ _filter_expenses_by_date_range w expenses (Some start_date) None current_date
       = filter (dated_in lo today) expenses
  /\ _filter_expenses_by_date_range w expenses None None current_date
       = filter (dated_in None today) expenses.
Proof.
  intros Vs Ve Vc lo hi today.
  assert (A : _filter_expenses_by_date_range w expenses (Some start_date) (Some end_date) current_date
              = filter (dated_in lo hi) expenses).
  { rewrite range_is_filter. apply filter_ext. intros x.
    apply (kept_dated_in (Some start_date) (Some end_date)); [|exact Ve].
    intros t E. injection E as <-. exact Vs. }
  split; [exact A|]. split.
  - intros x. rewrite A, filter_In, dated_in_spec. reflexivity.
  - split; rewrite range_is_filter; apply filter_ext; intros x.
    + apply (kept_dated_in (Some start_date) None); [|exact Vc].
      intros t E. injection E as <-. exact Vs.
    + apply (kept_dated_in None None); [|exact Vc]. discriminate.
Qed.

Lemma C2_witness :
  _filter_expenses_by_date_range sample_world
    [mkexpense "2025-10-13" 10 "tea"; mkexpense "2025-10-20" 20 "ink";
     mkexpense "13/10/2025" 7 "pen"; mkexpense "2025-10-01" 5 "nib"]
    (Some (mkdatetime (mkdate 2025 10 1) 0)) (Some (mkdatetime (mkdate 2025 10 15) 0)) None
  = [mkexpense "2025-10-13" 10 "tea"; mkexpense "2025-10-01" 5 "nib"].
Proof.
  assert (V1 : valid_datetime (mkdatetime (mkdate 2025 10 1) 0))
    by (split; [reflexivity | unfold DAY_MICROS; simpl; lia]).
  assert (V2 : valid_datetime (mkdatetime (mkdate 2025 10 15) 0))
    by (split; [reflexivity | unfold DAY_MICROS; simpl; lia]).
  rewrite (proj1 (C2_date_range_keeps_window sample_world _ _ _ None V1 V2 V2)).
  reflexivity.
Defined.

(** C3, first half: what a filter keeps has a date string that parses. *)
Lemma kept_only_valid (w : world) (l : list expense) s e c (x : expense) :
  In x (_filter_expenses_by_date_range w l s e c) -> is_valid_date (e_date x) = true.
Proof.
  rewrite range_is_filter, filter_In. intros [_ K]. eapply kept_valid. exact K.
Qed.

Lemma range_valid_only (w : world) (l : list expense) s e c :
  _filter_expenses_by_date_range w (valid_only l) s e c
  = _filter_expenses_by_date_range w l s e c.
Proof.
  rewrite !range_is_filter. unfold valid_only.
  apply filter_filter_implied. intros x. apply kept_valid.
Qed.

Lemma month_filter_inv (w : world) (l : list expense) t ef r :
  _filter_expenses_by_month w l t ef = Ok r ->
  exists s e, r = _filter_expenses_by_date_range w l (Some s)
                    (Some (if ef then t else e)) (Some t)
              /\ forall l', _filter_expenses_by_month w l' t ef
                            = Ok (_filter_expenses_by_date_range w l' (Some s)
                                    (Some (if ef then t else e)) (Some t)).
Proof.
  unfold _filter_expenses_by_month.
  destruct (replace t None None (Some 1)) as [ms|]; simpl bind; [|discriminate].
  destruct (if month (dt_date t) =? 12 then _ else _) as [me|]; simpl bind; [|discriminate].
  intros E. injection E as <-. eexists _, _. split; reflexivity.
Qed.

Lemma month_filter_raises (w : world) (l l' : list expense) t ef e :
  _filter_expenses_by_month w l t ef = Raise e ->
  _filter_expenses_by_month w l' t ef = Raise e.
Proof.
  unfold _filter_expenses_by_month.
  destruct (replace t None None (Some 1)) as [ms|]; simpl bind; [|exact (fun H => H)].
  destruct (if month (dt_date t) =? 12 then _ else _) as [me|]; simpl bind;
    [discriminate|exact (fun H => H)].
Qed.

Lemma week_filter_inv (w : world) (l : list expense) t ef r :
  _filter_expenses_by_week w l t ef = Ok r ->
  exists s e, r = _filter_expenses_by_date_range w l (Some s)
                    (Some (if ef then t else e)) (Some t)
              /\ sub_days t (weekday (dt_date t)) = Ok s
              /\ forall l', _filter_expenses_by_week w l' t ef
                            = Ok (_filter_expenses_by_date_range w l' (Some s)
                                    (Some (if ef then t else e)) (Some t)).
Proof.
  unfold _filter_expenses_by_week.
  destruct (sub_days t (weekday (dt_date t))) as [ws|]; simpl bind; [|discriminate].
  destruct (add_days ws 6) as [we|]; simpl bind; [|discriminate].
  intros E. injection E as <-. eexists _, _. repeat split; reflexivity.
Qed.

Lemma week_filter_raises (w : world) (l l' : list expense) t ef e :
  _filter_expenses_by_week w l t ef = Raise e ->
  _filter_expenses_by_week w l' t ef = Raise e.
Proof.
  unfold _filter_expenses_by_week.
  destruct (sub_days t (weekday (dt_date t))) as [ws|]; simpl bind; [|exact (fun H => H)].
  destruct (add_days ws 6) as [we|]; simpl bind; [discriminate|exact (fun H => H)].
Qed.

Lemma month_valid_only (w : world) (l : list expense) t ef :
  _filter_expenses_by_month w (valid_only l) t ef = _filter_expenses_by_month w l t ef.
Proof.
  destruct (_filter_expenses_by_month w l t ef) as [r|e] eqn:E.
  - destruct (month_filter_inv _ _ _ _ _ E) as (s & e' & -> & H).
    rewrite H. f_equal. apply range_valid_only.
  - eapply month_filter_raises. exact E.
Qed.

Lemma week_valid_only (w : world) (l : list expense) t ef :
  _filter_expenses_by_week w (valid_only l) t ef = _filter_expenses_by_week w l t ef.
Proof.
  destruct (_filter_expenses_by_week w l t ef) as [r|e] eqn:E.
  - destruct (week_filter_inv _ _ _ _ _ E) as (s & e' & -> & _ & H).
    rewrite H. f_equal. apply range_valid_only.
  - eapply week_filter_raises. exact E.
Qed.

Lemma past_valid_only (w : world) (l : list expense) c :
  _filter_past_expenses w (valid_only l) c = _filter_past_expenses w l c.
Proof. unfold _filter_past_expenses. apply range_valid_only. Qed.

Lemma Qdiv_0_l (q : Q) : (0 / q == 0)%Q.
Proof. unfold Qdiv. apply Qmult_0_l. Qed.

Lemma valid_only_nil_range (w : world) (l : list expense) s e c :
  valid_only l = [] -> _filter_expenses_by_date_range w l s e c = [].
Proof. intros E. rewrite <- range_valid_only, E. reflexivity. Qed.

Lemma daily_average_valid_only (w : world) (l : list expense) c :
  same_amount (calculate_daily_average w l c) (calculate_daily_average w (valid_only l) c).
Proof.
  destruct l as [|x l]; [simpl; reflexivity|].
  destruct (valid_only (x :: l)) as [|y l'] eqn:E.
  - unfold calculate_daily_average at 1.
    destruct (_filter_expenses_by_month w (x :: l) (date_or_now w c) true) as [r|e] eqn:F;
      unfold date_or_now in F; rewrite F; simpl bind; [|exact I].
    destruct (month_filter_inv _ _ _ _ _ F) as (s & e' & -> & _).
    rewrite valid_only_nil_range by exact E. simpl.
    destruct (0 <? _); [apply Qdiv_0_l|reflexivity].
  - unfold calculate_daily_average. rewrite <- E, month_valid_only.
    destruct (_filter_expenses_by_month w (x :: l) _ true); simpl; [reflexivity|exact I].
Qed.

Lemma weekly_average_valid_only (w : world) (l : list expense) c :
  same_amount (calculate_weekly_average w l c) (calculate_weekly_average w (valid_only l) c).
Proof.
  destruct l as [|x l]; [simpl; reflexivity|].
  destruct (valid_only (x :: l)) as [|y l'] eqn:E.
  - unfold calculate_weekly_average at 1.
    destruct (_filter_expenses_by_month w (x :: l) (date_or_now w c) true) as [r|e] eqn:F;
      unfold date_or_now in F; rewrite F; simpl bind; [|exact I].
    destruct (month_filter_inv _ _ _ _ _ F) as (s & e' & -> & _).
    rewrite valid_only_nil_range by exact E. simpl.
    destruct (0 <? _); [apply Qdiv_0_l|reflexivity].
  - unfold calculate_weekly_average. rewrite <- E, month_valid_only.
    destruct (_filter_expenses_by_month w (x :: l) _ true); simpl; [reflexivity|exact I].
Qed.

Lemma weekly_pace_valid_only (w : world) (l : list expense) c :
  same_amount (calculate_weekly_pace w l c) (calculate_weekly_pace w (valid_only l) c).
Proof.
  destruct l as [|x l]; [simpl; reflexivity|].
  destruct (valid_only (x :: l)) as [|y l'] eqn:E.
  - unfold calculate_weekly_pace at 1.
    destruct (_filter_expenses_by_week w (x :: l) (date_or_now w c) true) as [r|e] eqn:F;
      unfold date_or_now in F; rewrite F; simpl bind; [|exact I].
    destruct (week_filter_inv _ _ _ _ _ F) as (s & e' & -> & S & _).
    unfold date_or_now in S. rewrite S. simpl bind.
    rewrite valid_only_nil_range by exact E. simpl.
    destruct (0 <? _); [apply Qdiv_0_l|reflexivity].
  - unfold calculate_weekly_pace. rewrite <- E, week_valid_only.
    destruct (_filter_expenses_by_week w (x :: l) _ true); simpl bind; [|exact I].
    destruct (sub_days _ _); simpl; [reflexivity|exact I].
Qed.

(** C3. An expense whose date string does not parse is in the result of no
    filter, and no result changes when the expenses whose date string does
    not parse are taken out of the list: the results of the filters, the
    median and the largest expense are the same, and so is the amount of
    each average. *)
Theorem C3_invalid_dates_skipped (w : world) (expenses : list expense)
    (start_date end_date current_date : option datetime)
    (t : datetime) (exclude_future : bool) :
  (forall x, parse_date (e_date x) = None ->
     ~ In x (_filter_expenses_by_date_range w expenses start_date end_date current_date)
     /\ ~ In x (_filter_past_expenses w expenses current_date)
     /\ (forall l, _filter_expenses_by_month w expenses t exclude_future = Ok l -> ~ In x l)
     /\ (forall l, _filter_expenses_by_week w expenses t exclude_future = Ok l -> ~ In x l))
  /\ _filter_expenses_by_date_range w (valid_only expenses) start_date end_date current_date
     = _filter_expenses_by_date_range w expenses start_date end_date current_date
  /\ _filter_past_expenses w (valid_only expenses) current_date
     = _filter_past_expenses w expenses current_date
  /\ _filter_expenses_by_month w (valid_only expenses) t exclude_future
     = _filter_expenses_by_month w expenses t exclude_future
  /\ _filter_expenses_by_week w (valid_only expenses) t exclude_future
     = _filter_expenses_by_week w expenses t exclude_future
  /\ calculate_median_expense w (valid_only expenses) current_date
     = calculate_median_expense w expenses current_date
  /\ calculate_largest_expense w (valid_only expenses) current_date
     = calculate_largest_expense w expenses current_date
  /\ same_amount (calculate_daily_average w expenses current_date)
                 (calculate_daily_average w (valid_only expenses) current_date)
  /\ same_amount (calculate_weekly_average w expenses current_date)
                 (calculate_weekly_average w (valid_only expenses) current_date)
  /\ same_amount (calculate_weekly_pace w expenses current_date)
                 (calculate_weekly_pace w (valid_only expenses) current_date).
Proof.
  split.
  { intros x P.
    assert (N : forall s e c, ~ In x (_filter_expenses_by_date_range w expenses s e c)).
    { intros s e c H. apply kept_only_valid in H.
      unfold is_valid_date in H. rewrite P in H. discriminate. }
    split; [apply N|]. split; [apply N|]. split; intros l E.
    - destruct (month_filter_inv _ _ _ _ _ E) as (s & e & -> & _). apply N.
    - destruct (week_filter_inv _ _ _ _ _ E) as (s & e & -> & _). apply N. }
  split; [apply range_valid_only|]. split; [apply past_valid_only|].
  split; [apply month_valid_only|]. split; [apply week_valid_only|].
  split; [unfold calculate_median_expense; now rewrite past_valid_only|].
  split; [unfold calculate_largest_expense; now rewrite past_valid_only|].
  split; [apply daily_average_valid_only|].
  split; [apply weekly_average_valid_only|apply weekly_pace_valid_only].
Qed.

(* ===================================================================== *)
(** * Pace and averages                                                 *)
(* ===================================================================== *)

Lemma at_date_valid (y m d : Z) :
  valid_dateb (mkdate y m d) = true -> valid_datetime (at_date y m d).
Proof. intros V. split; [exact V|]. unfold DAY_MICROS; simpl; lia. Qed.

(** C4, as the code has it.  For a list that is not empty and a date whose
    week ends in the range of the library, [calculate_weekly_pace] returns
    [(pace, days)]: [days] counts the days from the Monday of the week of
    the date through the date, and [pace] is the sum of the amounts of the
    expenses with a valid date from that Monday through the date, divided
    by [days]. *)
Theorem C4_weekly_pace (w : world) (expenses : list expense)
    (current_date : option datetime) :
  expenses <> [] ->
  valid_datetime (date_or_now w current_date) ->
  week_in_range (date_or_now w current_date) ->
  let today := dt_date (date_or_now w current_date) in
  let monday := monday_of today in
  let days := toordinal today - toordinal monday + 1 in
  valid_date monday /\ weekday monday = 0 /\ 1 <= days <= 7 /\
  calculate_weekly_pace w expenses current_date =
  Ok ((total (filter (dated_in (Some monday) today) expenses) / inject_Z days)%Q, days).
Proof.
  intros NE V R today monday days.
  destruct (week_filter_returns w expenses _ true V R) as (ws & we & S & F).
  destruct (monday_exists _ V) as (ws' & S' & Vw & Mw & Ow & Wd).
  rewrite S in S'. injection S' as <-.
  pose proof (weekday_range (dt_date (date_or_now w current_date))) as WR.
  assert (M : dt_date ws = monday).
  { unfold sub_days in S. destruct (_ && _) in S; [|discriminate].
    injection S as <-. reflexivity. }
  pose proof (proj1 Vw) as Vm.
  rewrite M in *. fold today in Ow, WR.
  split; [exact Vm|]. split; [exact Wd|]. split; [unfold days; lia|].
  unfold calculate_weekly_pace. destruct expenses as [|x l]; [congruence|].
  fold (date_or_now w current_date). rewrite F, S. simpl bind.
  rewrite diff_days_same_time by (symmetry; exact Mw). rewrite M. fold today days.
  assert (P : (0 <? days) = true) by (apply Z.ltb_lt; unfold days; lia).
  rewrite P.
  assert (E : _filter_expenses_by_date_range w (x :: l) (Some ws)
                (Some (date_or_now w current_date)) (Some (date_or_now w current_date))
              = filter (dated_in (Some monday) today) (x :: l)).
  { rewrite range_is_filter. apply filter_ext. intros y. rewrite <- M.
    apply (kept_dated_in (Some ws) (Some (date_or_now w current_date))); [|exact V].
    intros t E. injection E as <-. exact Vw. }
  rewrite E. reflexivity.
Qed.

Lemma C4_witness :
  calculate_weekly_pace sample_world
    [mkexpense "2025-10-13" 10 "tea"; mkexpense "2025-10-15" 20 "ink";
     mkexpense "2025-10-12" 7 "pen"; mkexpense "2025-10-16" 5 "nib"]
    (Some (at_date 2025 10 15))
  = Ok ((30 / 3)%Q, 3).
Proof.
  destruct (C4_weekly_pace sample_world
              [mkexpense "2025-10-13" 10 "tea"; mkexpense "2025-10-15" 20 "ink";
               mkexpense "2025-10-12" 7 "pen"; mkexpense "2025-10-16" 5 "nib"]
              (Some (at_date 2025 10 15)))
    as (_ & _ & _ & E).
  - discriminate.
  - apply at_date_valid. reflexivity.
  - unfold week_in_range, MAXORDINAL. vm_compute. discriminate.
  - rewrite E. reflexivity.
Defined.

(** C4 as stated fails on the empty list: the result is [(0, 0)], and the
    days from Monday 2025-10-13 through Wednesday 2025-10-15 are 3. *)
Lemma C4_counterexample :
  calculate_weekly_pace sample_world [] (Some (at_date 2025 10 15)) = Ok (0%Q, 0)
  /\ weekday (mkdate 2025 10 13) = 0
  /\ toordinal (mkdate 2025 10 15) - toordinal (mkdate 2025 10 13) + 1 = 3.
Proof. repeat split. Qed.

(** C7, as the code has it.  For a list that is not empty and a date
    before December 9999, the total that [calculate_daily_average] and
    [calculate_weekly_average] divide is the sum of the amounts of the
    expenses with a valid date in the month of the date and not after the
    date. *)
Theorem C7_month_to_date_averages (w : world) (expenses : list expense)
    (current_date : option datetime) :
  expenses <> [] ->
  valid_datetime (date_or_now w current_date) ->
  month_in_range (date_or_now w current_date) ->
  let today := dt_date (date_or_now w current_date) in
  let T := total (filter (dated_by (month_to_date today)) expenses) in
  let weeks := (day today - 1) / 7 + 1 in
  calculate_daily_average w expenses current_date
    = Ok ((T / inject_Z (day today))%Q, day today)
  /\ calculate_weekly_average w expenses current_date
    = Ok ((T / inject_Z weeks)%Q, weeks).
Proof.
  intros NE V R today T weeks.
  destruct (month_filter_returns w expenses _ true V R) as (me & F).
  destruct (valid_date_fields _ (proj1 V)) as (_ & _ & Hd). fold today in Hd.
  assert (E : _filter_expenses_by_date_range w expenses
                (Some (first_of_month (date_or_now w current_date)))
                (Some (date_or_now w current_date)) (Some (date_or_now w current_date))
              = filter (dated_by (month_to_date today)) expenses).
  { rewrite range_is_filter. apply filter_ext. intros y. apply kept_month_to_date. }
  rewrite E in F.
  assert (P1 : (0 <? day today) = true) by (apply Z.ltb_lt; lia).
  assert (P2 : (0 <? weeks) = true).
  { apply Z.ltb_lt. unfold weeks. pose proof (Z.div_pos (day today - 1) 7). lia. }
  destruct expenses as [|x l]; [congruence|].
  unfold calculate_daily_average, calculate_weekly_average.
  fold (date_or_now w current_date). rewrite F. simpl bind.
  fold today weeks. rewrite P1, P2. split; reflexivity.
Qed.

Lemma C7_witness :
  calculate_daily_average sample_world
    [mkexpense "2025-10-13" 10 "tea"; mkexpense "2025-10-20" 20 "ink";
     mkexpense "2025-09-30" 7 "pen"; mkexpense "2025-10-01" 5 "nib"]
    (Some (at_date 2025 10 15))
  = Ok ((15 / 15)%Q, 15)
  /\ calculate_weekly_average sample_world
    [mkexpense "2025-10-13" 10 "tea"; mkexpense "2025-10-20" 20 "ink";
     mkexpense "2025-09-30" 7 "pen"; mkexpense "2025-10-01" 5 "nib"]
    (Some (at_date 2025 10 15))
  = Ok ((15 / 3)%Q, 3).
Proof.
  destruct (C7_month_to_date_averages sample_world
              [mkexpense "2025-10-13" 10 "tea"; mkexpense "2025-10-20" 20 "ink";
               mkexpense "2025-09-30" 7 "pen"; mkexpense "2025-10-01" 5 "nib"]
              (Some (at_date 2025 10 15)))
    as (D & W).
  - discriminate.
  - apply at_date_valid. reflexivity.
  - left. reflexivity.
  - rewrite D, W. split; reflexivity.
Defined.

(** C7 as stated fails in two ways.  An expense of the month dated after
    the date is left out of the total: on 2025-10-15 the expense of
    2025-10-20 does not count, though it is an expense of October 2025.
    And the empty list gives [(0, 0)], not a count of 15 days. *)
Lemma C7_counterexample :
  calculate_daily_average sample_world [mkexpense "2025-10-20" 30 "ink"]
    (Some (at_date 2025 10 15)) = Ok ((0 / 15)%Q, 15)
  /\ total (filter (dated_by (same_month (mkdate 2025 10 15)))
              [mkexpense "2025-10-20" 30 "ink"]) = 30%Q
  /\ ~ (0 / 15 == 30 / 15)%Q
  /\ calculate_daily_average sample_world [] (Some (at_date 2025 10 15)) = Ok (0%Q, 0)
  /\ day (mkdate 2025 10 15) <> 0.
Proof.
  split; [reflexivity|]. split; [reflexivity|]. split; [|split; [reflexivity|discriminate]].
  intros H. vm_compute in H. discriminate.
Qed.

(** C8.  Whatever a filter returns is an order-preserving subsequence of
    the list it was given.  The date-range and the past filters always
    return; the month filter returns for every date before December 9999
    and the week filter for every date whose week ends in the range of the
    library.  The list given is a value of the embedding: the loop assigns
    to [filtered] only. *)
Theorem C8_filters_return_subsequences (w : world) (expenses : list expense)
    (start_date end_date current_date : option datetime)
    (t : datetime) (exclude_future : bool) :
  valid_datetime t ->
  Subseq (_filter_expenses_by_date_range w expenses start_date end_date current_date) expenses
  /\ Subseq (_filter_past_expenses w expenses current_date) expenses
  /\ (forall l, _filter_expenses_by_month w expenses t exclude_future = Ok l ->
                Subseq l expenses)
  /\ (forall l, _filter_expenses_by_week w expenses t exclude_future = Ok l ->
                Subseq l expenses)
  /\ (month_in_range t ->
      exists l, _filter_expenses_by_month w expenses t exclude_future = Ok l)
  /\ (week_in_range t ->
      exists l, _filter_expenses_by_week w expenses t exclude_future = Ok l).
Proof.
  intros V.
  assert (S : forall s e c, Subseq (_filter_expenses_by_date_range w expenses s e c) expenses).
  { intros s e c. rewrite range_is_filter. apply filter_Subseq. }
  split; [apply S|]. split; [apply S|]. split; [|split; [|split]].
  - intros l E. destruct (month_filter_inv _ _ _ _ _ E) as (s & e & -> & _). apply S.
  - intros l E. destruct (week_filter_inv _ _ _ _ _ E) as (s & e & -> & _). apply S.
  - intros R. destruct (month_filter_returns w expenses t exclude_future V R) as (me & E).
    eexists. exact E.
  - intros R. destruct (week_filter_returns w expenses t exclude_future V R) as (ws & we & _ & E).
    eexists. exact E.
Qed.

Lemma C8_witness :
  Subseq [mkexpense "2025-10-13" 10 "tea"; mkexpense "2025-10-01" 5 "nib"]
         [mkexpense "2025-10-13" 10 "tea"; mkexpense "2025-10-20" 20 "ink";
          mkexpense "2025-09-30" 7 "pen"; mkexpense "2025-10-01" 5 "nib"].
Proof.
  destruct (C8_filters_return_subsequences sample_world
              [mkexpense "2025-10-13" 10 "tea"; mkexpense "2025-10-20" 20 "ink";
               mkexpense "2025-09-30" 7 "pen"; mkexpense "2025-10-01" 5 "nib"]
              None None None (at_date 2025 10 15) true)
    as (_ & _ & M & _).
  - apply at_date_valid. reflexivity.
  - apply M. reflexivity.
Defined.

(** A subsequence has its elements in the list, each as often at most and
    in the same order: it is the list read at increasing positions. *)
Lemma Subseq_positions {A : Type} (d : A) (l1 l2 : list A) :
  Subseq l1 l2 ->
  exists ps : list nat,
    l1 = map (fun p => nth p l2 d) ps /\
    StronglySorted lt ps /\ Forall (fun p => (p < List.length l2)%nat) ps.
Proof.
  induction 1 as [|x l1 l2 Hs (ps & E & So & B)|x l1 l2 Hs (ps & E & So & B)].
  - exists []. repeat split; constructor.
  - exists (map S ps). rewrite map_map. simpl. split; [exact E|]. split.
    + clear -So. induction So as [|p ps So IH F]; simpl; constructor; [exact IH|].
      rewrite Forall_map. eapply Forall_impl; [|exact F]. simpl. intros; lia.
    + rewrite Forall_map. eapply Forall_impl; [|exact B]. simpl. intros; lia.
  - exists (O :: map S ps). simpl. rewrite map_map. simpl. split; [now f_equal|]. split.
    + constructor.
      * clear -So. induction So as [|p ps So IH F]; simpl; constructor; [exact IH|].
        rewrite Forall_map. eapply Forall_impl; [|exact F]. simpl. intros; lia.
      * rewrite Forall_map. apply Forall_forall. intros; lia.
    + constructor; [lia|]. rewrite Forall_map. eapply Forall_impl; [|exact B].
      simpl. intros; lia.
Qed.

Lemma past_is_filter (w : world) (l : list expense) (c : option datetime) :
  _filter_past_expenses w l c
  = filter (kept None (Some (date_or_now w c)) (date_or_now w c)) l.
Proof. unfold _filter_past_expenses. rewrite range_is_filter. reflexivity. Qed.

Lemma past_given (w : world) (l : list expense) (c : option datetime) :
  _filter_past_expenses w l (Some (date_or_now w c)) = _filter_past_expenses w l c.
Proof. rewrite !past_is_filter. reflexivity. Qed.

Lemma kept_without_start s (t : datetime) (x : expense) :
  kept s (Some t) t x = true -> kept None (Some t) t x = true.
Proof.
  unfold kept. destruct (parse_date (e_date x)); [|discriminate].
  intros H. apply andb_prop in H. destruct H as [_ H]. exact H.
Qed.

Lemma filter_nil_implied {A : Type} (f g : A -> bool) (l : list A) :
  (forall x, f x = true -> g x = true) -> filter g l = [] -> filter f l = [].
Proof.
  intros H. induction l as [|x l IH]; simpl; [reflexivity|].
  destruct (g x) eqn:G; [discriminate|]. intros E.
  destruct (f x) eqn:F; [apply H in F; congruence|]. apply IH. exact E.
Qed.

(** When nothing survives the past filter, nothing is in the window of the
    month or of the week up to the date. *)
Lemma no_past_no_window (w : world) (l : list expense) (c : option datetime) s :
  _filter_past_expenses w l c = [] ->
  _filter_expenses_by_date_range w l s (Some (date_or_now w c)) (Some (date_or_now w c)) = [].
Proof.
  rewrite past_is_filter, range_is_filter. apply filter_nil_implied.
  intros x. apply kept_without_start.
Qed.

(** C9, as the code has it.  For the empty list every aggregation returns
    its zero result, whatever the date and the clock.  When no expense
    survives the past filter, the median and the largest expense are those
    zero results again; the three averages of a list that is not empty have
    a zero amount then, and the daily and the weekly average come with the
    count of elapsed days or weeks, not with 0. *)
Theorem C9_zero_results (w : world) (current_date : option datetime) :
  let today := dt_date (date_or_now w current_date) in
  calculate_daily_average w [] current_date = Ok (0%Q, 0)
  /\ calculate_weekly_average w [] current_date = Ok (0%Q, 0)
  /\ calculate_weekly_pace w [] current_date = Ok (0%Q, 0)
  /\ calculate_median_expense w [] current_date = (0%Q, 0)
  /\ calculate_largest_expense w [] current_date = (0%Q, "No expenses"%string)
  /\ (forall expenses,
        _filter_past_expenses w expenses current_date = [] ->
        calculate_median_expense w expenses current_date = (0%Q, 0)
        /\ calculate_largest_expense w expenses current_date = (0%Q, "No expenses"%string))
  /\ (forall expenses a n,
        expenses <> [] ->
        _filter_past_expenses w expenses current_date = [] ->
        (calculate_daily_average w expenses current_date = Ok (a, n) ->
         (a == 0)%Q /\ n = day today)
        /\ (calculate_weekly_average w expenses current_date = Ok (a, n) ->
            (a == 0)%Q /\ n = (day today - 1) / 7 + 1)
        /\ (calculate_weekly_pace w expenses current_date = Ok (a, n) ->
            (a == 0)%Q)).
Proof.
  intros today. repeat (split; [reflexivity|]). split.
  - intros expenses E. unfold calculate_median_expense, calculate_largest_expense.
    fold (date_or_now w current_date). rewrite past_given, E. split; reflexivity.
  - intros expenses a n NE E.
    destruct expenses as [|x l]; [congruence|].
    split; [|split]; intros H.
    + unfold calculate_daily_average in H. fold (date_or_now w current_date) in H.
      destruct (_filter_expenses_by_month w (x :: l) _ true) as [r|e] eqn:F;
        simpl bind in H; [|discriminate].
      destruct (month_filter_inv _ _ _ _ _ F) as (s & e' & -> & _).
      rewrite (no_past_no_window w (x :: l) current_date (Some s) E) in H.
      simpl in H. fold today in H.
      destruct (0 <? day today) in H; injection H as <- <-;
        (split; [|reflexivity]); [apply Qdiv_0_l|reflexivity].
    + unfold calculate_weekly_average in H. fold (date_or_now w current_date) in H.
      destruct (_filter_expenses_by_month w (x :: l) _ true) as [r|e] eqn:F;
        simpl bind in H; [|discriminate].
      destruct (month_filter_inv _ _ _ _ _ F) as (s & e' & -> & _).
      rewrite (no_past_no_window w (x :: l) current_date (Some s) E) in H.
      simpl in H. fold today in H.
      destruct (0 <? (day today - 1) / 7 + 1) in H; injection H as <- <-;
        (split; [|reflexivity]); [apply Qdiv_0_l|reflexivity].
    + unfold calculate_weekly_pace in H. fold (date_or_now w current_date) in H.
      destruct (_filter_expenses_by_week w (x :: l) _ true) as [r|e] eqn:F;
        simpl bind in H; [|discriminate].
      destruct (week_filter_inv _ _ _ _ _ F) as (s & e' & -> & S & _).
      rewrite S in H. simpl bind in H.
      rewrite (no_past_no_window w (x :: l) current_date (Some s) E) in H.
      simpl in H. destruct (0 <? _) in H; injection H as <- _; [apply Qdiv_0_l|reflexivity].
Qed.

(** C9 as stated fails for the averages: on 2025-10-15 the only expense is
    dated 2025-10-20, none survives the past filter, and the daily average
    comes with the 15 elapsed days, not with 0. *)
Lemma C9_counterexample :
  _filter_past_expenses sample_world [mkexpense "2025-10-20" 30 "ink"]
    (Some (at_date 2025 10 15)) = []
  /\ calculate_daily_average sample_world [mkexpense "2025-10-20" 30 "ink"]
       (Some (at_date 2025 10 15)) = Ok ((0 / 15)%Q, 15)
  /\ calculate_weekly_average sample_world [mkexpense "2025-10-20" 30 "ink"]
       (Some (at_date 2025 10 15)) = Ok ((0 / 3)%Q, 3)
  /\ calculate_weekly_pace sample_world [mkexpense "2025-10-20" 30 "ink"]
       (Some (at_date 2025 10 15)) = Ok ((0 / 3)%Q, 3)
  /\ calculate_daily_average sample_world [mkexpense "2025-10-20" 30 "ink"]
       (Some (at_date 2025 10 15)) <> Ok (0%Q, 0).
Proof. repeat (split; [reflexivity|]). discriminate. Qed.

(* ===================================================================== *)
(** * The monthly trend                                                 *)
(* ===================================================================== *)

Lemma Qltb_lt (a b : Q) : Qltb a b = true <-> (a < b)%Q.
Proof.
  unfold Qltb. rewrite negb_true_iff. split.
  - intros H. apply Qnot_le_lt. intros L. apply Qle_bool_iff in L. congruence.
  - intros H. destruct (Qle_bool b a) eqn:E; [|reflexivity].
    apply Qle_bool_iff in E. apply Qlt_not_le in H. contradiction.
Qed.

Lemma Qltb_ge (a b : Q) : Qltb a b = false <-> (b <= a)%Q.
Proof.
  unfold Qltb. rewrite negb_false_iff. apply Qle_bool_iff.
Qed.

(** The previous month: the month before the viewed one. *)
Lemma trend_prev_month_date_spec (w : world) (key : string) (v p : datetime) :
  key <> EmptyString ->
  strptime_Ym key = Ok v ->
  trend_prev_month_date w (Some key) = Ok p ->
  (1 < month (dt_date v) ->
   year (dt_date p) = year (dt_date v) /\ month (dt_date p) = month (dt_date v) - 1)
  /\ (month (dt_date v) = 1 ->
      year (dt_date p) = year (dt_date v) - 1 /\ month (dt_date p) = 12).
Proof.
  intros NE V. unfold trend_prev_month_date.
  destruct key as [|c k]; [congruence|]. rewrite V. simpl bind.
  unfold replace. destruct (valid_dateb _); simpl bind; [|discriminate].
  unfold sub_days. destruct (_ && _); [|discriminate].
  intros E. injection E as <-. simpl. unfold prev_day. simpl.
  destruct (Z.ltb_spec 1 (month (dt_date v))); simpl; split; intros; try lia; split; lia.
Qed.

(** C1, as the code has it.  With [current_date] given, the result of each
    calculation over expenses is the same in every world: it depends on
    the arguments only.  The result of [calculate_monthly_trend] is the
    same in two worlds that agree on the state of the previous month's
    expenses file, and on the clock when no month key is given.  No
    function changes the world: it is read, never returned. *)
Theorem C1_determined_by_arguments (w1 w2 : world) (expenses : list expense)
    (current_date : datetime) (prev_month_data_folder : string)
    (current_month_total : option float) (viewed_month_key : option string) :
  (exists c k, viewed_month_key = Some (String c k)) \/ now w1 = now w2 ->
  (forall p, trend_prev_month_date w1 viewed_month_key = Ok p ->
             fs w1 (previous_expenses_file w1 p) = fs w2 (previous_expenses_file w2 p)) ->
  calculate_day_progress w1 (Some current_date)
    = calculate_day_progress w2 (Some current_date)
  /\ calculate_week_progress w1 (Some current_date)
    = calculate_week_progress w2 (Some current_date)
  /\ calculate_daily_average w1 expenses (Some current_date)
    = calculate_daily_average w2 expenses (Some current_date)
  /\ calculate_weekly_average w1 expenses (Some current_date)
    = calculate_weekly_average w2 expenses (Some current_date)
  /\ calculate_weekly_pace w1 expenses (Some current_date)
    = calculate_weekly_pace w2 expenses (Some current_date)
  /\ calculate_median_expense w1 expenses (Some current_date)
    = calculate_median_expense w2 expenses (Some current_date)
  /\ calculate_largest_expense w1 expenses (Some current_date)
    = calculate_largest_expense w2 expenses (Some current_date)
  /\ calculate_monthly_trend w1 prev_month_data_folder current_month_total viewed_month_key
    = calculate_monthly_trend w2 prev_month_data_folder current_month_total viewed_month_key.
Proof.
  intros K F. repeat (split; [reflexivity|]).
  assert (D : trend_prev_month_date w1 viewed_month_key
              = trend_prev_month_date w2 viewed_month_key).
  { destruct K as [(c & k & ->)| N]; [reflexivity|].
    unfold trend_prev_month_date. rewrite N. reflexivity. }
  unfold calculate_monthly_trend. rewrite <- D.
  destruct (trend_prev_month_date w1 viewed_month_key) as [p|e] eqn:E; [|reflexivity].
  simpl bind.
  assert (T : trend_prev_total w1 p = trend_prev_total w2 p).
  { unfold trend_prev_total. fold (previous_expenses_file w1 p) (previous_expenses_file w2 p).
    rewrite (F p eq_refl). reflexivity. }
  rewrite T. reflexivity.
Qed.

Lemma C1_witness :
  calculate_monthly_trend september_world "data_2025-09" (Some 1100%float) (Some "2025-10"%string)
  = calculate_monthly_trend september_world_later "data_2025-09" (Some 1100%float)
      (Some "2025-10"%string).
Proof.
  apply (C1_determined_by_arguments september_world september_world_later
           [] (at_date 2025 10 15) "data_2025-09" (Some 1100%float) (Some "2025-10"%string)).
  - left. eexists _, _. reflexivity.
  - intros p _. reflexivity.
Defined.

(** C1 as stated fails: with the same arguments, [calculate_monthly_trend]
    gives one result where the file of September 2025 is missing and
    another where it holds expenses; and with no [current_date] the daily
    average follows the clock. *)
Lemma C1_counterexample :
  calculate_monthly_trend sample_world "data_2025-09" (Some 1100%float) (Some "2025-10"%string)
    = Ok ("$0.00"%string, "September 2025"%string, None)
  /\ (exists i,
        calculate_monthly_trend september_world "data_2025-09" (Some 1100%float)
          (Some "2025-10"%string)
        = Ok ("$1000.00"%string, "September 2025"%string, Some i))
  /\ calculate_daily_average september_world [mkexpense "2025-10-13" 30 "tea"] None
     = Ok ((30 / 15)%Q, 15)
  /\ calculate_daily_average september_world_later [mkexpense "2025-10-13" 30 "tea"] None
     = Ok ((30 / 19)%Q, 19).
Proof.
  split; [reflexivity|]. split; [eexists; reflexivity|]. split; reflexivity.
Qed.

(* ===================================================================== *)
(** * The description history                                           *)
(* ===================================================================== *)

(** ** The order of strings *)

Lemma ascii_compare_lt_trans (a b c : ascii) :
  Ascii.compare a b = Lt -> Ascii.compare b c = Lt -> Ascii.compare a c = Lt.
Proof.
  unfold Ascii.compare. rewrite !N.compare_lt_iff. lia.
Qed.

Lemma string_compare_trans (s1 s2 s3 : string) :
  String.compare s1 s2 <> Gt -> String.compare s2 s3 <> Gt ->
  String.compare s1 s3 <> Gt.
Proof.
  revert s2 s3. induction s1 as [|a s1 IH]; intros [|b s2] [|c s3]; simpl;
    try congruence.
  destruct (Ascii.compare a b) eqn:AB; try congruence;
    destruct (Ascii.compare b c) eqn:BC; try congruence; intros H1 H2.
  - apply Ascii.compare_eq_iff in AB, BC. subst.
    assert (R : Ascii.compare c c = Eq) by (unfold Ascii.compare; apply N.compare_refl).
    rewrite R. eapply IH; eassumption.
  - apply Ascii.compare_eq_iff in AB. subst. rewrite BC. discriminate.
  - apply Ascii.compare_eq_iff in BC. subst. rewrite AB. discriminate.
  - rewrite (ascii_compare_lt_trans a b c AB BC). discriminate.
Qed.

Lemma string_leb_trans (s1 s2 s3 : string) :
  String.leb s1 s2 = true -> String.leb s2 s3 = true -> String.leb s1 s3 = true.
Proof.
  unfold String.leb. intros H1 H2.
  pose proof (string_compare_trans s1 s2 s3) as T.
  destruct (String.compare s1 s2); try discriminate;
    destruct (String.compare s2 s3); try discriminate;
    destruct (String.compare s1 s3); try reflexivity;
    exfalso; apply T; congruence.
Qed.

(** ** The stable sort *)

Section SortFacts.
Context {A : Type} (leb : A -> A -> bool).
Hypothesis leb_total : forall a b, leb a b = true \/ leb b a = true.
Hypothesis leb_trans : forall a b c, leb a b = true -> leb b c = true -> leb a c = true.

Lemma insert_perm (x : A) (l : list A) : Permutation (insert leb x l) (x :: l).
Proof.
  induction l as [|y l IH]; simpl; [reflexivity|].
  destruct (leb x y); [reflexivity|].
  rewrite IH. apply perm_swap.
Qed.

Lemma sorted_perm (l : list A) : Permutation (sorted leb l) l.
Proof.
  induction l as [|x l IH]; simpl; [reflexivity|].
  rewrite insert_perm. now apply perm_skip.
Qed.

Lemma insert_sorted (x : A) (l : list A) :
  StronglySorted (fun a b => leb a b = true) l -> StronglySorted (fun a b => leb a b = true) (insert leb x l).
Proof.
  induction 1 as [|y l S IH F]; simpl.
  - constructor; constructor.
  - destruct (leb x y) eqn:E.
    + constructor; [constructor; assumption|].
      constructor; [exact E|].
      eapply Forall_impl; [|exact F]. intros z Z. eapply leb_trans; eassumption.
    + constructor; [exact IH|].
      assert (P : Permutation (insert leb x l) (x :: l)) by apply insert_perm.
      symmetry in P. eapply Permutation_Forall; [exact P|].
      constructor; [|exact F].
      destruct (leb_total x y) as [H|H]; [congruence|exact H].
Qed.

Lemma sorted_sorted (l : list A) : StronglySorted (fun a b => leb a b = true) (sorted leb l).
Proof.
  induction l as [|x l IH]; simpl; [constructor|]. apply insert_sorted. exact IH.
Qed.
End SortFacts.

(** ** List facts *)

Lemma firstn_exact {A : Type} (p x : list A) : firstn (List.length p) (p ++ x) = p.
Proof. induction p as [|a p IH]; simpl; [now destruct x|now rewrite IH]. Qed.

Lemma skipn_exact {A : Type} (p x : list A) : skipn (List.length p) (p ++ x) = x.
Proof. induction p as [|a p IH]; simpl; [reflexivity|exact IH]. Qed.

Lemma skipn_step {A : Type} (i : nat) (l : list A) :
  (i < List.length l)%nat ->
  exists x, nth_error l i = Some x /\ skipn i l = x :: skipn (S i) l.
Proof.
  revert l. induction i as [|i IH]; intros [|a l] H; simpl in *; try lia.
  - exists a. split; reflexivity.
  - destruct (IH l) as (x & N & E); [lia|]. exists x. split; [exact N|exact E].
Qed.

Lemma firstn_step {A : Type} (i : nat) (l : list A) (x : A) :
  nth_error l i = Some x -> firstn (S i) l = firstn i l ++ [x].
Proof.
  revert l. induction i as [|i IH]; intros [|a l] H; simpl in *; try discriminate.
  - injection H as ->. reflexivity.
  - f_equal. apply IH. exact H.
Qed.

Lemma StronglySorted_skipn {A : Type} (R : A -> A -> Prop) (i : nat) (l : list A) :
  StronglySorted R l -> StronglySorted R (skipn i l).
Proof.
  revert l. induction i as [|i IH]; intros l S; [exact S|].
  destruct l as [|a l]; [exact S|]. simpl. apply IH. now inversion S.
Qed.

Lemma StronglySorted_app {A : Type} (R : A -> A -> Prop) (l1 l2 : list A) :
  StronglySorted R l1 -> StronglySorted R l2 ->
  (forall a b, In a l1 -> In b l2 -> R a b) ->
  StronglySorted R (l1 ++ l2).
Proof.
  intros S1 S2 H. induction S1 as [|a l1 S1 IH F]; simpl; [exact S2|].
  constructor.
  - apply IH. intros x y X Y. apply H; [right; exact X|exact Y].
  - apply Forall_app. split; [exact F|].
    apply Forall_forall. intros y Y. apply H; [left; reflexivity|exact Y].
Qed.

Lemma In_firstn {A : Type} (i : nat) (l : list A) (x : A) :
  In x (firstn i l) -> In x l.
Proof.
  intros H. rewrite <- (firstn_skipn i l). apply in_or_app. left. exact H.
Qed.

Lemma StronglySorted_firstn {A : Type} (R : A -> A -> Prop) (i : nat) (l : list A) :
  StronglySorted R l -> StronglySorted R (firstn i l).
Proof.
  revert l. induction i as [|i IH]; intros l S; [constructor|].
  destruct l as [|a l]; [constructor|]. simpl. inversion S as [|? ? S' F]; subst.
  constructor; [apply IH; exact S'|].
  apply Forall_forall. intros x X. rewrite Forall_forall in F. apply F.
  eapply In_firstn. exact X.
Qed.

Lemma NoDup_firstn {A : Type} (i : nat) (l : list A) : NoDup l -> NoDup (firstn i l).
Proof.
  intros H. rewrite <- (firstn_skipn i l) in H. eapply NoDup_app_remove_r. exact H.
Qed.

(** ** The order of the history *)

Lemma key_leb_total (a b : entry) : key_leb a b = true \/ key_leb b a = true.
Proof.
  unfold key_leb.
  destruct (Z.ltb_spec (- count a) (- count b)); [left; reflexivity|].
  destruct (Z.ltb_spec (- count b) (- count a)); [right; reflexivity|].
  assert (E : count a = count b) by lia. rewrite E, Z.eqb_refl. simpl.
  apply String.leb_total.
Qed.

Lemma key_leb_trans (a b c : entry) :
  key_leb a b = true -> key_leb b c = true -> key_leb a c = true.
Proof.
  unfold key_leb. intros H1 H2.
  apply orb_prop in H1. apply orb_prop in H2. apply orb_true_iff.
  destruct H1 as [H1|H1]; destruct H2 as [H2|H2];
    rewrite ?andb_true_iff, ?Z.ltb_lt, ?Z.eqb_eq in *.
  - left. lia.
  - left. lia.
  - left. lia.
  - right. destruct H1 as [E1 L1], H2 as [E2 L2]. split; [lia|].
    eapply string_leb_trans; eassumption.
Qed.

Lemma recent_leb_total (a b : entry) : recent_leb a b = true \/ recent_leb b a = true.
Proof. unfold recent_leb. apply String.leb_total. Qed.

Lemma recent_leb_trans (a b c : entry) :
  recent_leb a b = true -> recent_leb b c = true -> recent_leb a c = true.
Proof. unfold recent_leb. intros H1 H2. eapply string_leb_trans; eassumption. Qed.

(** After the first sort the counts do not increase. *)
Lemma key_sorted_counts (l : list entry) :
  StronglySorted (fun a b => count b <= count a) (sorted key_leb l).
Proof.
  pose proof (sorted_sorted key_leb key_leb_total key_leb_trans l) as S.
  induction S as [|a l' S IH F]; constructor; [exact IH|].
  eapply Forall_impl; [|exact F]. intros b H. simpl in H. unfold key_leb in H.
  apply orb_prop in H. rewrite andb_true_iff, Z.ltb_lt, Z.eqb_eq in H. lia.
Qed.

(** A group of one count, sorted by the last use, is in the order of the
    history. *)
Lemma group_sorted (c : Z) (g : list entry) :
  Forall (fun a => count a = c) g ->
  StronglySorted ranks_before (sorted recent_leb g)
  /\ Forall (fun a => count a = c) (sorted recent_leb g).
Proof.
  intros G.
  assert (G' : Forall (fun a => count a = c) (sorted recent_leb g)).
  { eapply Permutation_Forall; [|exact G]. symmetry. apply sorted_perm. }
  split; [|exact G'].
  pose proof (sorted_sorted recent_leb recent_leb_total recent_leb_trans g) as S.
  induction S as [|a l S IH F]; constructor.
  - apply IH. now inversion G'.
  - inversion G' as [|? ? Ha Hl]; subst.
    rewrite Forall_forall in *. intros b B. right. split.
    + rewrite (Hl b B). reflexivity.
    + apply (F b B).
Qed.

Section Regroup.
Variable l : list entry.
Hypothesis counts_sorted : StronglySorted (fun a b => count b <= count a) l.

Lemma regroup_state_succ (i : nat) :
  regroup_state_at l (S i) = regroup_step (regroup_state_at l i) i.
Proof.
  unfold regroup_state_at. rewrite seq_S, fold_left_app. reflexivity.
Qed.

Lemma regroup_inv_first (x : entry) (r : list entry) :
  l = x :: r -> regroup_inv l 1 (regroup_state_at l 1).
Proof.
  intros E. unfold regroup_inv, regroup_state_at. simpl. unfold regroup_step. simpl.
  rewrite E. simpl.
  exists [], [x], (count x). simpl. repeat split; try reflexivity.
  - constructor; [reflexivity|constructor].
  - rewrite E in counts_sorted. inversion counts_sorted as [|? ? S F]; subst. exact F.
  - constructor.
  - constructor.
Qed.

Lemma regroup_inv_step (i : nat) (st : regroup_state) :
  (i < List.length l)%nat ->
  regroup_inv l i st -> regroup_inv l (S i) (regroup_step st i).
Proof.
  intros Hi (p & g & c & D & Lp & Lg & C & G & R & P & S & B).
  destruct (skipn_step i l Hi) as (x & N & K).
  assert (Nd : nth_error (rg_descriptions st) i = Some x).
  { rewrite D, app_assoc, nth_error_app2 by (rewrite length_app; lia).
    rewrite length_app, K.
    replace (i - (List.length p + List.length g))%nat with 0%nat by lia. reflexivity. }
  assert (Sk : StronglySorted (fun a b => count b <= count a) (skipn i l))
    by (apply StronglySorted_skipn; exact counts_sorted).
  rewrite K in Sk, R. apply StronglySorted_inv in Sk. destruct Sk as [Sk' Fx].
  pose proof (Forall_inv R) as Rx. pose proof (Forall_inv_tail R) as R'. simpl in Rx.
  unfold regroup_step. rewrite Nd, C.
  destruct (Z.eqb_spec (count x) c) as [E|E]; simpl.
  - (* the entry joins the open group *)
    exists p, (g ++ [x]), c. rewrite D, K, <- app_assoc.
    cbn [rg_descriptions rg_current_count rg_group_start app].
    repeat split; try assumption.
    + rewrite length_app. simpl. lia.
    + apply Forall_app. split; [exact G|]. constructor; [exact E|constructor].
    + rewrite (firstn_step i l x N), app_assoc. apply Permutation_app_tail. exact P.
  - (* the open group is closed and sorted, the entry opens the next *)
    assert (Sl : slice (rg_group_start st) i (rg_descriptions st) = g).
    { unfold slice. rewrite D, <- Lp, skipn_exact.
      replace (i - List.length p)%nat with (List.length g) by lia.
      apply firstn_exact. }
    assert (St : set_slice (rg_group_start st) i (sorted recent_leb g) (rg_descriptions st)
                 = p ++ sorted recent_leb g ++ skipn i l).
    { unfold set_slice. rewrite D, <- Lp, firstn_exact. do 2 f_equal.
      rewrite app_assoc.
      replace i with (List.length (p ++ g)) at 1 by (rewrite length_app; lia).
      apply skipn_exact. }
    rewrite Sl, St, K.
    destruct (group_sorted c g G) as [Sg Gg].
    pose proof (sorted_perm recent_leb g) as Pg.
    exists (p ++ sorted recent_leb g), [x], (count x).
    cbn [rg_descriptions rg_current_count rg_group_start app].
    repeat split.
    + rewrite <- app_assoc. reflexivity.
    + rewrite length_app, (Permutation_length Pg). simpl. lia.
    + rewrite length_app, (Permutation_length Pg). simpl. lia.
    + constructor; [reflexivity|constructor].
    + exact Fx.
    + rewrite (firstn_step i l x N). apply Permutation_app_tail.
      rewrite <- P. apply Permutation_app_head. exact Pg.
    + apply StronglySorted_app; [exact S|exact Sg|].
      intros a b Ia Ib. left. rewrite Forall_forall in B, Gg.
      rewrite (Gg b Ib). apply B. exact Ia.
    + apply Forall_app. split.
      * eapply Forall_impl; [|exact B]. simpl. intros; lia.
      * eapply Forall_impl; [|exact Gg]. simpl. intros; lia.
Qed.

Lemma regroup_inv_at (i : nat) :
  (1 <= i <= List.length l)%nat -> regroup_inv l i (regroup_state_at l i).
Proof.
  induction i as [|i IH]; [lia|]. intros H.
  destruct i as [|i].
  - destruct (skipn_step 0 l) as (x & _ & K); [lia|].
    change (skipn 0 l) with l in K. eapply regroup_inv_first. exact K.
  - rewrite regroup_state_succ. apply regroup_inv_step; [lia|]. apply IH. lia.
Qed.

(** The list after the loop: a permutation of the list before it, in the
    order of the history. *)
Lemma regroup_spec :
  Permutation (regroup l) l /\ StronglySorted ranks_before (regroup l).
Proof.
  unfold regroup. fold (regroup_state_at l (List.length l)).
  destruct (Nat.eq_dec (List.length l) 0) as [E|E].
  - apply length_zero_iff_nil in E. unfold regroup_state_at. rewrite E. simpl.
    split; [apply perm_nil|apply SSorted_nil].
  - destruct (regroup_inv_at (List.length l)) as (p & g & c & D & Lp & Lg & C & G & R & P & S & B).
    { lia. }
    rewrite skipn_all, app_nil_r in D. rewrite firstn_all in P.
    rewrite D, <- Lp, firstn_exact, skipn_exact.
    destruct (group_sorted c g G) as [Sg Gg].
    split.
    + rewrite <- P. apply Permutation_app_head. apply sorted_perm.
    + apply StronglySorted_app; [exact S|exact Sg|].
      intros a b Ia Ib. left. rewrite Forall_forall in B, Gg.
      rewrite (Gg b Ib). apply B. exact Ia.
Qed.
End Regroup.

Section HistoryFacts.
Variables lower strip : string -> string.

Lemma update_existing_texts (p : entry -> bool) (f : entry -> entry) (l l' : list entry) :
  (forall d, text (f d) = text d) ->
  update_existing p f l = Some l' -> map text l' = map text l.
Proof.
  intros T. revert l'. induction l as [|d r IH]; intros l'; simpl; [discriminate|].
  destruct (p d).
  - intros E. injection E as <-. simpl. now rewrite T.
  - destruct (update_existing p f r) as [r'|]; [|discriminate].
    intros E. injection E as <-. simpl. f_equal. apply IH. reflexivity.
Qed.

Lemma update_existing_none (p : entry -> bool) (f : entry -> entry) (l : list entry) :
  update_existing p f l = None -> Forall (fun d => p d = false) l.
Proof.
  induction l as [|d r IH]; simpl; [constructor|].
  destruct (p d) eqn:P; [discriminate|].
  destruct (update_existing p f r); [discriminate|].
  intros _. constructor; [exact P|apply IH; reflexivity].
Qed.

(** The list with the description counted: still one entry per text. *)
Lemma counted_one_per_text (l : list entry) (normalized today : string) (amount : Q) :
  one_per_text lower l ->
  one_per_text lower
    (match update_existing
             (fun d => String.eqb (lower (text d)) (lower normalized))
             (fun existing => mkentry (text existing) (count existing + 1) today amount)
             l with
     | Some updated => updated
     | None => l ++ [mkentry normalized 1 today amount]
     end).
Proof.
  unfold one_per_text. intros U.
  destruct (update_existing _ _ l) as [l'|] eqn:E.
  - apply update_existing_texts in E; [|reflexivity].
    rewrite <- (map_map text lower), E, map_map. exact U.
  - apply update_existing_none in E.
    rewrite map_app. simpl.
    apply (Permutation_NoDup (l := lower normalized :: map (fun d => lower (text d)) l)).
    + apply Permutation_cons_append.
    + constructor; [|exact U].
      rewrite in_map_iff. intros (d & K & I).
      rewrite Forall_forall in E. specialize (E d I).
      apply String.eqb_neq in E. contradiction.
Qed.

Lemma slice_to_firstn {A : Type} (n : Z) (l : list A) :
  exists k, slice_to n l = firstn k l.
Proof. unfold slice_to. destruct (n <? 0); eexists; reflexivity. Qed.

Lemma slice_to_length {A : Type} (n : Z) (l : list A) :
  0 <= n -> Z.of_nat (List.length (slice_to n l)) <= n.
Proof.
  intros H. unfold slice_to. destruct (Z.ltb_spec n 0); [lia|].
  pose proof (firstn_le_length (Z.to_nat n) l). lia.
Qed.

(** A call keeps the list at one entry per text. *)
Lemma add_or_update_one_per_text (w : world) (self : history)
    (description : string) (amount : Q) :
  one_per_text lower (descriptions self) ->
  one_per_text lower (descriptions (add_or_update lower strip w self description amount)).
Proof.
  intros U. unfold add_or_update.
  destruct (String.eqb (strip description) ""); [exact U|].
  cbn [descriptions].
  set (counted := match update_existing _ _ (descriptions self) with
                  | Some updated => updated
                  | None => _
                  end).
  destruct (regroup_spec (sorted key_leb counted) (key_sorted_counts counted)) as [P _].
  destruct (slice_to_firstn (settings_get_int self "AutoComplete" "max_descriptions" 50)
              (regroup (sorted key_leb counted))) as [k K].
  unfold one_per_text. rewrite K, <- firstn_map. apply NoDup_firstn.
  apply (Permutation_NoDup (l := map (fun d => lower (text d)) counted)).
  - apply Permutation_map. symmetry. rewrite P. apply sorted_perm.
  - apply counted_one_per_text. exact U.
Qed.

(** So does every series of calls; in particular every list built from the
    empty history has one entry per text. *)
Lemma replay_one_per_text (calls : list (world * string * Q)) (h : history) :
  one_per_text lower (descriptions h) ->
  one_per_text lower (descriptions (replay lower strip calls h)).
Proof.
  unfold replay. revert h. induction calls as [|c calls IH]; intros h U; simpl; [exact U|].
  apply IH. apply add_or_update_one_per_text. exact U.
Qed.

Lemma replay_from_empty (calls : list (world * string * Q)) (h : history) :
  descriptions h = [] ->
  one_per_text lower (descriptions (replay lower strip calls h)).
Proof.
  intros E. apply replay_one_per_text. unfold one_per_text. rewrite E. constructor.
Qed.

(** C10, as the code has it.  A blank description leaves the object as it
    is.  After a call with a description that is not blank, the list is
    sorted by count, greatest first, and among equal counts by the string
    of the last use, latest first; it has at most one entry per text
    whatever the case, if it had so before the call; and it is not longer
    than the configured limit, 50 when none is configured, if that limit
    is not negative. *)
Theorem C10_history_invariant (w : world) (self : history)
    (description : string) (amount : Q) :
  let after := add_or_update lower strip w self description amount in
  let limit := settings_get_int self "AutoComplete" "max_descriptions" 50 in
  (strip description = EmptyString -> after = self)
  /\ (strip description <> EmptyString ->
      StronglySorted ranks_before (descriptions after)
      /\ (one_per_text lower (descriptions self) -> one_per_text lower (descriptions after))
      /\ (0 <= limit -> Z.of_nat (List.length (descriptions after)) <= limit)
      /\ (settings self "AutoComplete" "max_descriptions" = None ->
          Z.of_nat (List.length (descriptions after)) <= 50)).
Proof.
  intros after limit. split.
  - intros B. subst after. unfold add_or_update. rewrite B. reflexivity.
  - intros B. split; [|split; [apply add_or_update_one_per_text|]].
    + subst after. unfold add_or_update.
      destruct (String.eqb_spec (strip description) "") as [B'|_]; [contradiction|].
      cbn [descriptions].
      set (counted := match update_existing _ _ (descriptions self) with
                      | Some updated => updated
                      | None => _
                      end).
      destruct (regroup_spec (sorted key_leb counted) (key_sorted_counts counted)) as [_ S].
      destruct (slice_to_firstn (settings_get_int self "AutoComplete" "max_descriptions" 50)
                  (regroup (sorted key_leb counted))) as [k K].
      rewrite K. apply StronglySorted_firstn. exact S.
    + assert (L : forall n, 0 <= n -> limit = n ->
                          Z.of_nat (List.length (descriptions after)) <= n).
      { intros n N E. subst after. unfold add_or_update.
        destruct (String.eqb_spec (strip description) "") as [B'|_]; [contradiction|].
        cbn [descriptions]. fold limit. rewrite E. apply slice_to_length. exact N. }
      split; [intros N; apply L; [exact N|reflexivity]|].
      intros E. apply L; [lia|]. unfold limit, settings_get_int. rewrite E. reflexivity.
Qed.
End HistoryFacts.

Lemma C10_witness :
  map text (descriptions
     (add_or_update ascii_lower ascii_strip sample_world (tea_history (Some 3)) " TEA " 9))
  = ["Tea"; "ink"; "pen"]%string
  /\ one_per_text ascii_lower (descriptions
       (add_or_update ascii_lower ascii_strip sample_world (tea_history (Some 3)) " TEA " 9)).
Proof.
  split; [reflexivity|].
  destruct (C10_history_invariant ascii_lower ascii_strip sample_world
              (tea_history (Some 3)) " TEA " 9) as [_ H].
  destruct H as (_ & U & _); [discriminate|].
  apply U. unfold one_per_text. simpl.
  repeat (constructor; [simpl; intuition discriminate|]). constructor.
Defined.

(** C10 as stated fails in two ways.  With the limit -1 the slice drops the
    last of four entries and the three that are left are more than the
    limit; and a list that was loaded with two entries for one text still
    has them after the call. *)
Lemma C10_counterexample :
  settings_get_int (tea_history (Some (-1))) "AutoComplete" "max_descriptions" 50 = -1
  /\ map text (descriptions
       (add_or_update ascii_lower ascii_strip sample_world (tea_history (Some (-1))) "nib" 9))
     = ["ink"; "Tea"; "nib"]%string
  /\ ~ one_per_text ascii_lower (descriptions
         (add_or_update ascii_lower ascii_strip sample_world
            (mkhistory "description_history.json"
               [mkentry "Tea" 2 "2025-10-01" 3; mkentry "tea" 1 "2025-10-05" 4]
               (fun _ _ => None))
            "nib" 9)).
Proof.
  split; [reflexivity|]. split; [reflexivity|].
  unfold one_per_text. intros H. vm_compute in H.
  apply NoDup_cons_iff in H. destruct H as [H _]. apply H.
  right. left. reflexivity.
Qed.

Import ArchiveModeManager DashboardPageBuilder.

(* ===================================================================== *)
(** * Months: the day after, the month before and the month after        *)
(* ===================================================================== *)

(** The day after. *)
Lemma next_day_spec (d : date) :
  valid_date d -> toordinal d < MAXORDINAL ->
  valid_date (next_day d) /\ toordinal (next_day d) = toordinal d + 1.
Proof.
  intros V H. destruct (valid_date_fields d V) as (Hy & Hm & Hd).
  unfold next_day.
  destruct (Z.ltb_spec (day d) (days_in_month (year d) (month d))) as [D|D].
  - split; [apply valid_date_intro; simpl; lia | unfold toordinal; simpl; lia].
  - assert (Ed : day d = days_in_month (year d) (month d)) by lia.
    destruct (Z.ltb_spec (month d) 12) as [M|M].
    + pose proof (days_in_month_bounds (year d) (month d + 1)).
      split; [apply valid_date_intro; simpl; lia|].
      unfold toordinal; simpl.
      rewrite (days_before_month_succ (year d) (month d)) by lia. lia.
    + assert (Em : month d = 12) by lia.
      assert (Y : year d < 9999).
      { destruct (Z.eq_dec (year d) 9999) as [E|E]; [|lia].
        unfold toordinal, MAXORDINAL in H. rewrite Ed, E, Em in H.
        vm_compute in H. discriminate. }
      split; [apply valid_date_intro; simpl; try lia; unfold days_in_month; simpl; lia|].
      unfold toordinal; simpl. rewrite Ed, Em.
      rewrite (days_before_year_succ (year d)).
      pose proof (days_before_month_last (year d)).
      replace (days_in_month (year d) 12) with 31 by (unfold days_in_month; reflexivity).
      change (days_before_month (year d + 1) 1)
        with (0 + (if (2 <? 1) && is_leap (year d + 1) then 1 else 0)).
      simpl. lia.
Qed.

Lemma days_on_spec (n : nat) (d : date) :
  valid_date d -> toordinal d + Z.of_nat n <= MAXORDINAL ->
  valid_date (days_on n d) /\
  toordinal (days_on n d) = toordinal d + Z.of_nat n.
Proof.
  revert d. induction n as [|n IH]; intros d V H.
  - simpl. split; [assumption|lia].
  - simpl days_on.
    destruct (next_day_spec d V) as [V' E]; [lia|].
    destruct (IH (next_day d) V') as [V'' E']; [lia|].
    split; [assumption|lia].
Qed.

Lemma add_days_spec (t : datetime) (n : Z) :
  valid_datetime t -> 0 <= n -> toordinal (dt_date t) + n <= MAXORDINAL ->
  exists t', add_days t n = Ok t' /\ valid_datetime t' /\
             dt_micro t' = dt_micro t /\
             toordinal (dt_date t') = toordinal (dt_date t) + n.
Proof.
  intros [V M] Hn H. unfold add_days.
  pose proof (toordinal_range _ V) as R.
  assert (C : (0 <? toordinal (dt_date t) + n) && (toordinal (dt_date t) + n <=? MAXORDINAL) = true).
  { apply andb_true_intro; split; [apply Z.ltb_lt|apply Z.leb_le]; lia. }
  rewrite C. eexists; split; [reflexivity|].
  destruct (days_on_spec (Z.to_nat n) (dt_date t) V) as [V' E]; [lia|].
  simpl. repeat split; try assumption; try apply M. lia.
Qed.

(** Two valid dates with the same ordinal are the same date. *)
Lemma toordinal_inj (a b : date) :
  valid_date a -> valid_date b -> toordinal a = toordinal b -> a = b.
Proof.
  intros Va Vb E.
  destruct (date_ltb a b) eqn:L.
  - apply date_ltb_lt in L; [lia|assumption|assumption].
  - destruct (date_ltb_total a b L) as [G|G]; [|exact G].
    apply date_ltb_lt in G; [lia|assumption|assumption].
Qed.

Lemma replace_day_valid (t : datetime) (d : Z) :
  valid_datetime t -> 1 <= d <= days_in_month (year (dt_date t)) (month (dt_date t)) ->
  replace t None None (Some d) =
  Ok (mkdatetime (mkdate (year (dt_date t)) (month (dt_date t)) d) (dt_micro t)).
Proof.
  intros [V M] Hd. destruct (valid_date_fields _ V) as (Hy & Hm & _).
  unfold replace.
  assert (E : valid_dateb (mkdate (year (dt_date t)) (month (dt_date t)) d) = true).
  { apply valid_date_intro; simpl; lia. }
  rewrite E. reflexivity.
Qed.

Lemma previous_month_returns (dt : datetime) :
  valid_datetime dt ->
  ~ (year (dt_date dt) = 1 /\ month (dt_date dt) = 1) ->
  get_previous_month dt = Ok (mkdatetime (month_before (dt_date dt)) (dt_micro dt))
  /\ valid_date (month_before (dt_date dt)).
Proof.
  intros V N. pose proof V as [Vd M].
  destruct (valid_date_fields _ Vd) as (Hy & Hm & Hd).
  unfold get_previous_month. rewrite (replace_day_1 dt V). simpl bind.
  unfold sub_days. cbn [dt_date dt_micro].
  set (f := mkdate (year (dt_date dt)) (month (dt_date dt)) 1).
  assert (Vf : valid_date f) by (apply valid_date_intro; simpl; lia).
  pose proof (toordinal_range f Vf) as Rf.
  assert (P : 1 < toordinal f).
  { unfold toordinal, f. cbn [year month day].
    destruct (Z.eq_dec (year (dt_date dt)) 1) as [E|E].
    - rewrite E. change (days_before_year 1) with 0.
      assert (1 < month (dt_date dt)) by lia.
      pose proof (month_end_before_next 1 1 (month (dt_date dt))).
      change (days_before_month 1 1 + days_in_month 1 1) with 31 in *. lia.
    - pose proof (days_before_year_grows 1 (Z.to_nat (year (dt_date dt) - 1))) as G.
      rewrite Z2Nat.id in G by lia.
      replace (1 + (year (dt_date dt) - 1)) with (year (dt_date dt)) in G by lia.
      change (days_before_year 1) with 0 in G.
      pose proof (month_end_in_year (year (dt_date dt)) (month (dt_date dt))). lia. }
  assert (C : (0 <? toordinal f - 1) && (toordinal f - 1 <=? MAXORDINAL) = true).
  { apply andb_true_intro; split; [apply Z.ltb_lt|apply Z.leb_le]; lia. }
  rewrite C. simpl bind. change (Z.to_nat 1) with 1%nat. cbn [days_back].
  destruct (prev_day_spec f Vf P) as [Vp _].
  assert (E : mkdate (year (prev_day f)) (month (prev_day f)) 1 = month_before (dt_date dt)).
  { unfold prev_day, month_before, f. cbn [year month day]. simpl (1 <? 1).
    cbv iota. destruct (1 <? month (dt_date dt)); reflexivity. }
  assert (Vb : valid_date (month_before (dt_date dt))).
  { rewrite <- E. destruct (valid_date_fields _ Vp) as (Hy' & Hm' & Hd').
    apply valid_date_intro; cbn [year month day]; lia. }
  split; [|exact Vb].
  unfold replace. cbn [dt_date dt_micro]. rewrite E.
  unfold valid_date in Vb. rewrite Vb. reflexivity.
Qed.

(** X1: [get_previous_month] returns the first day of the month before,
    December of the year before for a date in January, at the time of day
    of the argument; for a date in January of the year 1 it raises
    [OverflowError]. *)
Theorem get_previous_month_spec (dt : datetime) :
  valid_datetime dt ->
  (year (dt_date dt) = 1 /\ month (dt_date dt) = 1 ->
   get_previous_month dt = Raise OverflowError)
  /\ (~ (year (dt_date dt) = 1 /\ month (dt_date dt) = 1) ->
      get_previous_month dt = Ok (mkdatetime (month_before (dt_date dt)) (dt_micro dt))
      /\ valid_date (month_before (dt_date dt))).
Proof.
  intros V. split.
  - intros [Ey Em]. unfold get_previous_month. rewrite (replace_day_1 dt V). simpl bind.
    unfold sub_days. cbn [dt_date]. unfold toordinal. cbn [year month day].
    rewrite Ey, Em. reflexivity.
  - intros N. exact (previous_month_returns dt V N).
Qed.

Lemma get_previous_month_witness :
  get_previous_month (mkdatetime (mkdate 2025 1 15) 1000)
  = Ok (mkdatetime (mkdate 2024 12 1) 1000).
Proof.
  assert (V : valid_datetime (mkdatetime (mkdate 2025 1 15) 1000))
    by (split; [reflexivity | unfold DAY_MICROS; simpl; lia]).
  destruct (get_previous_month_spec _ V) as [_ H].
  destruct H as [E _]; [simpl; lia|]. exact E.
Defined.

Lemma next_month_returns (dt : datetime) :
  valid_datetime dt ->
  ~ (year (dt_date dt) = 9999 /\ month (dt_date dt) = 12) ->
  get_next_month dt = Ok (mkdatetime (month_after (dt_date dt)) (dt_micro dt))
  /\ valid_date (month_after (dt_date dt)).
Proof.
  intros V N. pose proof V as [Vd M].
  destruct (valid_date_fields _ Vd) as (Hy & Hm & Hd).
  unfold get_next_month, monthrange_last.
  assert (Cm : (1 <=? month (dt_date dt)) && (month (dt_date dt) <=? 12) = true).
  { apply andb_true_intro; split; apply Z.leb_le; lia. }
  rewrite Cm. simpl bind.
  pose proof (days_in_month_bounds (year (dt_date dt)) (month (dt_date dt)) Hm) as B.
  rewrite (replace_day_valid dt _ V) by lia. simpl bind.
  set (l := mkdate (year (dt_date dt)) (month (dt_date dt))
              (days_in_month (year (dt_date dt)) (month (dt_date dt)))).
  assert (Vl : valid_date l) by (apply valid_date_intro; simpl; lia).
  pose proof (toordinal_range l Vl) as Rl.
  unfold add_days. cbn [dt_date dt_micro].
  assert (P : toordinal l < MAXORDINAL).
  { unfold MAXORDINAL.
    pose proof (toordinal_in_year l Vl) as I.
    change (year l) with (year (dt_date dt)) in I.
    destruct (Z.eq_dec (year (dt_date dt)) 9999) as [E|E].
    - assert (Lt : month (dt_date dt) < 12) by lia.
      unfold toordinal, l. cbn [year month day]. rewrite E.
      pose proof (month_end_before_next 9999 (month (dt_date dt)) 12) as H.
      change (days_before_year 9999) with 3651694.
      change (days_before_month 9999 12) with 334 in H.
      assert (H1 : 1 <= month (dt_date dt)) by lia.
      assert (H2 : 12 <= 12) by lia.
      specialize (H H1 Lt H2). clear -H. lia.
    - pose proof (days_before_year_mono (year (dt_date dt) + 1) 9999).
      change (days_before_year 9999) with 3651694 in *. lia. }
  assert (C : (0 <? toordinal l + 1) && (toordinal l + 1 <=? MAXORDINAL) = true).
  { apply andb_true_intro; split; [apply Z.ltb_lt|apply Z.leb_le]; lia. }
  rewrite C. change (Z.to_nat 1) with 1%nat. cbn [days_on].
  destruct (next_day_spec l Vl P) as [Vn _].
  assert (E : next_day l = month_after (dt_date dt)).
  { unfold next_day, month_after, l. cbn [year month day].
    rewrite Z.ltb_irrefl. reflexivity. }
  rewrite E in *. split; [reflexivity|exact Vn].
Qed.

(** X2: [get_next_month] returns the first day of the month after, January
    of the year after for a date in December, at the time of day of the
    argument; for a date in December 9999 it raises [OverflowError]. *)
Theorem get_next_month_spec (dt : datetime) :
  valid_datetime dt ->
  (year (dt_date dt) = 9999 /\ month (dt_date dt) = 12 ->
   get_next_month dt = Raise OverflowError)
  /\ (~ (year (dt_date dt) = 9999 /\ month (dt_date dt) = 12) ->
      get_next_month dt = Ok (mkdatetime (month_after (dt_date dt)) (dt_micro dt))
      /\ valid_date (month_after (dt_date dt))).
Proof.
  intros V. split.
  - intros [Ey Em]. pose proof V as [Vd M].
    destruct (valid_date_fields _ Vd) as (Hy & Hm & Hd).
    unfold get_next_month, monthrange_last. rewrite Em. simpl bind.
    pose proof (days_in_month_bounds (year (dt_date dt)) 12) as B.
    rewrite <- Em at 1. rewrite (replace_day_valid dt _ V) by (rewrite Em; lia).
    simpl bind. unfold add_days. cbn [dt_date dt_micro].
    unfold toordinal. cbn [year month day]. rewrite Ey, Em. reflexivity.
  - intros N. exact (next_month_returns dt V N).
Qed.

Lemma get_next_month_witness :
  get_next_month (mkdatetime (mkdate 2025 12 15) 1000)
  = Ok (mkdatetime (mkdate 2026 1 1) 1000).
Proof.
  assert (V : valid_datetime (mkdatetime (mkdate 2025 12 15) 1000))
    by (split; [reflexivity | unfold DAY_MICROS; simpl; lia]).
  destruct (get_next_month_spec _ V) as [_ H].
  destruct H as [E _]; [simpl; lia|]. exact E.
Defined.

(** X3: the two are inverse to each other on the first days of months: the
    month after the month before a date, and the month before the month
    after it, are the first day of the month of the date. *)
Theorem month_round_trip (dt : datetime) :
  valid_datetime dt ->
  (~ (year (dt_date dt) = 1 /\ month (dt_date dt) = 1) ->
   (prev <- get_previous_month dt ;; get_next_month prev) = Ok (first_of_month dt))
  /\ (~ (year (dt_date dt) = 9999 /\ month (dt_date dt) = 12) ->
      (next <- get_next_month dt ;; get_previous_month next) = Ok (first_of_month dt)).
Proof.
  intros V. pose proof V as [Vd M].
  destruct (valid_date_fields _ Vd) as (Hy & Hm & Hd).
  split; intros N.
  - destruct (previous_month_returns dt V N) as [E Vb].
    rewrite E. simpl bind.
    assert (Vp : valid_datetime (mkdatetime (month_before (dt_date dt)) (dt_micro dt)))
      by (split; assumption).
    destruct (next_month_returns _ Vp) as [E' _].
    { cbn [dt_date]. unfold month_before.
      destruct (1 <? month (dt_date dt)); cbn [year month]; lia. }
    cbn [dt_date dt_micro] in E'.
    rewrite E'. unfold first_of_month. do 2 f_equal.
    unfold month_after, month_before.
    destruct (Z.ltb_spec 1 (month (dt_date dt))); cbn [year month].
    + destruct (Z.ltb_spec (month (dt_date dt) - 1) 12); [|lia]. f_equal; lia.
    + simpl. f_equal; lia.
  - destruct (next_month_returns dt V N) as [E Vb].
    rewrite E. simpl bind.
    assert (Vp : valid_datetime (mkdatetime (month_after (dt_date dt)) (dt_micro dt)))
      by (split; assumption).
    destruct (previous_month_returns _ Vp) as [E' _].
    { cbn [dt_date]. unfold month_after.
      destruct (month (dt_date dt) <? 12); cbn [year month]; lia. }
    cbn [dt_date dt_micro] in E'.
    rewrite E'. unfold first_of_month. do 2 f_equal.
    unfold month_after, month_before.
    destruct (Z.ltb_spec (month (dt_date dt)) 12); cbn [year month].
    + destruct (Z.ltb_spec 1 (month (dt_date dt) + 1)); [|lia]. f_equal; lia.
    + simpl. f_equal; lia.
Qed.

Lemma month_round_trip_witness :
  (prev <- get_previous_month (mkdatetime (mkdate 2025 1 15) 1000) ;; get_next_month prev)
  = Ok (mkdatetime (mkdate 2025 1 1) 1000).
Proof.
  assert (V : valid_datetime (mkdatetime (mkdate 2025 1 15) 1000))
    by (split; [reflexivity | unfold DAY_MICROS; simpl; lia]).
  destruct (month_round_trip _ V) as [H _]. apply H. simpl. lia.
Defined.

(* ===================================================================== *)
(** * Dates as strings: formatting and parsing                            *)
(* ===================================================================== *)

Lemma list_ascii_of_string_app (s1 s2 : string) :
  list_ascii_of_string (s1 ++ s2) = list_ascii_of_string s1 ++ list_ascii_of_string s2.
Proof. induction s1 as [|c s1 IH]; simpl; [reflexivity|now rewrite IH]. Qed.

Lemma digit_in_digit_char (v : Z) : digit_in 0 9 (digit_char v) = Some (v mod 10).
Proof.
  unfold digit_in, digit_char.
  pose proof (Z.mod_pos_bound v 10) as B.
  rewrite N_ascii_embedding by lia.
  rewrite Z2N.id by lia.
  replace (48 + v mod 10 - 48) with (v mod 10) by lia.
  assert (C : (0 <=? v mod 10) && (v mod 10 <=? 9) = true)
    by (apply andb_true_intro; split; apply Z.leb_le; lia).
  rewrite C. reflexivity.
Qed.

Lemma rx_Y_four_digits {A : Type} (k : Z -> rx A) (y : Z) (rest : list ascii) :
  0 <= y <= 9999 ->
  rx_Y k (list_ascii_of_string (four_digits y) ++ rest) = k y rest.
Proof.
  intros H. unfold rx_Y, four_digits, rx_digit. cbn [list_ascii_of_string app].
  rewrite !digit_in_digit_char. f_equal.
  replace (y / 1000) with (y / 10 / 10 / 10) by (rewrite !Z.div_div by lia; reflexivity).
  replace (y / 100) with (y / 10 / 10) by (rewrite !Z.div_div by lia; reflexivity).
  Z.div_mod_to_equations. lia.
Qed.

Lemma rx_m_two_digits {A : Type} (k : Z -> rx A) (m : Z) (rest : list ascii) (v : A) :
  1 <= m <= 12 -> k m rest = Some v ->
  rx_m k (list_ascii_of_string (two_digits m) ++ rest) = Some v.
Proof.
  intros H K.
  destruct (month_cases m H) as [E|[E|[E|[E|[E|[E|[E|[E|[E|[E|[E|E]]]]]]]]]]];
    subst m; cbv; rewrite K; reflexivity.
Qed.

Lemma day_cases (d : Z) :
  1 <= d <= 31 -> In d [1;2;3;4;5;6;7;8;9;10;11;12;13;14;15;16;17;18;19;20;
                         21;22;23;24;25;26;27;28;29;30;31].
Proof. intros H. simpl. lia. Qed.

Lemma rx_d_two_digits {A : Type} (k : Z -> rx A) (d : Z) (rest : list ascii) (v : A) :
  1 <= d <= 31 -> k d rest = Some v ->
  rx_d k (list_ascii_of_string (two_digits d) ++ rest) = Some v.
Proof.
  intros H K. apply day_cases in H. simpl in H.
  repeat (destruct H as [E|H]; [subst d; cbv; rewrite K; reflexivity|]).
  contradiction.
Qed.

Lemma strptime_Ymd_strftime (t : datetime) :
  valid_datetime t ->
  strptime_Ymd (strftime_Ymd t) = Ok (mkdatetime (dt_date t) 0).
Proof.
  intros [V _]. destruct (valid_date_fields _ V) as (Hy & Hm & Hd).
  pose proof (days_in_month_bounds (year (dt_date t)) (month (dt_date t)) Hm) as B.
  unfold strptime_Ymd, strftime_Ymd, strftime_Ym.
  rewrite !list_ascii_of_string_app, <- !app_assoc.
  rewrite rx_Y_four_digits by lia.
  cbn [list_ascii_of_string app rx_char]. rewrite Ascii.eqb_refl.
  erewrite rx_m_two_digits; [| lia |].
  2:{ cbn [list_ascii_of_string app rx_char]. rewrite Ascii.eqb_refl.
      rewrite <- (app_nil_r (list_ascii_of_string (two_digits (day (dt_date t))))).
      apply rx_d_two_digits; [lia|]. reflexivity. }
  unfold strptime_build. destruct (dt_date t) as [y m d]; simpl in *.
  unfold valid_date in V. rewrite V. reflexivity.
Qed.

Lemma parse_date_format_date (dt : datetime) :
  valid_datetime dt -> parse_date (format_date dt) = Some (mkdatetime (dt_date dt) 0).
Proof.
  intros V. unfold parse_date, format_date. rewrite (strptime_Ymd_strftime dt V). reflexivity.
Qed.

(** X4: a formatted date parses back to the day it came from, at midnight:
    [parse_date (format_date dt)] is that day and [is_valid_date] accepts
    the string.  Years from 1000 on, for which the four digits of [%Y] do
    not depend on the platform. *)
Theorem format_parse_round_trip (dt : datetime) :
  valid_datetime dt -> 1000 <= year (dt_date dt) ->
  parse_date (format_date dt) = Some (mkdatetime (dt_date dt) 0)
  /\ is_valid_date (format_date dt) = true
  /\ extract_year_month (format_date dt) = Some (year (dt_date dt), month (dt_date dt))
  /\ get_month_folder_from_string (format_date dt) = Some (get_month_folder_name dt).
Proof.
  intros V _.
  pose proof (parse_date_format_date dt V) as P.
  split; [exact P|].
  unfold is_valid_date, extract_year_month, get_month_folder_from_string.
  rewrite P. repeat split; reflexivity.
Qed.

Lemma format_parse_round_trip_witness :
  parse_date (format_date (mkdatetime (mkdate 2024 2 29) 5000))
  = Some (mkdatetime (mkdate 2024 2 29) 0).
Proof.
  apply (format_parse_round_trip (mkdatetime (mkdate 2024 2 29) 5000)).
  - split; [reflexivity | unfold DAY_MICROS; simpl; lia].
  - simpl. lia.
Defined.

Lemma parse_date_midnight (s : string) (dt : datetime) :
  parse_date s = Some dt -> dt_micro dt = 0.
Proof.
  unfold parse_date, strptime_Ymd, strptime_build.
  destruct (rx_Y _ _) as [[d [|c r]]|]; try discriminate.
  destruct (valid_dateb d); try discriminate.
  intros E. injection E as <-. reflexivity.
Qed.

(** X5: [format_date] after [parse_date] gives the canonical spelling of a
    date string: it parses to the same value, and parsing and formatting it
    again changes nothing. *)
Theorem parse_format_canonical (s : string) (dt : datetime) :
  parse_date s = Some dt -> 1000 <= year (dt_date dt) ->
  parse_date (format_date dt) = Some dt
  /\ (forall dt', parse_date (format_date dt) = Some dt' ->
                  format_date dt' = format_date dt).
Proof.
  intros P _. pose proof (parse_date_valid s dt P) as V.
  pose proof (parse_date_midnight s dt P) as M.
  assert (E : parse_date (format_date dt) = Some dt).
  { unfold parse_date, format_date. rewrite (strptime_Ymd_strftime dt V).
    destruct dt as [d m]. simpl in M. subst m. reflexivity. }
  split; [exact E|]. intros dt' E'. rewrite E in E'. injection E' as <-. reflexivity.
Qed.

Lemma parse_format_canonical_witness :
  format_date (mkdatetime (mkdate 2025 1 5) 0) = "2025-01-05"%string
  /\ parse_date "2025-01-05" = Some (mkdatetime (mkdate 2025 1 5) 0).
Proof.
  split; [reflexivity|].
  apply (parse_format_canonical "2025-1- 5" (mkdatetime (mkdate 2025 1 5) 0)).
  - reflexivity.
  - simpl. lia.
Defined.

(* ===================================================================== *)
(** * Month keys and month folders                                        *)
(* ===================================================================== *)

(** A decimal digit is neither whitespace, nor a sign, a dash or an
    underscore. *)
Lemma digit_is_plain (c : ascii) (v : Z) :
  digit_in 0 9 c = Some v ->
  is_whitespace c = false /\ Ascii.eqb c "-" = false
  /\ Ascii.eqb c "+" = false /\ Ascii.eqb c "_" = false.
Proof.
  destruct c as [[] [] [] [] [] [] [] []]; vm_compute; intros H;
    first [discriminate H | repeat split].
Qed.

Lemma digit_char_plain (v : Z) :
  is_whitespace (digit_char v) = false /\ Ascii.eqb (digit_char v) "-" = false
  /\ Ascii.eqb (digit_char v) "+" = false /\ Ascii.eqb (digit_char v) "_" = false.
Proof. eapply digit_is_plain. apply digit_in_digit_char. Qed.

Lemma int_digits_of_digits (l : list Z) (acc n : Z) :
  int_digits (map digit_char l) acc n
  = Some (fold_left (fun a v => 10 * a + v mod 10) l acc, n + Z.of_nat (List.length l)).
Proof.
  revert acc n. induction l as [|v l IH]; intros acc n.
  - simpl. do 2 f_equal. lia.
  - cbn [map int_digits]. rewrite digit_in_digit_char, IH. cbn [fold_left List.length].
    do 2 f_equal. lia.
Qed.

Lemma strip_whitespace_plain (l : list ascii) (c d : ascii) (r r' : list ascii) :
  l = c :: r -> rev l = d :: r' ->
  is_whitespace c = false -> is_whitespace d = false ->
  strip_whitespace l = l.
Proof.
  intros El Er Wc Wd. unfold strip_whitespace.
  rewrite El at 1. cbn [skip_whitespace]. rewrite Wc, <- El, Er.
  cbn [skip_whitespace]. rewrite Wd, <- Er. apply rev_involutive.
Qed.

(** [int] of two and of four digits. *)
Lemma py_int_two_digits (m : Z) : 0 <= m <= 99 -> py_int (two_digits m) = Ok m.
Proof.
  intros H. unfold py_int, two_digits. cbn [list_ascii_of_string].
  destruct (digit_char_plain (m / 10)) as (W1 & M & P & _).
  destruct (digit_char_plain m) as (W2 & _).
  rewrite (strip_whitespace_plain [digit_char (m / 10); digit_char m]
             (digit_char (m / 10)) (digit_char m) [digit_char m] [digit_char (m / 10)]
             eq_refl eq_refl W1 W2).
  assert (S : match digit_char (m / 10) :: [digit_char m] with
              | "-"%char :: r => (true, r)
              | "+"%char :: r => (false, r)
              | _ => (false, digit_char (m / 10) :: [digit_char m])
              end = (false, digit_char (m / 10) :: [digit_char m])).
  { destruct (digit_char (m / 10)) as [[] [] [] [] [] [] [] []]; try reflexivity;
      vm_compute in M, P; discriminate. }
  rewrite S. cbn [fst snd]. rewrite digit_in_digit_char.
  change [digit_char (m / 10); digit_char m] with (map digit_char [m / 10; m]).
  rewrite int_digits_of_digits. cbn [fold_left List.length].
  unfold MAX_STR_DIGITS.
  match goal with |- context [4300 <? ?n] => change (4300 <? n) with false end.
  cbv iota. f_equal.
  Z.div_mod_to_equations. lia.
Qed.

Lemma py_int_four_digits (y : Z) : 0 <= y <= 9999 -> py_int (four_digits y) = Ok y.
Proof.
  intros H. unfold py_int, four_digits. cbn [list_ascii_of_string].
  destruct (digit_char_plain (y / 1000)) as (W1 & M & P & _).
  destruct (digit_char_plain y) as (W2 & _).
  rewrite (strip_whitespace_plain
             [digit_char (y / 1000); digit_char (y / 100); digit_char (y / 10); digit_char y]
             (digit_char (y / 1000)) (digit_char y)
             [digit_char (y / 100); digit_char (y / 10); digit_char y]
             [digit_char (y / 10); digit_char (y / 100); digit_char (y / 1000)]
             eq_refl eq_refl W1 W2).
  set (r := [digit_char (y / 100); digit_char (y / 10); digit_char y]).
  assert (S : match digit_char (y / 1000) :: r with
              | "-"%char :: r => (true, r)
              | "+"%char :: r => (false, r)
              | _ => (false, digit_char (y / 1000) :: r)
              end = (false, digit_char (y / 1000) :: r)).
  { destruct (digit_char (y / 1000)) as [[] [] [] [] [] [] [] []]; try reflexivity;
      vm_compute in M, P; discriminate. }
  rewrite S. cbn [fst snd]. rewrite digit_in_digit_char. unfold r.
  change [digit_char (y / 1000); digit_char (y / 100); digit_char (y / 10); digit_char y]
    with (map digit_char [y / 1000; y / 100; y / 10; y]).
  rewrite int_digits_of_digits. cbn [fold_left List.length].
  unfold MAX_STR_DIGITS.
  match goal with |- context [4300 <? ?n] => change (4300 <? n) with false end.
  cbv iota. f_equal.
  replace (y / 1000) with (y / 10 / 10 / 10) by (rewrite !Z.div_div by lia; reflexivity).
  replace (y / 100) with (y / 10 / 10) by (rewrite !Z.div_div by lia; reflexivity).
  Z.div_mod_to_equations. lia.
Qed.

Lemma split_chars_no_sep (sep : ascii) (l cur : list ascii) :
  Forall (fun c => Ascii.eqb c sep = false) l ->
  forall rest, split_chars sep (l ++ rest) cur = split_chars sep rest (rev l ++ cur).
Proof.
  intros F. revert cur. induction F as [|c l C F IH]; intros cur rest; [reflexivity|].
  cbn [app split_chars]. rewrite C, IH. cbn [rev]. now rewrite <- app_assoc.
Qed.

Lemma string_of_list_ascii_digits (s s' : string) :
  list_ascii_of_string s = list_ascii_of_string s' -> s = s'.
Proof.
  intros E. rewrite <- (string_of_list_ascii_of_string s), E.
  apply string_of_list_ascii_of_string.
Qed.

(** A month key [YYYY-MM] splits at the dash into the year and the month,
    and [int] reads them back. *)
Lemma month_key_parts (y m : Z) :
  0 <= y <= 9999 -> 0 <= m <= 99 ->
  map py_int (split "-" (four_digits y ++ "-" ++ two_digits m)) = [Ok y; Ok m].
Proof.
  intros Hy Hm.
  assert (S : split "-" (four_digits y ++ "-" ++ two_digits m)
              = [four_digits y; two_digits m]).
  { unfold split. rewrite !list_ascii_of_string_app.
    assert (D : forall l, Forall (fun c => Ascii.eqb c "-" = false) (map digit_char l)).
    { intros l. apply Forall_forall. intros c I. apply in_map_iff in I.
      destruct I as (v & <- & _). apply digit_char_plain. }
    change (list_ascii_of_string (four_digits y))
      with (map digit_char [y / 1000; y / 100; y / 10; y]).
    change (list_ascii_of_string (two_digits m)) with (map digit_char [m / 10; m]).
    rewrite split_chars_no_sep by apply D.
    cbn [list_ascii_of_string app split_chars]. rewrite Ascii.eqb_refl.
    rewrite <- (app_nil_r (map digit_char [m / 10; m])).
    rewrite split_chars_no_sep by apply D.
    cbn [split_chars map]. rewrite !app_nil_r, !rev_involutive. reflexivity. }
  rewrite S. cbn [map]. rewrite py_int_four_digits, py_int_two_digits by lia. reflexivity.
Qed.

Lemma substring_all (s : string) : String.substring 0 (String.length s) s = s.
Proof. induction s as [|c s IH]; simpl; [reflexivity|now rewrite IH]. Qed.

Lemma folder_name_parts (key : string) :
  startswith ("data_" ++ key) "data_" = true /\ drop 5 ("data_" ++ key) = key.
Proof.
  unfold startswith, drop. split.
  - simpl. destruct key; reflexivity.
  - simpl. rewrite Nat.sub_0_r. apply substring_all.
Qed.

(** X6: [parse_month_folder_name] reads back the folder name of a date: the
    year and the month of the date; so two dates have one folder name only
    when they are of one month.  Years from 1000 on. *)
Theorem month_folder_round_trip (dt : datetime) :
  valid_datetime dt -> 1000 <= year (dt_date dt) ->
  parse_month_folder_name (get_month_folder_name dt)
  = Some (year (dt_date dt), month (dt_date dt))
  /\ (forall dt', valid_datetime dt' -> 1000 <= year (dt_date dt') ->
        get_month_folder_name dt' = get_month_folder_name dt ->
        year (dt_date dt') = year (dt_date dt) /\ month (dt_date dt') = month (dt_date dt)).
Proof.
  assert (R : forall t, valid_datetime t ->
            parse_month_folder_name (get_month_folder_name t)
            = Some (year (dt_date t), month (dt_date t))).
  { intros t [V _]. destruct (valid_date_fields _ V) as (Hy & Hm & _).
    unfold parse_month_folder_name, get_month_folder_name, strftime_Ym.
    destruct (folder_name_parts
                (four_digits (year (dt_date t)) ++ "-" ++ two_digits (month (dt_date t))))
      as [S D].
    rewrite S, D, month_key_parts by lia.
    assert (C : (1 <=? month (dt_date t)) && (month (dt_date t) <=? 12) = true)
      by (apply andb_true_intro; split; apply Z.leb_le; lia).
    rewrite C. reflexivity. }
  intros V _. split; [apply R; exact V|].
  intros dt' V' _ E. pose proof (R dt' V') as P. rewrite E, (R dt V) in P.
  injection P as -> ->. split; reflexivity.
Qed.

Lemma month_folder_round_trip_witness :
  parse_month_folder_name (get_month_folder_name (mkdatetime (mkdate 2025 10 27) 0))
  = Some (2025, 10).
Proof.
  apply (month_folder_round_trip (mkdatetime (mkdate 2025 10 27) 0)).
  - split; [reflexivity | unfold DAY_MICROS; simpl; lia].
  - simpl. lia.
Defined.

Lemma c_int_small (v : Z) : - 2147483648 <= v <= 2147483647 -> c_int v = true.
Proof.
  intros H. unfold c_int, C_INT_MIN, C_INT_MAX.
  apply andb_true_intro; split; apply Z.leb_le; lia.
Qed.

Lemma c_int_large (v : Z) : c_int v = false -> ~ (- 2147483648 <= v <= 2147483647).
Proof. intros H C. rewrite (c_int_small v C) in H. discriminate. Qed.

Lemma datetime_new_valid (y m d : Z) :
  valid_dateb (mkdate y m d) = true -> datetime_new y m d = Ok (mkdatetime (mkdate y m d) 0).
Proof.
  intros V. destruct (valid_date_fields _ V) as (Hy & Hm & Hd). cbn [year month day] in *.
  pose proof (days_in_month_bounds y m Hm).
  unfold datetime_new. rewrite !c_int_small by lia. rewrite V. reflexivity.
Qed.

Lemma datetime_new_invalid (y m d : Z) :
  valid_dateb (mkdate y m d) = false ->
  datetime_new y m d
  = Raise (if c_int y && c_int m && c_int d then ValueError else OverflowError).
Proof.
  intros V. unfold datetime_new. rewrite V. destruct (c_int y && c_int m && c_int d); reflexivity.
Qed.

(** X7: [get_month_name] gives the name of the month for a number from 1
    to 12, the one [format_month_display] begins with; the empty string for
    another number that fits a C integer, and [OverflowError] for a number
    that does not. *)
Theorem get_month_name_spec (m : Z) :
  (1 <= m <= 12 ->
   get_month_name m = Ok (month_name m) /\ month_name m <> EmptyString
   /\ forall dt, valid_datetime dt -> month (dt_date dt) = m ->
        format_month_display dt
        = (month_name m ++ " " ++ four_digits (year (dt_date dt)))%string)
  /\ (~ (1 <= m <= 12) -> c_int m = true -> get_month_name m = Ok EmptyString)
  /\ (c_int m = false -> get_month_name m = Raise OverflowError).
Proof.
  split; [|split].
  - intros H. unfold get_month_name.
    assert (V : valid_dateb (mkdate 2000 m 1) = true).
    { apply valid_date_intro; cbn [year month day]; try lia.
      pose proof (days_in_month_bounds 2000 m H). lia. }
    rewrite (datetime_new_valid _ _ _ V). split; [reflexivity|]. split.
    + destruct (month_cases m H) as [E|[E|[E|[E|[E|[E|[E|[E|[E|[E|[E|E]]]]]]]]]]];
        subst m; discriminate.
    + intros dt _ E. unfold format_month_display, strftime_BY. rewrite E. reflexivity.
  - intros N C. unfold get_month_name.
    assert (V : valid_dateb (mkdate 2000 m 1) = false).
    { destruct (valid_dateb (mkdate 2000 m 1)) eqn:V; [|reflexivity].
      destruct (valid_date_fields _ V) as (_ & Hm & _). cbn [month] in Hm. contradiction. }
    rewrite (datetime_new_invalid _ _ _ V), C. reflexivity.
  - intros C. unfold get_month_name, datetime_new. rewrite C. reflexivity.
Qed.

(** X8: [get_first_day_of_month] and [get_last_day_of_month] return for a
    year from 1 to 9999 and a month from 1 to 12, and what they return
    parses (years from 1000 on) to the first and to the last day of the
    month, the day before the next month.  Otherwise they raise:
    [ValueError], or [OverflowError] when the constructor is given a number
    that does not fit a C integer. *)
Theorem first_and_last_day_of_month (y m : Z) :
  (1 <= y <= 9999 /\ 1 <= m <= 12 ->
   exists first last,
     get_first_day_of_month y m = Ok first /\ get_last_day_of_month y m = Ok last
     /\ (1000 <= y ->
         parse_date first = Some (mkdatetime (mkdate y m 1) 0)
         /\ parse_date last = Some (mkdatetime (mkdate y m (days_in_month y m)) 0))
     /\ (~ (y = 9999 /\ m = 12) ->
         next_day (mkdate y m (days_in_month y m)) = month_after (mkdate y m 1)))
  /\ (~ (1 <= y <= 9999 /\ 1 <= m <= 12) ->
      get_first_day_of_month y m
      = Raise (if c_int y && c_int m then ValueError else OverflowError)
      /\ get_last_day_of_month y m
         = Raise (if (1 <=? m) && (m <=? 12)
                  then if c_int y then ValueError else OverflowError
                  else ValueError)).
Proof.
  split.
  - intros [Hy Hm]. pose proof (days_in_month_bounds y m Hm) as B.
    assert (V1 : valid_date (mkdate y m 1)) by (apply valid_date_intro; simpl; lia).
    assert (V2 : valid_date (mkdate y m (days_in_month y m)))
      by (apply valid_date_intro; simpl; lia).
    assert (Cm : (1 <=? m) && (m <=? 12) = true)
      by (apply andb_true_intro; split; apply Z.leb_le; lia).
    unfold get_first_day_of_month, get_last_day_of_month, monthrange_last.
    rewrite Cm. simpl bind.
    rewrite (datetime_new_valid _ _ _ V1), (datetime_new_valid _ _ _ V2). simpl bind.
    eexists _, _. split; [reflexivity|]. split; [reflexivity|]. split.
    + intros _. split.
      * apply (parse_date_format_date (mkdatetime (mkdate y m 1) 0)).
        split; [exact V1|unfold DAY_MICROS; simpl; lia].
      * apply (parse_date_format_date (mkdatetime (mkdate y m (days_in_month y m)) 0)).
        split; [exact V2|unfold DAY_MICROS; simpl; lia].
    + intros _. unfold next_day, month_after. cbn [year month day].
      rewrite Z.ltb_irrefl. reflexivity.
  - intros N.
    assert (F : forall d, valid_dateb (mkdate y m d) = false).
    { intros d. destruct (valid_dateb (mkdate y m d)) eqn:V; [|reflexivity].
      destruct (valid_date_fields _ V) as (Hy & Hm & _). cbn [year month] in *. lia. }
    unfold get_first_day_of_month, get_last_day_of_month, monthrange_last.
    rewrite (datetime_new_invalid _ _ _ (F 1)). split.
    + change (c_int 1) with true. rewrite andb_true_r. reflexivity.
    + destruct ((1 <=? m) && (m <=? 12)) eqn:Cm; [|reflexivity].
      apply andb_prop in Cm. destruct Cm as [A B]. apply Z.leb_le in A, B.
      simpl bind. rewrite (datetime_new_invalid _ _ _ (F _)).
      pose proof (days_in_month_bounds y m (conj A B)).
      rewrite (c_int_small m), (c_int_small (days_in_month y m)) by lia.
      rewrite !andb_true_r. reflexivity.
Qed.

(* ===================================================================== *)
(** * The filters without [exclude_future], and filters of filters       *)
(* ===================================================================== *)

Lemma filter_filter_and {A : Type} (f g : A -> bool) (l : list A) :
  filter f (filter g l) = filter (fun x => g x && f x) l.
Proof.
  induction l as [|x l IH]; [reflexivity|]. simpl.
  destruct (g x); simpl; [destruct (f x)|]; rewrite IH; reflexivity.
Qed.

(** The end of the month as [_filter_expenses_by_month] computes it. *)
Lemma month_end_is_last_day (t : datetime) :
  valid_datetime t -> month_in_range t ->
  (if month (dt_date t) =? 12
   then first <- replace t (Some (year (dt_date t) + 1)) (Some 1) (Some 1) ;;
        sub_days first 1
   else first <- replace t None (Some (month (dt_date t) + 1)) (Some 1) ;;
        sub_days first 1)
  = Ok (mkdatetime (last_of_month (dt_date t)) (dt_micro t)).
Proof.
  intros V R. pose proof V as [Vd M].
  destruct (valid_date_fields _ Vd) as (Hy & Hm & Hd).
  destruct (Z.eqb_spec (month (dt_date t)) 12) as [E|E].
  - assert (Y : year (dt_date t) < 9999) by (destruct R as [R|R]; unfold MAXYEAR in *; lia).
    unfold replace.
    assert (V1 : valid_date (mkdate (year (dt_date t) + 1) 1 1)).
    { apply valid_date_intro; simpl; try lia. unfold days_in_month; simpl; lia. }
    unfold valid_date in V1. rewrite V1. simpl bind.
    unfold sub_days. cbn [dt_date dt_micro].
    assert (C : (0 <? toordinal (mkdate (year (dt_date t) + 1) 1 1) - 1)
                && (toordinal (mkdate (year (dt_date t) + 1) 1 1) - 1 <=? MAXORDINAL) = true).
    { pose proof (toordinal_range _ V1).
      pose proof (toordinal_in_year (mkdate (year (dt_date t) + 1) 1 1) V1) as I.
      cbn [year] in I. pose proof (days_before_year_mono 1 (year (dt_date t))).
      pose proof (days_before_year_succ (year (dt_date t))).
      change (days_before_year 1) with 0 in *.
      apply andb_true_intro; split; [apply Z.ltb_lt|apply Z.leb_le];
        destruct (is_leap (year (dt_date t))); lia. }
    rewrite C. change (Z.to_nat 1) with 1%nat. cbn [days_back].
    unfold prev_day, last_of_month. cbn [year month day]. simpl (1 <? 1). cbv iota.
    rewrite E. replace (year (dt_date t) + 1 - 1) with (year (dt_date t)) by lia.
    reflexivity.
  - unfold replace.
    assert (V1 : valid_date (mkdate (year (dt_date t)) (month (dt_date t) + 1) 1)).
    { apply valid_date_intro; simpl; try lia.
      pose proof (days_in_month_bounds (year (dt_date t)) (month (dt_date t) + 1)). lia. }
    unfold valid_date in V1. rewrite V1. simpl bind.
    unfold sub_days. cbn [dt_date dt_micro].
    assert (C : (0 <? toordinal (mkdate (year (dt_date t)) (month (dt_date t) + 1) 1) - 1)
                && (toordinal (mkdate (year (dt_date t)) (month (dt_date t) + 1) 1) - 1
                    <=? MAXORDINAL) = true).
    { pose proof (toordinal_range _ V1). unfold toordinal in *. cbn [year month day] in *.
      pose proof (days_before_year_mono 1 (year (dt_date t))).
      change (days_before_year 1) with 0 in *.
      pose proof (month_end_before_next (year (dt_date t)) (month (dt_date t))
                    (month (dt_date t) + 1)).
      pose proof (month_end_in_year (year (dt_date t)) (month (dt_date t))).
      pose proof (days_in_month_bounds (year (dt_date t)) (month (dt_date t))).
      apply andb_true_intro; split; [apply Z.ltb_lt|apply Z.leb_le]; lia. }
    rewrite C. change (Z.to_nat 1) with 1%nat. cbn [days_back].
    unfold prev_day, last_of_month. cbn [year month day]. simpl (1 <? 1). cbv iota.
    assert (L : (1 <? month (dt_date t) + 1) = true) by (apply Z.ltb_lt; lia).
    rewrite L. replace (month (dt_date t) + 1 - 1) with (month (dt_date t)) by lia.
    reflexivity.
Qed.

Lemma month_filter_computed w l (t : datetime) (exclude_future : bool) :
  valid_datetime t -> month_in_range t ->
  _filter_expenses_by_month w l t exclude_future =
  Ok (_filter_expenses_by_date_range w l (Some (first_of_month t))
        (Some (if exclude_future then t
               else mkdatetime (last_of_month (dt_date t)) (dt_micro t))) (Some t)).
Proof.
  intros V R. unfold _filter_expenses_by_month.
  rewrite (replace_day_1 t V). simpl bind. fold (first_of_month t).
  rewrite (month_end_is_last_day t V R). reflexivity.
Qed.

Lemma kept_same_month (t c : datetime) (x : expense) :
  kept (Some (first_of_month t))
       (Some (mkdatetime (last_of_month (dt_date t)) (dt_micro t))) c x
  = dated_by (same_month (dt_date t)) x.
Proof.
  unfold kept, dated_by. destruct (parse_date (e_date x)) as [dt|] eqn:P; [|reflexivity].
  destruct (parse_date_valid _ _ P) as [Vd _].
  destruct (valid_date_fields _ Vd) as (_ & _ & Hd).
  unfold date_gtb, date_ltb, same_month, first_of_month, last_of_month.
  cbn [dt_date year month day].
  destruct (Z.eqb_spec (year (dt_date dt)) (year (dt_date t))) as [Ey|Ey].
  - destruct (Z.eqb_spec (month (dt_date dt)) (month (dt_date t))) as [Em|Em].
    + rewrite Ey, Em in *. rewrite !Z.ltb_irrefl, !Z.eqb_refl. simpl.
      destruct (Z.ltb_spec (day (dt_date dt)) 1); [lia|].
      destruct (Z.ltb_spec (days_in_month (year (dt_date t)) (month (dt_date t)))
                  (day (dt_date dt))); [lia|]. reflexivity.
    + rewrite Ey. rewrite !Z.ltb_irrefl, !Z.eqb_refl. simpl.
      destruct (Z.eqb_spec (month (dt_date t)) (month (dt_date dt))); [lia|].
      destruct (Z.ltb_spec (month (dt_date dt)) (month (dt_date t))),
               (Z.ltb_spec (month (dt_date t)) (month (dt_date dt))); simpl;
        try reflexivity; lia.
  - destruct (Z.eqb_spec (year (dt_date t)) (year (dt_date dt))); [lia|].
    destruct (Z.ltb_spec (year (dt_date dt)) (year (dt_date t))),
             (Z.ltb_spec (year (dt_date t)) (year (dt_date dt))); simpl;
      try reflexivity; lia.
Qed.

Lemma month_to_date_is_past_of_month (t : datetime) (x : expense) :
  dated_by (month_to_date (dt_date t)) x
  = dated_by (same_month (dt_date t)) x && kept None (Some t) t x.
Proof.
  unfold kept, dated_by. destruct (parse_date (e_date x)) as [dt|] eqn:P; [|reflexivity].
  unfold date_gtb, date_ltb, same_month, month_to_date. simpl.
  destruct (Z.eqb_spec (year (dt_date dt)) (year (dt_date t))) as [Ey|Ey]; [|reflexivity].
  destruct (Z.eqb_spec (month (dt_date dt)) (month (dt_date t))) as [Em|Em]; [|reflexivity].
  rewrite Ey, Em, !Z.ltb_irrefl, !Z.eqb_refl. simpl.
  destruct (Z.leb_spec (day (dt_date dt)) (day (dt_date t))),
           (Z.ltb_spec (day (dt_date t)) (day (dt_date dt))); simpl; try reflexivity; lia.
Qed.

(** X9: without [exclude_future], [_filter_expenses_by_month] keeps the
    expenses with a valid date in the calendar month of [month_date], those
    after [month_date] too; with it, what it keeps is the part of that list
    not after [month_date]. *)
Theorem month_filter_whole_month (w : world) (expenses : list expense) (t : datetime) :
  valid_datetime t -> month_in_range t ->
  _filter_expenses_by_month w expenses t false
  = Ok (filter (dated_by (same_month (dt_date t))) expenses)
  /\ _filter_expenses_by_month w expenses t true
     = Ok (_filter_past_expenses w
             (filter (dated_by (same_month (dt_date t))) expenses) (Some t)).
Proof.
  intros V R. rewrite !(month_filter_computed w expenses t _ V R). split.
  - rewrite range_is_filter. f_equal. apply filter_ext. intros x. apply kept_same_month.
  - unfold _filter_past_expenses. rewrite !range_is_filter. cbn [date_or_now].
    rewrite filter_filter_and. f_equal. apply filter_ext. intros x.
    rewrite kept_month_to_date. apply month_to_date_is_past_of_month.
Qed.

Lemma month_filter_whole_month_witness :
  _filter_expenses_by_month sample_world
    [mkexpense "2025-10-13" 10 "tea"; mkexpense "2025-10-20" 20 "ink";
     mkexpense "2025-11-01" 7 "pen"; mkexpense "2025-09-30" 5 "nib"]
    (at_date 2025 10 15) false
  = Ok [mkexpense "2025-10-13" 10 "tea"; mkexpense "2025-10-20" 20 "ink"].
Proof.
  refine (proj1 (month_filter_whole_month sample_world _ (at_date 2025 10 15) _ _)).
  - apply at_date_valid. reflexivity.
  - left. unfold MAXYEAR. simpl. lia.
Defined.

(** The week as [_filter_expenses_by_week] computes it. *)
Lemma week_filter_computed w l (t : datetime) (exclude_future : bool) :
  valid_datetime t -> week_in_range t ->
  valid_date (monday_of (dt_date t)) /\ valid_date (sunday_of (dt_date t))
  /\ toordinal (monday_of (dt_date t)) = toordinal (dt_date t) - weekday (dt_date t)
  /\ toordinal (sunday_of (dt_date t)) = toordinal (monday_of (dt_date t)) + 6
  /\ _filter_expenses_by_week w l t exclude_future =
     Ok (_filter_expenses_by_date_range w l
           (Some (mkdatetime (monday_of (dt_date t)) (dt_micro t)))
           (Some (if exclude_future then t
                  else mkdatetime (sunday_of (dt_date t)) (dt_micro t))) (Some t)).
Proof.
  intros V R. pose proof V as [Vd M].
  pose proof (weekday_range (dt_date t)) as WR.
  pose proof (weekday_le_ordinal (dt_date t) Vd) as WO.
  pose proof (toordinal_range _ Vd) as Rt.
  unfold week_in_range in R.
  unfold _filter_expenses_by_week, sub_days, sunday_of, monday_of.
  destruct (days_back_spec (Z.to_nat (weekday (dt_date t))) (dt_date t) Vd) as [Vm Om];
    [lia|]. rewrite Z2Nat.id in Om by lia.
  remember (days_back (Z.to_nat (weekday (dt_date t))) (dt_date t)) as monday eqn:Em.
  destruct (days_on_spec 6 monday Vm) as [Vs Os]; [change (Z.of_nat 6) with 6; lia|].
  change (Z.of_nat 6) with 6 in Os.
  remember (days_on 6 monday) as sunday eqn:Es.
  split; [exact Vm|]. split; [exact Vs|]. split; [exact Om|]. split; [exact Os|].
  assert (C : (0 <? toordinal (dt_date t) - weekday (dt_date t))
              && (toordinal (dt_date t) - weekday (dt_date t) <=? MAXORDINAL) = true).
  { apply andb_true_intro; split; [apply Z.ltb_lt|apply Z.leb_le]; lia. }
  rewrite C. cbn [bind].
  unfold add_days. cbn [dt_date dt_micro].
  assert (C' : (0 <? toordinal monday + 6) && (toordinal monday + 6 <=? MAXORDINAL) = true).
  { apply andb_true_intro; split; [apply Z.ltb_lt|apply Z.leb_le]; lia. }
  rewrite C'. cbn [bind]. change (Z.to_nat 6) with 6%nat. rewrite <- Es. reflexivity.
Qed.

Lemma dated_in_and_past (lo : date) (hi : date) (t : datetime) (x : expense) :
  valid_date lo -> valid_date hi -> valid_datetime t ->
  toordinal (dt_date t) <= toordinal hi ->
  dated_in (Some lo) (dt_date t) x = dated_in (Some lo) hi x && kept None (Some t) t x.
Proof.
  intros Vl Vh Vt H.
  rewrite (kept_dated_in None (Some t) t x) by (try discriminate; exact Vt).
  unfold dated_in, in_window. cbn [option_map upper].
  destruct (parse_date (e_date x)) as [dt|]; [|reflexivity].
  destruct (Z.leb_spec (toordinal lo) (toordinal (dt_date dt))),
           (Z.leb_spec (toordinal (dt_date dt)) (toordinal (dt_date t))),
           (Z.leb_spec (toordinal (dt_date dt)) (toordinal hi)); simpl; try reflexivity; lia.
Qed.

Lemma weekday_sunday (a b : date) :
  weekday a = 0 -> toordinal b = toordinal a + 6 -> weekday b = 6.
Proof.
  unfold weekday. intros H E. rewrite E. revert H. generalize (toordinal a). intros o H.
  Z.div_mod_to_equations. lia.
Qed.

(** X10: without [exclude_future], [_filter_expenses_by_week] keeps the
    expenses with a valid date from the Monday to the Sunday of the week of
    [week_date]; with it, the part of that list not after [week_date]. *)
Theorem week_filter_whole_week (w : world) (expenses : list expense) (t : datetime) :
  valid_datetime t -> week_in_range t ->
  weekday (monday_of (dt_date t)) = 0 /\ weekday (sunday_of (dt_date t)) = 6
  /\ toordinal (monday_of (dt_date t)) <= toordinal (dt_date t)
     <= toordinal (sunday_of (dt_date t))
  /\ _filter_expenses_by_week w expenses t false
     = Ok (filter (dated_in (Some (monday_of (dt_date t))) (sunday_of (dt_date t))) expenses)
  /\ _filter_expenses_by_week w expenses t true
     = Ok (_filter_past_expenses w
             (filter (dated_in (Some (monday_of (dt_date t))) (sunday_of (dt_date t)))
                     expenses) (Some t)).
Proof.
  intros V R.
  pose proof (weekday_range (dt_date t)) as WR.
  destruct (week_filter_computed w expenses t false V R) as (Vm & Vs & Om & Os & Ff).
  destruct (week_filter_computed w expenses t true V R) as (_ & _ & _ & _ & Ft).
  rewrite Ff, Ft. clear Ff Ft.
  assert (Wm : weekday (monday_of (dt_date t)) = 0)
    by (eapply weekday_of_ordinal; exact Om).
  split; [exact Wm|]. split.
  { exact (weekday_sunday _ _ Wm Os). }
  split; [lia|].
  assert (Vmt : valid_datetime (mkdatetime (monday_of (dt_date t)) (dt_micro t)))
    by (split; [exact Vm|apply V]).
  assert (Vst : valid_datetime (mkdatetime (sunday_of (dt_date t)) (dt_micro t)))
    by (split; [exact Vs|apply V]).
  assert (Kw : forall e x, valid_datetime e ->
             kept (Some (mkdatetime (monday_of (dt_date t)) (dt_micro t))) (Some e) t x
             = dated_in (Some (monday_of (dt_date t))) (dt_date e) x).
  { intros e x Ve.
    rewrite (kept_dated_in (Some (mkdatetime (monday_of (dt_date t)) (dt_micro t)))
               (Some e) t x).
    - reflexivity.
    - intros s E. injection E as <-. exact Vmt.
    - exact Ve. }
  split.
  - rewrite range_is_filter. f_equal. apply filter_ext. intros x.
    cbn [date_or_now]. rewrite (Kw _ x Vst). reflexivity.
  - unfold _filter_past_expenses. rewrite !range_is_filter. cbn [date_or_now].
    rewrite filter_filter_and. f_equal. apply filter_ext. intros x.
    rewrite (Kw t x V).
    apply (dated_in_and_past _ _ t x Vm Vs V). lia.
Qed.

Lemma week_filter_whole_week_witness :
  _filter_expenses_by_week sample_world
    [mkexpense "2025-10-13" 10 "tea"; mkexpense "2025-10-19" 20 "ink";
     mkexpense "2025-10-20" 7 "pen"; mkexpense "2025-10-12" 5 "nib"]
    (at_date 2025 10 15) false
  = Ok [mkexpense "2025-10-13" 10 "tea"; mkexpense "2025-10-19" 20 "ink"].
Proof.
  refine (proj1 (proj2 (proj2 (proj2
    (week_filter_whole_week sample_world _ (at_date 2025 10 15) _ _))))).
  - apply at_date_valid. reflexivity.
  - unfold week_in_range, MAXORDINAL. vm_compute. discriminate.
Defined.

Lemma date_ltb_prop (a b : date) :
  date_ltb a b = true <->
  year a < year b \/
  (year a = year b /\ (month a < month b \/ (month a = month b /\ day a < day b))).
Proof.
  unfold date_ltb.
  rewrite !orb_true_iff, !andb_true_iff, !orb_true_iff, !andb_true_iff,
    !Z.ltb_lt, !Z.eqb_eq. reflexivity.
Qed.

Lemma date_leb_prop (a b : date) :
  date_leb a b = true <->
  year a < year b \/
  (year a = year b /\ (month a < month b \/ (month a = month b /\ day a <= day b))).
Proof.
  unfold date_leb.
  rewrite !orb_true_iff, !andb_true_iff, !orb_true_iff, !andb_true_iff,
    !Z.ltb_lt, !Z.eqb_eq, Z.leb_le. reflexivity.
Qed.

Lemma date_gtb_leb_trans (d a b : date) :
  date_leb a b = true -> date_gtb d b = true -> date_gtb d a = true.
Proof.
  unfold date_gtb. rewrite date_leb_prop, !date_ltb_prop. lia.
Qed.

(** X11: the past filter at a date takes nothing more from what the past
    filter at a later date has kept than from the whole list, and what it
    keeps is a part of what the later one keeps: as the date goes on, the
    list of past expenses only grows. *)
Theorem past_filter_composes (w : world) (expenses : list expense) (t1 t2 : datetime) :
  date_leb (dt_date t1) (dt_date t2) = true ->
  _filter_past_expenses w (_filter_past_expenses w expenses (Some t2)) (Some t1)
  = _filter_past_expenses w expenses (Some t1)
  /\ Subseq (_filter_past_expenses w expenses (Some t1))
            (_filter_past_expenses w expenses (Some t2))
  /\ snd (calculate_median_expense w expenses (Some t1))
     <= snd (calculate_median_expense w expenses (Some t2)).
Proof.
  intros L.
  assert (E : _filter_past_expenses w (_filter_past_expenses w expenses (Some t2)) (Some t1)
              = _filter_past_expenses w expenses (Some t1)).
  { unfold _filter_past_expenses. rewrite !range_is_filter. cbn [date_or_now].
    apply filter_filter_implied. intros x. unfold kept.
    destruct (parse_date (e_date x)) as [dt|]; [|discriminate]. simpl.
    destruct (date_gtb (dt_date dt) (dt_date t2)) eqn:G; [|reflexivity].
    rewrite (date_gtb_leb_trans _ _ _ L G). discriminate. }
  assert (S : Subseq (_filter_past_expenses w expenses (Some t1))
                     (_filter_past_expenses w expenses (Some t2))).
  { rewrite <- E. unfold _filter_past_expenses at 1. rewrite range_is_filter.
    apply filter_Subseq. }
  split; [exact E|]. split; [exact S|].
  assert (Len : forall (A : Type) (a b : list A), Subseq a b ->
                  (List.length a <= List.length b)%nat).
  { intros A a b H. induction H; simpl; lia. }
  apply Len in S. unfold calculate_median_expense. cbn [date_or_now].
  assert (SL : forall l : list expense,
             List.length (sorted Qle_bool (map e_amount l)) = List.length l).
  { intros l. rewrite (Permutation_length (sorted_perm Qle_bool (map e_amount l))).
    apply length_map. }
  destruct (_filter_past_expenses w expenses (Some t1)) as [|a1 l1] eqn:E1;
    destruct (_filter_past_expenses w expenses (Some t2)) as [|a2 l2] eqn:E2;
    cbn [snd]; rewrite ?SL; simpl in *; lia.
Qed.

Lemma past_filter_composes_witness :
  Subseq (_filter_past_expenses sample_world
            [mkexpense "2025-10-13" 10 "tea"; mkexpense "2025-10-20" 20 "ink"]
            (Some (at_date 2025 10 15)))
         (_filter_past_expenses sample_world
            [mkexpense "2025-10-13" 10 "tea"; mkexpense "2025-10-20" 20 "ink"]
            (Some (at_date 2025 10 31))).
Proof.
  refine (proj1 (proj2 (past_filter_composes sample_world _
                          (at_date 2025 10 15) (at_date 2025 10 31) _))).
  reflexivity.
Defined.

(* ===================================================================== *)
(** * The largest expense, the median and the counts                      *)
(* ===================================================================== *)

Lemma max_by_amount_first (l : list expense) (best : expense) :
  exists p s,
    best :: l = p ++ max_by_amount best l :: s
    /\ Forall (fun y => (e_amount y < e_amount (max_by_amount best l))%Q) p
    /\ Forall (fun y => (e_amount y <= e_amount (max_by_amount best l))%Q) s.
Proof.
  revert best. induction l as [|e r IH]; intros best.
  - exists [], []. simpl. repeat split; constructor.
  - cbn [max_by_amount]. destruct (Qltb (e_amount best) (e_amount e)) eqn:L.
    + apply Qltb_lt in L. destruct (IH e) as (p & s & E & Fp & Fs).
      exists (best :: p), s. split; [simpl; f_equal; exact E|]. split; [|exact Fs].
      constructor; [|exact Fp].
      destruct p as [|x p].
      * simpl in E. injection E as E _. rewrite <- E. exact L.
      * simpl in E. injection E as E _. subst x.
        apply Forall_inv in Fp. eapply Qlt_trans; eassumption.
    + apply Qltb_ge in L. destruct (IH best) as (p & s & E & Fp & Fs).
      destruct p as [|x p].
      * simpl in E. injection E as E1 E2. exists [], (e :: s).
        split; [simpl; rewrite <- E1, <- E2; reflexivity|]. split; [constructor|].
        constructor; [|exact Fs]. rewrite <- E1. exact L.
      * simpl in E. injection E as E1 E2. subst x.
        exists (best :: e :: p), s. split; [simpl; do 2 f_equal; exact E2|].
        split; [|exact Fs].
        pose proof (Forall_inv Fp) as B. apply Forall_inv_tail in Fp.
        constructor; [exact B|]. constructor; [|exact Fp].
        eapply Qle_lt_trans; eassumption.
Qed.

(** X12: [calculate_largest_expense] gives the amount and the description of
    the first of the past expenses whose amount no other one exceeds: the
    amounts before it are smaller, those after it are not greater. *)
Theorem largest_is_first_maximum (w : world) (expenses : list expense)
    (current_date : option datetime) :
  _filter_past_expenses w expenses current_date <> [] ->
  exists p x s,
    _filter_past_expenses w expenses current_date = p ++ x :: s
    /\ calculate_largest_expense w expenses current_date = (e_amount x, e_description x)
    /\ Forall (fun y => (e_amount y < e_amount x)%Q) p
    /\ Forall (fun y => (e_amount y <= e_amount x)%Q) s.
Proof.
  intros NE. unfold calculate_largest_expense. fold (date_or_now w current_date).
  rewrite past_given.
  destruct (_filter_past_expenses w expenses current_date) as [|first rest]; [congruence|].
  destruct (max_by_amount_first rest first) as (p & s & E & Fp & Fs).
  exists p, (max_by_amount first rest), s. repeat split; assumption.
Qed.

Lemma largest_is_first_maximum_witness :
  exists p x s,
    _filter_past_expenses sample_world
      [mkexpense "2025-10-13" 10 "tea"; mkexpense "2025-10-14" 20 "ink";
       mkexpense "2025-10-15" 20 "pen"; mkexpense "2025-10-20" 50 "nib"] None
    = p ++ x :: s
    /\ calculate_largest_expense sample_world
         [mkexpense "2025-10-13" 10 "tea"; mkexpense "2025-10-14" 20 "ink";
          mkexpense "2025-10-15" 20 "pen"; mkexpense "2025-10-20" 50 "nib"] None
       = (e_amount x, e_description x)
    /\ Forall (fun y => (e_amount y < e_amount x)%Q) p
    /\ Forall (fun y => (e_amount y <= e_amount x)%Q) s.
Proof.
  apply (largest_is_first_maximum sample_world
           [mkexpense "2025-10-13" 10 "tea"; mkexpense "2025-10-14" 20 "ink";
            mkexpense "2025-10-15" 20 "pen"; mkexpense "2025-10-20" 50 "nib"] None).
  vm_compute. discriminate.
Defined.

(** ** The median *)

Lemma Qle_bool_total (a b : Q) : Qle_bool a b = true \/ Qle_bool b a = true.
Proof.
  rewrite !Qle_bool_iff. destruct (Qlt_le_dec a b) as [H|H];
    [left; apply Qlt_le_weak; exact H|right; exact H].
Qed.

Lemma Qle_bool_trans (a b c : Q) :
  Qle_bool a b = true -> Qle_bool b c = true -> Qle_bool a c = true.
Proof. rewrite !Qle_bool_iff. apply Qle_trans. Qed.

Lemma filter_length_le {A : Type} (f : A -> bool) (l : list A) :
  (List.length (filter f l) <= List.length l)%nat.
Proof. induction l as [|x l IH]; simpl; [lia|]. destruct (f x); simpl; lia. Qed.

Lemma filter_all {A : Type} (f : A -> bool) (l : list A) :
  Forall (fun a => f a = true) l -> filter f l = l.
Proof.
  induction 1 as [|x l H _ IH]; simpl; [reflexivity|]. rewrite H, IH. reflexivity.
Qed.

Lemma filter_length_mono {A : Type} (f g : A -> bool) (l : list A) :
  (forall a, f a = true -> g a = true) ->
  (List.length (filter f l) <= List.length (filter g l))%nat.
Proof.
  intros H. induction l as [|x l IH]; simpl; [lia|].
  destruct (f x) eqn:F; [rewrite (H x F); simpl; lia|].
  destruct (g x); simpl; lia.
Qed.

Lemma filter_length_perm {A : Type} (f : A -> bool) (l l' : list A) :
  Permutation l l' -> List.length (filter f l) = List.length (filter f l').
Proof.
  induction 1 as [|x l l' _ IH|x y l|l l' l'' _ IH1 _ IH2]; simpl.
  - reflexivity.
  - destruct (f x); simpl; lia.
  - destruct (f x), (f y); reflexivity.
  - lia.
Qed.

Lemma sorted_around {A : Type} (R : A -> A -> Prop) (l1 l2 : list A) (m : A) :
  (forall a b c, R a b -> R b c -> R a c) ->
  StronglySorted R (l1 ++ m :: l2) ->
  Forall (fun a => R a m) l1 /\ Forall (fun a => R m a) l2.
Proof.
  intros T. induction l1 as [|x l1 IH]; simpl; intros S.
  - apply StronglySorted_inv in S. destruct S as [_ F]. split; [constructor|exact F].
  - apply StronglySorted_inv in S. destruct S as [S F].
    destruct (IH S) as [F1 F2]. split; [|exact F2].
    constructor; [|exact F1].
    rewrite Forall_forall in F. apply F. apply in_or_app. right. left. reflexivity.
Qed.

(** In a sorted list of amounts, the element at [k] has at least [k + 1]
    elements not above it and at least [length - k] not below it. *)
Lemma sorted_nth_counts (s : list Q) (k : nat) :
  StronglySorted (fun a b => Qle_bool a b = true) s ->
  (k < List.length s)%nat ->
  (k + 1 <= List.length (filter (fun a => Qle_bool a (nth k s 0%Q)) s))%nat
  /\ (List.length s - k <= List.length (filter (fun a => Qle_bool (nth k s 0%Q) a) s))%nat.
Proof.
  intros S K. destruct (nth_split s 0%Q K) as (l1 & l2 & E & L).
  revert E. generalize (nth k s 0%Q). intros m E. subst s.
  assert (Rm : Qle_bool m m = true) by (apply Qle_bool_iff, Qle_refl).
  destruct (sorted_around _ l1 l2 m Qle_bool_trans S) as [F1 F2].
  rewrite !filter_app. cbn [filter]. rewrite Rm.
  rewrite (filter_all (fun a => Qle_bool a m) l1 F1).
  rewrite (filter_all (fun a => Qle_bool m a) l2 F2).
  rewrite !length_app. cbn [List.length]. lia.
Qed.

Lemma Qhalf_between (a b : Q) : (a <= b -> a <= (a + b) / 2 <= b)%Q.
Proof.
  intros H. split.
  - apply Qle_shift_div_l; [reflexivity|]. lra.
  - apply Qle_shift_div_r; [reflexivity|]. lra.
Qed.

Lemma sorted_nth_le (s : list Q) (i j : nat) :
  StronglySorted (fun a b => Qle_bool a b = true) s ->
  (i <= j)%nat -> (j < List.length s)%nat ->
  (nth i s 0 <= nth j s 0)%Q.
Proof.
  intros S. revert i j. induction S as [|x l S IH F]; intros i j IJ J; [simpl in J; lia|].
  destruct j as [|j].
  - assert (i = 0)%nat by lia. subst i. apply Qle_refl.
  - destruct i as [|i].
    + simpl. apply Qle_bool_iff. rewrite Forall_forall in F. apply F.
      apply nth_In. simpl in J. lia.
    + simpl. apply IH; simpl in J; lia.
Qed.

(** X13: [calculate_median_expense] counts the past expenses, and at least
    half of them have an amount that is not above the median it gives, at
    least half an amount that is not below it. *)
Theorem median_splits_in_halves (w : world) (expenses : list expense)
    (current_date : option datetime) :
  _filter_past_expenses w expenses current_date <> [] ->
  let past := _filter_past_expenses w expenses current_date in
  let median := fst (calculate_median_expense w expenses current_date) in
  let n := snd (calculate_median_expense w expenses current_date) in
  n = Z.of_nat (List.length past)
  /\ n <= 2 * Z.of_nat (List.length (filter (fun x => Qle_bool (e_amount x) median) past))
  /\ n <= 2 * Z.of_nat (List.length (filter (fun x => Qle_bool median (e_amount x)) past)).
Proof.
  intros NE past median n. subst median n.
  unfold calculate_median_expense. fold (date_or_now w current_date). rewrite past_given.
  fold past. fold past in NE.
  assert (P : Permutation (sorted Qle_bool (map e_amount past)) (map e_amount past))
    by apply sorted_perm.
  pose proof (sorted_sorted Qle_bool Qle_bool_total Qle_bool_trans (map e_amount past)) as S.
  assert (Len : List.length (sorted Qle_bool (map e_amount past)) = List.length past)
    by (rewrite (Permutation_length P); apply length_map).
  assert (Cnt : forall f : Q -> bool,
             List.length (filter (fun x => f (e_amount x)) past)
             = List.length (filter f (sorted Qle_bool (map e_amount past)))).
  { intros f. rewrite (filter_length_perm f _ _ P).
    clear. induction past as [|x l IH]; simpl; [reflexivity|].
    destruct (f (e_amount x)); simpl; rewrite IH; reflexivity. }
  destruct past as [|x0 rest] eqn:Ep; [congruence|]. rewrite <- Ep in *. clear NE.
  assert (Pos : (0 < List.length past)%nat) by (rewrite Ep; simpl; lia).
  clear Ep x0 rest.
  remember (sorted Qle_bool (map e_amount past)) as s eqn:Es. clear Es P.
  cbn [fst snd]. rewrite Len. split; [reflexivity|].
  remember (List.length past) as len eqn:El. clear El.
  destruct (Z.eqb_spec (Z.of_nat len mod 2) 0) as [Ev|Od].
  - (* an even count: the mean of the two middle amounts *)
    assert (H1 : (Z.to_nat (Z.of_nat len / 2 - 1) < List.length s)%nat)
      by (rewrite Len; apply Nat2Z.inj_lt; rewrite Z2Nat.id;
          Z.div_mod_to_equations; lia).
    assert (H2 : (Z.to_nat (Z.of_nat len / 2) < List.length s)%nat)
      by (rewrite Len; apply Nat2Z.inj_lt; rewrite Z2Nat.id;
          Z.div_mod_to_equations; lia).
    assert (H12 : (Z.to_nat (Z.of_nat len / 2 - 1) <= Z.to_nat (Z.of_nat len / 2))%nat)
      by (apply Z2Nat.inj_le; Z.div_mod_to_equations; lia).
    pose proof (sorted_nth_le s _ _ S H12 H2) as Le.
    destruct (Qhalf_between _ _ Le) as [Lo Hi].
    destruct (sorted_nth_counts s _ S H1) as [C1 _].
    destruct (sorted_nth_counts s _ S H2) as [_ C2].
    match goal with
    | |- context [filter (fun x => Qle_bool (e_amount x) ?m) past] =>
        rewrite (Cnt (fun a => Qle_bool a m)), (Cnt (fun a => Qle_bool m a))
    end. split.
    + pose proof (filter_length_mono
                    (fun a => Qle_bool a (nth (Z.to_nat (Z.of_nat len / 2 - 1)) s 0%Q))
                    (fun a => Qle_bool a
                       ((nth (Z.to_nat (Z.of_nat len / 2 - 1)) s 0
                         + nth (Z.to_nat (Z.of_nat len / 2)) s 0) / 2)%Q) s) as M.
      cbv beta in M.
      assert (I : forall a,
                 Qle_bool a (nth (Z.to_nat (Z.of_nat len / 2 - 1)) s 0%Q) = true ->
                 Qle_bool a ((nth (Z.to_nat (Z.of_nat len / 2 - 1)) s 0
                              + nth (Z.to_nat (Z.of_nat len / 2)) s 0) / 2)%Q = true).
      { intros a. rewrite !Qle_bool_iff. intros Ha. eapply Qle_trans; eassumption. }
      specialize (M I).
      assert (Z.of_nat (Z.to_nat (Z.of_nat len / 2 - 1)) = Z.of_nat len / 2 - 1)
        by (apply Z2Nat.id; Z.div_mod_to_equations; lia).
      Z.div_mod_to_equations. lia.
    + pose proof (filter_length_mono
                    (fun a => Qle_bool (nth (Z.to_nat (Z.of_nat len / 2)) s 0%Q) a)
                    (fun a => Qle_bool
                       ((nth (Z.to_nat (Z.of_nat len / 2 - 1)) s 0
                         + nth (Z.to_nat (Z.of_nat len / 2)) s 0) / 2)%Q a) s) as M.
      cbv beta in M.
      assert (I : forall a,
                 Qle_bool (nth (Z.to_nat (Z.of_nat len / 2)) s 0%Q) a = true ->
                 Qle_bool ((nth (Z.to_nat (Z.of_nat len / 2 - 1)) s 0
                            + nth (Z.to_nat (Z.of_nat len / 2)) s 0) / 2)%Q a = true).
      { intros a. rewrite !Qle_bool_iff. intros Ha. eapply Qle_trans; eassumption. }
      specialize (M I).
      assert (Z.of_nat (Z.to_nat (Z.of_nat len / 2)) = Z.of_nat len / 2)
        by (apply Z2Nat.id; Z.div_mod_to_equations; lia).
      Z.div_mod_to_equations. lia.
  - (* an odd count: the middle amount *)
    assert (H2 : (Z.to_nat (Z.of_nat len / 2) < List.length s)%nat)
      by (rewrite Len; apply Nat2Z.inj_lt; rewrite Z2Nat.id;
          Z.div_mod_to_equations; lia).
    destruct (sorted_nth_counts s _ S H2) as [C1 C2].
    match goal with
    | |- context [filter (fun x => Qle_bool (e_amount x) ?m) past] =>
        rewrite (Cnt (fun a => Qle_bool a m)), (Cnt (fun a => Qle_bool m a))
    end.
    assert (Z.of_nat (Z.to_nat (Z.of_nat len / 2)) = Z.of_nat len / 2)
      by (apply Z2Nat.id; Z.div_mod_to_equations; lia).
    split; Z.div_mod_to_equations; lia.
Qed.

Lemma median_splits_in_halves_witness :
  snd (calculate_median_expense sample_world
         [mkexpense "2025-10-13" 10 "tea"; mkexpense "2025-10-14" 30 "ink";
          mkexpense "2025-10-20" 50 "nib"] None)
  = Z.of_nat (List.length
                (_filter_past_expenses sample_world
                   [mkexpense "2025-10-13" 10 "tea"; mkexpense "2025-10-14" 30 "ink";
                    mkexpense "2025-10-20" 50 "nib"] None)).
Proof.
  refine (proj1 (median_splits_in_halves sample_world
                   [mkexpense "2025-10-13" 10 "tea"; mkexpense "2025-10-14" 30 "ink";
                    mkexpense "2025-10-20" 50 "nib"] None _)).
  vm_compute. discriminate.
Defined.

Lemma date_leb_not_gtb (a b : date) : date_leb a b = negb (date_gtb a b).
Proof.
  unfold date_gtb.
  destruct (date_leb a b) eqn:L, (date_ltb b a) eqn:G; try reflexivity; exfalso.
  - apply date_leb_prop in L. apply date_ltb_prop in G. lia.
  - assert (~ date_leb a b = true) as NL by congruence.
    assert (~ date_ltb b a = true) as NG by congruence.
    rewrite date_leb_prop in NL. rewrite date_ltb_prop in NG. lia.
Qed.

(** X14: the number of expenses the dashboard shows is the count
    [calculate_median_expense] gives at the date of the clock: the number
    of expenses with a valid date that is not after today. *)
Theorem dashboard_count_is_median_count (w : world) (expenses : list expense) :
  expense_count w expenses = snd (calculate_median_expense w expenses None)
  /\ expense_count w expenses
     = Z.of_nat (List.length (_filter_past_expenses w expenses None)).
Proof.
  assert (E : expense_count w expenses
              = Z.of_nat (List.length (_filter_past_expenses w expenses None))).
  { unfold expense_count. rewrite past_is_filter. cbn [date_or_now].
    do 2 f_equal. apply filter_ext. intros x. unfold kept.
    destruct (parse_date (e_date x)) as [dt|]; [|reflexivity].
    rewrite date_leb_not_gtb. reflexivity. }
  split; [|exact E]. rewrite E.
  unfold calculate_median_expense.
  change (Some (now w)) with (Some (date_or_now w None)). rewrite past_given.
  destruct (_filter_past_expenses w expenses None) as [|x l] eqn:P; [reflexivity|].
  cbn [snd]. rewrite (Permutation_length (sorted_perm Qle_bool (map e_amount (x :: l)))).
  rewrite length_map. reflexivity.
Qed.


(* ===================================================================== *)
(** * The progress through the month                                      *)
(* ===================================================================== *)

Lemma Qfloor_unique (x : Q) (z : Z) :
  (inject_Z z <= x)%Q -> (x < inject_Z (z + 1))%Q -> Qfloor x = z.
Proof.
  intros L U.
  pose proof (Qfloor_resp_le _ _ L) as A. rewrite Qfloor_Z in A.
  pose proof (Qfloor_le x) as B.
  assert (C : (inject_Z (Qfloor x) < inject_Z (z + 1))%Q) by (eapply Qle_lt_trans; eassumption).
  rewrite <- Zlt_Qlt in C. lia.
Qed.

Lemma week_number_parts (b r : Z) :
  (inject_Z b + inject_Z r / 10 == inject_Z (10 * b + r) / 10)%Q.
Proof. rewrite inject_Z_plus, inject_Z_mult. field. Qed.

Lemma week_number_lt (b1 r1 b2 r2 : Z) :
  10 * b1 + r1 < 10 * b2 + r2 ->
  (inject_Z b1 + inject_Z r1 / 10 < inject_Z b2 + inject_Z r2 / 10)%Q.
Proof.
  intros H. rewrite !week_number_parts.
  apply Qmult_lt_r; [apply Qinv_lt_0_compat; reflexivity|].
  rewrite <- Zlt_Qlt. exact H.
Qed.

Lemma week_number_floor (b r : Z) :
  0 <= r <= 9 -> Qfloor (inject_Z b + inject_Z r / 10) = b.
Proof.
  intros H. apply Qfloor_unique.
  - rewrite <- (Qplus_0_r (inject_Z b)) at 1. apply Qplus_le_r.
    apply Qle_shift_div_l; [reflexivity|]. rewrite Qmult_0_l.
    change 0%Q with (inject_Z 0). rewrite <- Zle_Qle. lia.
  - rewrite inject_Z_plus. apply Qplus_lt_r.
    apply Qlt_shift_div_r; [reflexivity|]. rewrite Qmult_1_l.
    change 10%Q with (inject_Z 10). rewrite <- Zlt_Qlt. lia.
Qed.

(** X16: at a valid date, [calculate_day_progress] gives the day of the month
    and the number of days of the month, the day within it; the whole part
    of the week number of [calculate_week_progress] is the number of the
    week of the month the day is in, from 1 to the number of weeks it
    gives, which is 4 for a month of 28 days and 5 for every other. *)
Theorem progress_within_month (w : world) (current_date : option datetime) :
  valid_datetime (date_or_now w current_date) ->
  fst (calculate_day_progress w current_date) = day (dt_date (date_or_now w current_date))
  /\ 1 <= fst (calculate_day_progress w current_date)
       <= snd (calculate_day_progress w current_date)
  /\ 28 <= snd (calculate_day_progress w current_date) <= 31
  /\ Qfloor (fst (calculate_week_progress w current_date))
     = (fst (calculate_day_progress w current_date) - 1) / 7 + 1
  /\ 1 <= Qfloor (fst (calculate_week_progress w current_date))
       <= snd (calculate_week_progress w current_date)
  /\ 4 <= snd (calculate_week_progress w current_date) <= 5
  /\ (snd (calculate_week_progress w current_date) = 4
      <-> snd (calculate_day_progress w current_date) = 28).
Proof.
  intros [V _]. destruct (valid_date_fields _ V) as (Hy & Hm & Hd).
  pose proof (days_in_month_bounds (year (dt_date (date_or_now w current_date)))
                (month (dt_date (date_or_now w current_date))) Hm) as B.
  unfold calculate_day_progress, calculate_week_progress, monthrange_days.
  fold (date_or_now w current_date). cbn [fst snd].
  revert Hd B.
  generalize (days_in_month (year (dt_date (date_or_now w current_date)))
                (month (dt_date (date_or_now w current_date)))).
  generalize (day (dt_date (date_or_now w current_date))).
  intros d n Hd B.
  assert (F : Qfloor (inject_Z ((d - 1) / 7 + 1) + inject_Z ((d - 1) mod 7) / 10)
              = (d - 1) / 7 + 1).
  { apply week_number_floor. Z.div_mod_to_equations. lia. }
  rewrite F.
  split; [reflexivity|]. split; [lia|]. split; [lia|]. split; [reflexivity|].
  assert (K : n / 7 + (if 0 <? n mod 7 then 1 else 0) = if n =? 28 then 4 else 5).
  { destruct (Z.eqb_spec n 28) as [->|N]; [reflexivity|].
    destruct (Z.ltb_spec 0 (n mod 7)); Z.div_mod_to_equations; lia. }
  rewrite K. destruct (Z.eqb_spec n 28) as [->|N].
  - split; [Z.div_mod_to_equations; lia|]. split; [lia|]. split; reflexivity.
  - split; [Z.div_mod_to_equations; lia|]. split; [lia|]. split; intros; lia.
Qed.

Lemma progress_within_month_witness :
  Qfloor (fst (calculate_week_progress sample_world None))
  = (fst (calculate_day_progress sample_world None) - 1) / 7 + 1.
Proof.
  refine (proj1 (proj2 (proj2 (proj2 (progress_within_month sample_world None _))))).
  apply at_date_valid. reflexivity.
Defined.

(** X17: the week number of [calculate_week_progress] grows with the day of
    the month, and its whole part is the number of weeks
    [calculate_weekly_average] divides by. *)
Theorem week_progress_grows (w : world) (t1 t2 : datetime) :
  1 <= day (dt_date t1) -> day (dt_date t1) < day (dt_date t2) ->
  (fst (calculate_week_progress w (Some t1)) < fst (calculate_week_progress w (Some t2)))%Q
  /\ (forall expenses r,
        expenses <> [] ->
        calculate_weekly_average w expenses (Some t2) = Ok r ->
        snd r = Qfloor (fst (calculate_week_progress w (Some t2)))).
Proof.
  intros H1 H2. unfold calculate_week_progress. cbn [fst]. split.
  - apply week_number_lt. Z.div_mod_to_equations. lia.
  - intros expenses r NE E.
    assert (F : Qfloor (inject_Z ((day (dt_date t2) - 1) / 7 + 1)
                        + inject_Z ((day (dt_date t2) - 1) mod 7) / 10)
                = (day (dt_date t2) - 1) / 7 + 1).
    { apply week_number_floor. Z.div_mod_to_equations. lia. }
    rewrite F. unfold calculate_weekly_average in E.
    destruct expenses as [|x l]; [congruence|].
    destruct (_filter_expenses_by_month w (x :: l) t2 true); simpl in E; [|discriminate].
    injection E as <-. reflexivity.
Qed.

Lemma week_progress_grows_witness :
  (fst (calculate_week_progress sample_world (Some (at_date 2025 10 7)))
   < fst (calculate_week_progress sample_world (Some (at_date 2025 10 8))))%Q.
Proof.
  refine (proj1 (week_progress_grows sample_world (at_date 2025 10 7) (at_date 2025 10 8) _ _)).
  - simpl. lia.
  - simpl. lia.
Defined.

(* ===================================================================== *)
(** * The month viewed: the context date and the month before             *)
(* ===================================================================== *)

Lemma strptime_Ym_key (y m : Z) :
  1 <= y <= 9999 -> 1 <= m <= 12 ->
  strptime_Ym (four_digits y ++ "-" ++ two_digits m) = Ok (mkdatetime (mkdate y m 1) 0).
Proof.
  intros Hy Hm. unfold strptime_Ym.
  rewrite !list_ascii_of_string_app.
  rewrite rx_Y_four_digits by lia.
  cbn [list_ascii_of_string app rx_char]. rewrite Ascii.eqb_refl.
  rewrite <- (app_nil_r (list_ascii_of_string (two_digits m))).
  erewrite rx_m_two_digits; [|lia|reflexivity].
  unfold strptime_build.
  assert (V : valid_dateb (mkdate y m 1) = true).
  { apply valid_date_intro; cbn [year month day]; try lia.
    pose proof (days_in_month_bounds y m Hm). lia. }
  rewrite V. reflexivity.
Qed.

Lemma key_not_empty (y m : Z) :
  exists c k, (four_digits y ++ "-" ++ two_digits m)%string = String c k.
Proof. unfold four_digits. cbn [append]. eexists _, _. reflexivity. Qed.

Lemma month_to_date_at_end (y m : Z) (x : expense) :
  dated_by (month_to_date (mkdate y m (days_in_month y m))) x
  = dated_by (same_month (mkdate y m 1)) x.
Proof.
  unfold dated_by. destruct (parse_date (e_date x)) as [dt|] eqn:P; [|reflexivity].
  destruct (parse_date_valid _ _ P) as [Vd _].
  destruct (valid_date_fields _ Vd) as (_ & _ & Hd).
  unfold month_to_date, same_month. cbn [year month day].
  destruct (Z.eqb_spec (year (dt_date dt)) y) as [Ey|Ey]; [|reflexivity].
  destruct (Z.eqb_spec (month (dt_date dt)) m) as [Em|Em]; [|reflexivity].
  rewrite Ey, Em in Hd. simpl. apply Z.leb_le. lia.
Qed.

(** X18: in archive mode, for the key of a month other than that of the
    clock, [get_context_date] gives midnight of the last day of that month,
    and [calculate_daily_average] at that date divides the total of the
    whole month by the number of its days; for the key of the month of the
    clock, the context date is the clock. *)
Theorem archive_context_is_month_end (w : world) (y m : Z) (expenses : list expense) :
  1 <= y <= 9999 -> 1 <= m <= 12 ->
  (four_digits y ++ "-" ++ two_digits m)%string <> strftime_Ym (now w) ->
  is_archive_mode w (Some (four_digits y ++ "-" ++ two_digits m)%string) = true
  /\ get_context_date w (Some (four_digits y ++ "-" ++ two_digits m)%string)
     = Ok (at_date y m (days_in_month y m))
  /\ get_context_date w (Some (strftime_Ym (now w))) = Ok (now w)
  /\ (expenses <> [] -> ~ (y = 9999 /\ m = 12) ->
      calculate_daily_average w expenses (Some (at_date y m (days_in_month y m)))
      = Ok ((total (filter (dated_by (same_month (mkdate y m 1))) expenses)
             / inject_Z (days_in_month y m))%Q, days_in_month y m)).
Proof.
  intros Hy Hm NE. pose proof (days_in_month_bounds y m Hm) as B.
  assert (V : valid_dateb (mkdate y m (days_in_month y m)) = true)
    by (apply valid_date_intro; cbn [year month day]; lia).
  assert (A : is_archive_mode w (Some (four_digits y ++ "-" ++ two_digits m)%string) = true).
  { unfold is_archive_mode. apply negb_true_iff, String.eqb_neq. exact NE. }
  split; [exact A|]. split; [|split].
  - unfold get_context_date. rewrite A, month_key_parts by lia.
    unfold monthrange_last.
    assert (C : (1 <=? m) && (m <=? 12) = true)
      by (apply andb_true_intro; split; apply Z.leb_le; lia).
    rewrite C. simpl bind. rewrite (datetime_new_valid _ _ _ V). reflexivity.
  - unfold get_context_date, is_archive_mode. rewrite String.eqb_refl. reflexivity.
  - intros NEe Last. unfold calculate_daily_average.
    destruct expenses as [|x l]; [congruence|].
    assert (Vt : valid_datetime (at_date y m (days_in_month y m)))
      by (apply at_date_valid; exact V).
    assert (R : month_in_range (at_date y m (days_in_month y m))).
    { unfold month_in_range, MAXYEAR. cbn [at_date dt_date year month]. lia. }
    rewrite (month_filter_computed w (x :: l) _ true Vt R). simpl bind.
    rewrite range_is_filter. cbn [date_or_now].
    rewrite (filter_ext _ _ (kept_month_to_date (at_date y m (days_in_month y m)))).
    cbn [at_date dt_date day].
    rewrite (filter_ext _ _ (month_to_date_at_end y m)).
    assert (P : (0 <? days_in_month y m) = true) by (apply Z.ltb_lt; lia).
    rewrite P. reflexivity.
Qed.

Lemma archive_context_is_month_end_witness :
  get_context_date sample_world (Some "2024-02"%string) = Ok (at_date 2024 2 29).
Proof.
  refine (proj1 (proj2 (archive_context_is_month_end sample_world 2024 2 [] _ _ _))).
  - lia.
  - lia.
  - vm_compute. discriminate.
Defined.

Lemma day_before_first (t : datetime) :
  valid_datetime t ->
  (year (dt_date t) = 1 /\ month (dt_date t) = 1 ->
   sub_days (first_of_month t) 1 = Raise OverflowError)
  /\ (~ (year (dt_date t) = 1 /\ month (dt_date t) = 1) ->
      sub_days (first_of_month t) 1
      = Ok (mkdatetime (last_of_month (month_before (dt_date t))) (dt_micro t))).
Proof.
  intros V. pose proof V as [Vd M].
  destruct (valid_date_fields _ Vd) as (Hy & Hm & Hd).
  unfold sub_days, first_of_month. cbn [dt_date dt_micro]. split.
  - intros [Ey Em]. rewrite Ey, Em. reflexivity.
  - intros N.
    assert (Vf : valid_date (mkdate (year (dt_date t)) (month (dt_date t)) 1))
      by (apply valid_date_intro; cbn [year month day]; lia).
    pose proof (toordinal_range _ Vf) as Rf.
    assert (P : 1 < toordinal (mkdate (year (dt_date t)) (month (dt_date t)) 1)).
    { unfold toordinal. cbn [year month day].
      destruct (Z.eq_dec (year (dt_date t)) 1) as [E|E].
      - rewrite E. change (days_before_year 1) with 0.
        assert (1 < month (dt_date t)) by lia.
        pose proof (month_end_before_next 1 1 (month (dt_date t))).
        change (days_before_month 1 1 + days_in_month 1 1) with 31 in *. lia.
      - pose proof (days_before_year_grows 1 (Z.to_nat (year (dt_date t) - 1))) as G.
        rewrite Z2Nat.id in G by lia.
        replace (1 + (year (dt_date t) - 1)) with (year (dt_date t)) in G by lia.
        change (days_before_year 1) with 0 in G.
        pose proof (month_end_in_year (year (dt_date t)) (month (dt_date t))). lia. }
    assert (C : (0 <? toordinal (mkdate (year (dt_date t)) (month (dt_date t)) 1) - 1)
                && (toordinal (mkdate (year (dt_date t)) (month (dt_date t)) 1) - 1
                    <=? MAXORDINAL) = true).
    { apply andb_true_intro; split; [apply Z.ltb_lt|apply Z.leb_le]; lia. }
    rewrite C. change (Z.to_nat 1) with 1%nat. cbn [days_back].
    unfold prev_day, last_of_month, month_before. cbn [year month day].
    simpl (1 <? 1). cbv iota.
    destruct (1 <? month (dt_date t)); reflexivity.
Qed.

(** X19: for the key of a month, [calculate_monthly_trend] takes the last
    day of the month before as the previous month and names that month; for
    the key of January of the year 1 it raises [OverflowError], and for a
    key that [strptime] does not accept [ValueError]. *)
Theorem trend_names_month_before (w : world) (prev_month_data_folder : string)
    (current_month_total : option float) (y m : Z) :
  1 <= y <= 9999 -> 1 <= m <= 12 ->
  (y = 1 /\ m = 1 ->
   calculate_monthly_trend w prev_month_data_folder current_month_total
     (Some (four_digits y ++ "-" ++ two_digits m)%string) = Raise OverflowError)
  /\ (~ (y = 1 /\ m = 1) ->
      trend_prev_month_date w (Some (four_digits y ++ "-" ++ two_digits m)%string)
      = Ok (mkdatetime (last_of_month (month_before (mkdate y m 1))) 0)
      /\ exists text comparison_indicator,
           calculate_monthly_trend w prev_month_data_folder current_month_total
             (Some (four_digits y ++ "-" ++ two_digits m)%string)
           = Ok (text,
                 (month_name (month (month_before (mkdate y m 1))) ++ " "
                  ++ four_digits (year (month_before (mkdate y m 1))))%string,
                 comparison_indicator))
  /\ (forall c k e, strptime_Ym (String c k) = Raise e ->
        calculate_monthly_trend w prev_month_data_folder current_month_total
          (Some (String c k)) = Raise e).
Proof.
  intros Hy Hm.
  assert (V : valid_datetime (mkdatetime (mkdate y m 1) 0)).
  { apply at_date_valid. apply valid_date_intro; cbn [year month day]; try lia.
    pose proof (days_in_month_bounds y m Hm). lia. }
  destruct (day_before_first _ V) as [Rs Ok_].
  assert (D : trend_prev_month_date w (Some (four_digits y ++ "-" ++ two_digits m)%string)
              = sub_days (first_of_month (mkdatetime (mkdate y m 1) 0)) 1).
  { unfold trend_prev_month_date.
    destruct (key_not_empty y m) as (c & k & E). rewrite E. rewrite <- E.
    rewrite (strptime_Ym_key y m Hy Hm). simpl bind.
    rewrite (replace_day_1 _ V). reflexivity. }
  split; [|split].
  - intros E. unfold calculate_monthly_trend. rewrite D, (Rs E). reflexivity.
  - intros N. assert (E := Ok_ N). cbn [dt_date dt_micro] in E.
    split; [rewrite D; exact E|].
    unfold calculate_monthly_trend. rewrite D, E. simpl bind.
    eexists _, _. unfold strftime_BY, last_of_month. cbn [dt_date year month].
    reflexivity.
  - intros c k e E. unfold calculate_monthly_trend, trend_prev_month_date.
    rewrite E. reflexivity.
Qed.

Lemma trend_names_month_before_witness :
  trend_prev_month_date sample_world (Some "2025-01"%string)
  = Ok (mkdatetime (mkdate 2024 12 31) 0).
Proof.
  refine (proj1 (proj1 (proj2 (trend_names_month_before sample_world "" None 2025 1 _ _)) _)).
  - lia.
  - lia.
  - lia.
Defined.

(* ===================================================================== *)
(** * The expenses file of the month before                               *)
(* ===================================================================== *)

Lemma dict_get_find (key : string) (kv : list (string * json)) (d : json) :
  dict_get key kv d = match dict_find key kv with Some v => v | None => d end.
Proof.
  induction kv as [|[k v] r IH]; simpl; [reflexivity|].
  destruct (String.eqb k key); [reflexivity|exact IH].
Qed.

Lemma sum_item_amounts_all (items : list json) (qs : list float) (acc : float) :
  map item_amount items = map Some qs ->
  sum_item_amounts acc items = Some (fold_left PrimFloat.add qs acc).
Proof.
  revert qs acc. induction items as [|e r IH]; intros [|q qs] acc E; simpl in E;
    try discriminate; [reflexivity|].
  injection E as E1 E2. simpl. rewrite E1. apply IH. exact E2.
Qed.

Lemma sum_item_amounts_bad (items : list json) (acc : float) :
  (exists e, In e items /\ item_amount e = None) -> sum_item_amounts acc items = None.
Proof.
  revert acc. induction items as [|x r IH]; intros acc (e & I & B); [destruct I|].
  simpl. destruct I as [->|I].
  - rewrite B. reflexivity.
  - destruct (item_amount x); [|reflexivity]. apply IH. exists e. split; assumption.
Qed.

(** X20: the total of the month before is the same for a file that holds the
    list of expenses and for one that holds an object with the list under
    ["expenses"]: the sum of the amounts when every item has a number as
    its amount, and 0 as soon as one item has none. *)
Theorem previous_total_of_file (w : world) (prev_month_date : datetime)
    (items : list json) :
  fs w (previous_expenses_file w prev_month_date) = Json (JList items)
  \/ (exists kv, fs w (previous_expenses_file w prev_month_date) = Json (JDict kv)
                 /\ dict_find "expenses" kv = Some (JList items)) ->
  (forall qs, map item_amount items = map Some qs ->
     trend_prev_total w prev_month_date = float_sum qs)
  /\ ((exists e, In e items /\ item_amount e = None) ->
      trend_prev_total w prev_month_date = 0%float).
Proof.
  intros F.
  assert (E : trend_prev_total w prev_month_date
              = match sum_item_amounts 0%float items with
                | Some total => total
                | None => 0%float
                end).
  { unfold trend_prev_total. fold (previous_expenses_file w prev_month_date).
    destruct F as [F|(kv & F & D)]; rewrite F; [reflexivity|].
    rewrite dict_get_find, D. reflexivity. }
  rewrite E. split.
  - intros qs A. rewrite (sum_item_amounts_all items qs 0%float A). reflexivity.
  - intros B. rewrite (sum_item_amounts_bad items 0%float B). reflexivity.
Qed.

Lemma previous_total_of_file_witness :
  trend_prev_total september_world (at_date 2025 9 30) = float_sum [600%float; 400%float].
Proof.
  refine (proj1 (previous_total_of_file september_world (at_date 2025 9 30)
                   [JDict [("amount"%string, JNum 600%float)];
                    JDict [("amount"%string, JNum 400%float)]] _) [600%float; 400%float] _).
  - right. eexists. split; reflexivity.
  - reflexivity.
Defined.

(* ===================================================================== *)
(** * The suggestions and the record of a use                             *)
(* ===================================================================== *)

Lemma Subseq_refl {A : Type} (l : list A) : Subseq l l.
Proof. induction l; constructor; assumption. Qed.

Lemma Subseq_nil_l {A : Type} (l : list A) : Subseq [] l.
Proof. induction l; constructor; assumption. Qed.

Lemma Subseq_trans {A : Type} (a b c : list A) : Subseq a b -> Subseq b c -> Subseq a c.
Proof.
  intros H1 H2. revert a H1. induction H2 as [|x b c H2 IH|x b c H2 IH]; intros a H1.
  - exact H1.
  - constructor. apply IH. exact H1.
  - inversion H1; subst; constructor; apply IH; assumption.
Qed.

Lemma Subseq_firstn {A : Type} (k : nat) (l : list A) : Subseq (firstn k l) l.
Proof.
  revert k. induction l as [|x l IH]; intros [|k]; simpl.
  - constructor.
  - constructor.
  - apply Subseq_nil_l.
  - apply Subseq_keep. apply IH.
Qed.

Lemma Subseq_Forall {A : Type} (P : A -> Prop) (a b : list A) :
  Subseq a b -> Forall P b -> Forall P a.
Proof.
  induction 1 as [|x a b _ IH|x a b _ IH]; intros F.
  - constructor.
  - apply IH. apply Forall_inv_tail in F. exact F.
  - constructor; [apply Forall_inv in F; exact F|]. apply IH.
    apply Forall_inv_tail in F. exact F.
Qed.

Lemma Subseq_sorted {A : Type} (R : A -> A -> Prop) (a b : list A) :
  Subseq a b -> StronglySorted R b -> StronglySorted R a.
Proof.
  induction 1 as [|x a b H IH|x a b H IH]; intros S.
  - constructor.
  - apply StronglySorted_inv in S. apply IH, S.
  - apply StronglySorted_inv in S. destruct S as [S F].
    constructor; [apply IH; exact S|]. eapply Subseq_Forall; eassumption.
Qed.

Lemma Subseq_In {A : Type} (a b : list A) (x : A) : Subseq a b -> In x a -> In x b.
Proof.
  induction 1 as [|y a b _ IH|y a b _ IH]; intros I.
  - exact I.
  - right. apply IH. exact I.
  - destruct I as [->|I]; [left; reflexivity|right; apply IH; exact I].
Qed.

Lemma slice_to_Subseq {A : Type} (n : Z) (l : list A) : Subseq (slice_to n l) l.
Proof. unfold slice_to. destruct (n <? 0); apply Subseq_firstn. Qed.

Lemma slice_to_all {A : Type} (n : Z) (l : list A) :
  Z.of_nat (List.length l) <= n -> slice_to n l = l.
Proof.
  intros H. unfold slice_to.
  destruct (Z.ltb_spec n 0); [lia|]. apply firstn_all2. lia.
Qed.

Lemma slice_to_short {A : Type} (n : Z) (l : list A) :
  (List.length (slice_to n l) <= List.length l)%nat.
Proof. unfold slice_to. destruct (n <? 0); rewrite length_firstn; lia. Qed.

Lemma update_existing_first (p : entry -> bool) (f : entry -> entry) (l l' : list entry) :
  update_existing p f l = Some l' ->
  exists pre old post,
    l = pre ++ old :: post /\ Forall (fun d => p d = false) pre /\ p old = true
    /\ l' = pre ++ f old :: post.
Proof.
  revert l'. induction l as [|d r IH]; intros l' E; simpl in E; [discriminate|].
  destruct (p d) eqn:P.
  - injection E as <-. exists [], d, r. repeat split; [constructor|exact P].
  - destruct (update_existing p f r) as [r'|]; [|discriminate]. injection E as <-.
    destruct (IH r' eq_refl) as (pre & old & post & -> & F & Po & ->).
    exists (d :: pre), old, post. repeat split; [constructor; assumption|exact Po].
Qed.

Section SuggestionFacts.
Variables lower strip : string -> string.

(** X21: [get_suggestions] gives entries of the history in the order of the
    history, each one with a text that begins with the typed text (lower
    case, stripped) when one is typed; not more than the limit when the
    limit is not negative, and every matching entry when the limit is not
    below their number; ranked when the history is; none after
    [clear_history]. *)
Theorem suggestions_are_ranked_matches (self : history) (partial_text : string)
    (limit : option Z) :
  Subseq (get_suggestions lower strip self partial_text limit) (descriptions self)
  /\ (partial_text <> EmptyString ->
      Forall (fun d => startswith (lower (text d)) (strip (lower partial_text)) = true)
             (get_suggestions lower strip self partial_text limit))
  /\ (forall n, limit = Some n -> 0 <= n ->
        Z.of_nat (List.length (get_suggestions lower strip self partial_text limit)) <= n)
  /\ (limit = None -> settings self "AutoComplete" "max_suggestions" = None ->
        Z.of_nat (List.length (get_suggestions lower strip self partial_text limit)) <= 5)
  /\ (forall n, limit = Some n -> partial_text <> EmptyString ->
        Z.of_nat (List.length
                    (filter (fun d => startswith (lower (text d))
                                        (strip (lower partial_text)))
                            (descriptions self))) <= n ->
        forall d, In d (descriptions self) ->
                  startswith (lower (text d)) (strip (lower partial_text)) = true ->
                  In d (get_suggestions lower strip self partial_text limit))
  /\ (StronglySorted ranks_before (descriptions self) ->
      StronglySorted ranks_before (get_suggestions lower strip self partial_text limit))
  /\ get_suggestions lower strip (clear_history self) partial_text limit = [].
Proof.
  assert (Sub : Subseq (get_suggestions lower strip self partial_text limit)
                       (descriptions self)).
  { unfold get_suggestions. destruct (String.eqb partial_text "").
    - apply slice_to_Subseq.
    - eapply Subseq_trans; [apply slice_to_Subseq|apply filter_Subseq]. }
  split; [exact Sub|]. split; [|split; [|split; [|split; [|split]]]].
  - intros NE. unfold get_suggestions.
    destruct (String.eqb_spec partial_text ""); [contradiction|].
    eapply Subseq_Forall; [apply slice_to_Subseq|].
    apply Forall_forall. intros d I. apply filter_In in I. apply I.
  - intros n -> Hn. unfold get_suggestions.
    destruct (String.eqb partial_text ""); apply slice_to_length; exact Hn.
  - intros -> S. unfold get_suggestions, settings_get_int. rewrite S.
    destruct (String.eqb partial_text ""); apply slice_to_length; lia.
  - intros n -> NE Len d I M. unfold get_suggestions.
    destruct (String.eqb_spec partial_text ""); [contradiction|].
    rewrite slice_to_all by exact Len. apply filter_In. split; assumption.
  - intros S. eapply Subseq_sorted; eassumption.
  - unfold get_suggestions, clear_history. cbn [descriptions filter].
    destruct (String.eqb partial_text ""); unfold slice_to;
      destruct (_ <? 0); apply firstn_nil.
Qed.

(** X22: [add_or_update] makes the list longer by one entry at most, and
    while the limit is not reached it records the use and nothing else: a
    description met for the first time, whatever its case, is added with
    the count 1; otherwise the first entry with that text gets its count
    raised by one; both with the date of the clock and the amount; the
    other entries stay as they are, up to the order. *)
Theorem add_or_update_records_use (w : world) (self : history)
    (description : string) (amount : Q) :
  (List.length (descriptions (add_or_update lower strip w self description amount))
   <= List.length (descriptions self) + 1)%nat
  /\ (strip description <> EmptyString ->
      Z.of_nat (List.length (descriptions self))
      < settings_get_int self "AutoComplete" "max_descriptions" 50 ->
      (Forall (fun d => String.eqb (lower (text d)) (lower (strip description)) = false)
              (descriptions self)
       /\ Permutation
            (descriptions (add_or_update lower strip w self description amount))
            (descriptions self
             ++ [mkentry (strip description) 1 (strftime_Ymd (now w)) amount]))
      \/ (exists pre old post,
            descriptions self = pre ++ old :: post
            /\ Forall (fun d => String.eqb (lower (text d)) (lower (strip description))
                                = false) pre
            /\ String.eqb (lower (text old)) (lower (strip description)) = true
            /\ Permutation
                 (descriptions (add_or_update lower strip w self description amount))
                 (pre ++ mkentry (text old) (count old + 1) (strftime_Ymd (now w)) amount
                      :: post))).
Proof.
  assert (Rp : forall l, Permutation (regroup (sorted key_leb l)) l).
  { intros l. etransitivity; [apply (regroup_spec _ (key_sorted_counts l))|].
    apply sorted_perm. }
  unfold add_or_update.
  destruct (String.eqb_spec (strip description) "") as [E|NE].
  { split; [lia|]. intros C. contradiction. }
  cbn [descriptions].
  destruct (update_existing
              (fun d => String.eqb (lower (text d)) (lower (strip description)))
              (fun existing => mkentry (text existing) (count existing + 1)
                                 (strftime_Ymd (now w)) amount)
              (descriptions self)) as [updated|] eqn:U.
  - destruct (update_existing_first _ _ _ _ U) as (pre & old & post & El & F & Po & Eu).
    split.
    + etransitivity; [apply slice_to_short|].
      rewrite (Permutation_length (Rp updated)), Eu, El, !length_app. simpl. lia.
    + intros _ Len. right. exists pre, old, post.
      split; [exact El|]. split; [exact F|]. split; [exact Po|].
      rewrite slice_to_all.
      * rewrite <- Eu. apply Rp.
      * rewrite (Permutation_length (Rp updated)), Eu.
        rewrite El in Len. rewrite !length_app in *. simpl in *. lia.
  - split.
    + etransitivity; [apply slice_to_short|].
      rewrite (Permutation_length (Rp _)), length_app. simpl. lia.
    + intros _ Len. left. split; [apply (update_existing_none _ _ _ U)|].
      rewrite slice_to_all; [apply Rp|].
      rewrite (Permutation_length (Rp _)), length_app. simpl. lia.
Qed.

End SuggestionFacts.

Lemma add_or_update_records_use_witness :
  (Forall (fun d => String.eqb (ascii_lower (text d)) (ascii_lower (ascii_strip " TEA "))
                    = false)
          (descriptions (tea_history None))
   /\ Permutation
        (descriptions (add_or_update ascii_lower ascii_strip sample_world
                         (tea_history None) " TEA " 9))
        (descriptions (tea_history None)
         ++ [mkentry (ascii_strip " TEA ") 1 (strftime_Ymd (now sample_world)) 9]))
  \/ (exists pre old post,
        descriptions (tea_history None) = pre ++ old :: post
        /\ Forall (fun d => String.eqb (ascii_lower (text d))
                              (ascii_lower (ascii_strip " TEA ")) = false) pre
        /\ String.eqb (ascii_lower (text old)) (ascii_lower (ascii_strip " TEA ")) = true
        /\ Permutation
             (descriptions (add_or_update ascii_lower ascii_strip sample_world
                              (tea_history None) " TEA " 9))
             (pre ++ mkentry (text old) (count old + 1)
                       (strftime_Ymd (now sample_world)) 9 :: post)).
Proof.
  refine (proj2 (add_or_update_records_use ascii_lower ascii_strip sample_world
                   (tea_history None) " TEA " 9) _ _).
  - vm_compute. discriminate.
  - vm_compute. reflexivity.
Defined.

(* ===================================================================== *)
(** * The numbers of the monthly trend                                    *)
(* ===================================================================== *)

(** ** Binary64: the order *)




(** ** Binary64: rounding *)









(** ** Binary64: the sign of a difference *)









(** ** Binary64: absolute values and NaN *)














Lemma SFabs_nonneg (x : spec_float) :
  SFis_nan x = false -> SFleb (S754_zero false) (SFabs x) = true.
Proof. destruct x as [s|s| |s m e]; simpl; try reflexivity; discriminate. Qed.


(** ** The primitive numbers *)










(** ** The percentage *)






(** ** The indicator *)


Lemma trend_indicator_none (c : option float) (p : float) :
  c = None \/ (0 <? p)%float = false -> trend_indicator c p = None.
Proof.
  intros [->|N]; [reflexivity|]. unfold trend_indicator.
  destruct c; [|reflexivity]. rewrite N. reflexivity.
Qed.

(** ** The previous month *)

(** The previous month of [calculate_monthly_trend] ends on the last day of
    the month before the month viewed, with a key as without one. *)
Lemma trend_prev_month_pinned (w : world) (viewed_month_key : option string)
    (viewed : datetime) :
  viewed_month w viewed_month_key viewed -> valid_datetime viewed ->
  (year (dt_date viewed) = 1 /\ month (dt_date viewed) = 1 ->
   trend_prev_month_date w viewed_month_key = Raise OverflowError)
  /\ (~ (year (dt_date viewed) = 1 /\ month (dt_date viewed) = 1) ->
      trend_prev_month_date w viewed_month_key = Ok (end_of_previous_month viewed)).
Proof.
  intros M V. destruct (day_before_first viewed V) as [R O].
  assert (D : trend_prev_month_date w viewed_month_key
              = sub_days (first_of_month viewed) 1).
  { unfold trend_prev_month_date, viewed_month in *.
    destruct viewed_month_key as [[|c k]|].
    - subst viewed. rewrite (replace_day_1 _ V). reflexivity.
    - rewrite M. simpl bind. rewrite (replace_day_1 _ V). reflexivity.
    - subst viewed. rewrite (replace_day_1 _ V). reflexivity. }
  rewrite D. split; assumption.
Qed.

Lemma previous_file_name (w : world) (viewed : datetime) :
  previous_expenses_file w (end_of_previous_month viewed)
  = path_join w ("data_" ++ four_digits (year (month_before (dt_date viewed)))
                 ++ "-" ++ two_digits (month (month_before (dt_date viewed))))
      "expenses.json".
Proof. reflexivity. Qed.

(** C6.  The previous month is the month before the month viewed (the
    month of the key, or of the clock without a key); years from 1000 on,
    for which the spelling of the year does not depend on the platform.
    When the expenses file of that month does not exist, cannot be read or
    is not JSON, [calculate_monthly_trend] takes 0.0 as its total: it
    returns ["$0.00"], the name of that month and no indicator, whatever
    the current total. *)
Theorem C6_no_file_is_zero (w : world) (prev_month_data_folder : string)
    (current_month_total : option float) (viewed_month_key : option string)
    (viewed : datetime) :
  viewed_month w viewed_month_key viewed -> valid_datetime viewed ->
  1000 <= year (month_before (dt_date viewed)) ->
  fs w (previous_expenses_file w (end_of_previous_month viewed)) = NoFile
  \/ fs w (previous_expenses_file w (end_of_previous_month viewed)) = Unreadable
  \/ fs w (previous_expenses_file w (end_of_previous_month viewed)) = NotJson ->
  trend_prev_month_date w viewed_month_key = Ok (end_of_previous_month viewed)
  /\ previous_expenses_file w (end_of_previous_month viewed)
     = path_join w ("data_" ++ four_digits (year (month_before (dt_date viewed)))
                    ++ "-" ++ two_digits (month (month_before (dt_date viewed))))
         "expenses.json"
  /\ trend_prev_total w (end_of_previous_month viewed) = 0%float
  /\ calculate_monthly_trend w prev_month_data_folder current_month_total viewed_month_key
     = Ok ("$0.00"%string,
           (month_name (month (month_before (dt_date viewed))) ++ " "
            ++ four_digits (year (month_before (dt_date viewed))))%string,
           None).
Proof.
  intros M V Y F.
  assert (N : ~ (year (dt_date viewed) = 1 /\ month (dt_date viewed) = 1)).
  { intros [Ey Em]. unfold month_before in Y. rewrite Ey, Em in Y. simpl in Y. lia. }
  destruct (trend_prev_month_pinned w viewed_month_key viewed M V) as [_ P].
  specialize (P N).
  assert (Z : trend_prev_total w (end_of_previous_month viewed) = 0%float).
  { unfold trend_prev_total.
    fold (previous_expenses_file w (end_of_previous_month viewed)).
    destruct F as [F|[F|F]]; rewrite F; reflexivity. }
  split; [exact P|]. split; [apply previous_file_name|]. split; [exact Z|].
  unfold calculate_monthly_trend. rewrite P. simpl bind. rewrite Z.
  rewrite (trend_indicator_none current_month_total 0%float) by (right; reflexivity).
  reflexivity.
Qed.

Lemma C6_witness :
  calculate_monthly_trend sample_world "data_2025-09" (Some 1100%float) None
  = Ok ("$0.00"%string, "September 2025"%string, None).
Proof.
  refine (proj2 (proj2 (proj2
    (C6_no_file_is_zero sample_world "data_2025-09" (Some 1100%float) None
       (now sample_world) _ _ _ _)))).
  - reflexivity.
  - apply at_date_valid. reflexivity.
  - vm_compute. discriminate.
  - left. reflexivity.
Defined.



